(** * Queue processor system: a shallow embedding and its lifecycle properties

    The development follows the TypeScript sources:
    - [types]            the closed sets of task types and statuses, tasks, results;
    - [config]           the per-queue configuration table;
    - [database]         the [tasks] and [task_results] tables and [TaskModel];
    - [queue]            [QueueManager] over the broker queues and [TaskProcessor];
    - [services], [api]  the worker dispatch, the monitor and the HTTP handlers.

    Asynchronous code is run to completion in program order: a computation
    takes the world (tables, broker queues, clock, the outcomes of the
    coming connection attempts) and returns a value or a thrown message
    together with the world it leaves behind.  Numbers that JavaScript keeps
    as doubles are integers ([Z]) where the code only counts, and rationals
    ([Q]) where it divides; a division is rounded to the nearest double,
    and the database's [numeric] quotients to the scale PostgreSQL selects. *)

From Stdlib Require Import ZArith QArith List String DecimalString Bool Lia.
From Stdlib Require Import Qround Qabs Lqa Qpower Permutation.
Import ListNotations.
Local Open Scope Z_scope.
Local Open Scope string_scope.

(* ===================================================================== *)
(** ** types *)
(* ===================================================================== *)

Inductive TaskType :=
| email_notification
| image_processing
| file_processing
| data_export
| api_integration
| cleanup_tasks.

Inductive TaskStatus :=
| waiting
| active
| completed
| failed
| delayed
| paused.

Definition TaskType_eqb (a b : TaskType) : bool :=
  match a, b with
  | email_notification, email_notification
  | image_processing, image_processing
  | file_processing, file_processing
  | data_export, data_export
  | api_integration, api_integration
  | cleanup_tasks, cleanup_tasks => true
  | _, _ => false
  end.

Definition TaskStatus_eqb (a b : TaskStatus) : bool :=
  match a, b with
  | waiting, waiting
  | active, active
  | completed, completed
  | failed, failed
  | delayed, delayed
  | paused, paused => true
  | _, _ => false
  end.

(** The string each status is stored as in the [status] column. *)
Definition status_name (s : TaskStatus) : string :=
  match s with
  | waiting => "waiting"
  | active => "active"
  | completed => "completed"
  | failed => "failed"
  | delayed => "delayed"
  | paused => "paused"
  end.

Definition type_name (t : TaskType) : string :=
  match t with
  | email_notification => "email_notification"
  | image_processing => "image_processing"
  | file_processing => "file_processing"
  | data_export => "data_export"
  | api_integration => "api_integration"
  | cleanup_tasks => "cleanup_tasks"
  end.

Definition all_task_types : list TaskType :=
  [email_notification; image_processing; file_processing;
   data_export; api_integration; cleanup_tasks].

(** The string a request carries is a task type when it is one of the six
    names (the [includes] test of the handlers). *)
Definition parse_type (s : string) : option TaskType :=
  find (fun t => String.eqb (type_name t) s) all_task_types.

(** JSON documents: task payloads and results. *)
#[local] Set Warnings "-register-all".
Inductive Json :=
| JNull
| JBool (b : bool)
| JNum (n : Z)
| JStr (s : string)
| JArr (items : list Json)
| JObj (fields : list (string * Json)).
#[local] Set Warnings "register-all".

(** JavaScript truthiness of a JSON value. *)
Definition truthy (j : Json) : bool :=
  match j with
  | JNull => false
  | JBool b => b
  | JNum n => negb (Z.eqb n 0)
  | JStr s => negb (String.eqb s "")
  | JArr _ => true
  | JObj _ => true
  end.

(** Property access [j.name]; [None] is [undefined]. *)
Definition field (name : string) (j : Json) : option Json :=
  match j with
  | JObj fs =>
      match find (fun kv => String.eqb (fst kv) name) fs with
      | Some kv => Some (snd kv)
      | None => None
      end
  | _ => None
  end.

(** [interface Task]: every field marked [?] is an option. *)
Record Task := {
  t_id : option string;
  t_type : TaskType;
  t_priority : Z;
  t_data : Json;
  t_status : option TaskStatus;
  t_createdAt : option Z;
  t_maxRetries : option Z
}.

(** The fields of [Partial<Task>] that [updateTaskStatus] reads. *)
Record TaskPatch := {
  p_startedAt : option Z;
  p_completedAt : option Z;
  p_failedAt : option Z;
  p_attempts : option Z;
  p_progress : option Z;
  p_result : option Json;
  p_error : option string
}.

Definition no_patch : TaskPatch :=
  {| p_startedAt := None; p_completedAt := None; p_failedAt := None;
     p_attempts := None; p_progress := None; p_result := None;
     p_error := None |}.

Inductive BackoffType := fixed | exponential.

Record QueueConfig := {
  name : string;
  concurrency : Z;
  maxRetries : Z;
  retryDelay : Z;
  backoffType : BackoffType;
  removeOnComplete : Z;
  removeOnFail : Z
}.

Record QueueStats := {
  qs_waiting : Z;
  qs_active : Z;
  qs_completed : Z;
  qs_failed : Z;
  qs_delayed : Z;
  qs_paused : Z
}.

Record TaskResult := {
  r_taskId : string;
  r_success : bool;
  r_data : option Json;
  r_error : option string;
  r_duration : Z;
  r_attempts : Z
}.

(* ===================================================================== *)
(** ** Numbers as the runtime and the database round them *)
(* ===================================================================== *)

(** A double is kept as the rational it stands for.  The exponent range of
    doubles is not modelled: no figure of this program comes near it. *)
(** [floor (log2 q)] for a positive rational. *)
Definition floor_log2 (q : Q) : Z :=
  let k := Z.log2 (Qnum q) - Z.log2 (Z.pos (Qden q)) in
  if Qle_bool (2 ^ k) q then k else k - 1.

(** Rounding to the nearest integer, ties to the even one. *)
Definition round_half_even (q : Q) : Z :=
  let f := Qfloor q in
  match Qcompare (q - inject_Z f) (1 # 2) with
  | Lt => f
  | Gt => f + 1
  | Eq => if Z.even f then f else f + 1
  end.

(** The double nearest to a positive rational: 53 significant bits. *)
Definition nearest_double (q : Q) : Q :=
  let e := floor_log2 q - 52 in
  (inject_Z (round_half_even (q / 2 ^ e)) * 2 ^ e)%Q.

Definition to_double (q : Q) : Q :=
  if Qeq_bool q 0 then 0%Q
  else if Qle_bool 0 q then nearest_double q
  else (- nearest_double (- q))%Q.

(** [Math.round]: the nearest integer, halves upwards. *)
Definition math_round (x : Q) : Z := Qfloor (x + (1 # 2)).

(** PostgreSQL's [numeric] division, as [getMetrics] meets it in [AVG] and
    in the success rate: the quotient is rounded to a scale chosen from
    the operands.  (The scale is also capped at 1000 digits, which takes a
    quotient below [10^-980].) *)
(** The number of base-10000 digits of a positive integer, less one. *)
Fixpoint ilog_base (fuel : nat) (m : Z) : Z :=
  match fuel with
  | O => 0
  | S f => if Z.ltb m 10000 then 0 else 1 + ilog_base f (m / 10000)
  end.

Definition numeric_ilog (m : Z) : Z := ilog_base (S (Z.to_nat (Z.log2 m))) m.

(** The weight of a positive [numeric]: the position of its first
    base-10000 digit, 0 for the units. *)
Definition numeric_weight (x : Q) : Z :=
  if Qle_bool 1 x then numeric_ilog (Qfloor x)
  else - (numeric_ilog ((Z.pos (Qden x) - 1) / Qnum x) + 1).

(** Weight and first base-10000 digit of a [numeric] that is not negative;
    both are 0 for zero. *)
Definition weight_and_digit (x : Q) : Z * Z :=
  if Qeq_bool x 0 then (0, 0)
  else let w := numeric_weight x in (w, Qfloor (x / 10000 ^ w)).

(** [select_div_scale]: the scale that gives the quotient at least 16
    significant digits, and no less than the scales of the operands. *)
Definition div_scale (x1 : Q) (s1 : Z) (x2 : Q) (s2 : Z) : Z :=
  let '(weight1, firstdigit1) := weight_and_digit (Qabs x1) in
  let '(weight2, firstdigit2) := weight_and_digit (Qabs x2) in
  let qweight := weight1 - weight2 - (if Z.leb firstdigit1 firstdigit2 then 1 else 0) in
  Z.max (Z.max (Z.max (16 - qweight * 4) s1) s2) 0.

(** Rounding to [scale] decimal places, halves away from zero. *)
Definition numeric_round (x : Q) (scale : Z) : Q :=
  let n := inject_Z (Qfloor (Qabs x * 10 ^ scale + (1 # 2))) in
  ((if Qle_bool 0 x then n else - n) / 10 ^ scale)%Q.

(** [x1 / x2] on [numeric] operands of display scales [s1] and [s2]. *)
Definition numeric_div (x1 : Q) (s1 : Z) (x2 : Q) (s2 : Z) : Q :=
  numeric_round (x1 / x2) (div_scale x1 s1 x2 s2).

(* ===================================================================== *)
(** ** config *)
(* ===================================================================== *)

(** [config.queues] is a table from task type to queue configuration.  The
    three numeric entries of each queue come from the environment; the
    record below lists the environment's values, and [default_env] the
    defaults used when a variable is unset. *)
Record QueueEnv := {
  env_concurrency : Z;
  env_max_retries : Z;
  env_retry_delay : Z
}.

Definition Env := TaskType -> QueueEnv.

Definition default_env : Env := fun t =>
  match t with
  | email_notification => {| env_concurrency := 3; env_max_retries := 3; env_retry_delay := 5000 |}
  | image_processing => {| env_concurrency := 2; env_max_retries := 2; env_retry_delay := 10000 |}
  | file_processing => {| env_concurrency := 3; env_max_retries := 3; env_retry_delay := 5000 |}
  | data_export => {| env_concurrency := 1; env_max_retries := 2; env_retry_delay := 15000 |}
  | api_integration => {| env_concurrency := 5; env_max_retries := 5; env_retry_delay := 3000 |}
  | cleanup_tasks => {| env_concurrency := 1; env_max_retries := 1; env_retry_delay := 60000 |}
  end.

Definition config_queues (env : Env) (t : TaskType) : QueueConfig :=
  let e := env t in
  let mk bt keepc keepf :=
    {| name := type_name t;
       concurrency := env_concurrency e;
       maxRetries := env_max_retries e;
       retryDelay := env_retry_delay e;
       backoffType := bt;
       removeOnComplete := keepc;
       removeOnFail := keepf |} in
  match t with
  | email_notification => mk exponential 100 50
  | image_processing => mk exponential 50 25
  | file_processing => mk fixed 100 50
  | data_export => mk exponential 25 25
  | api_integration => mk exponential 200 100
  | cleanup_tasks => mk fixed 10 10
  end.

(* ===================================================================== *)
(** ** The world and the computations over it *)
(* ===================================================================== *)

(** A row of table [tasks] (schema of the [tasks] table). *)
Record TaskRow := {
  id : string;
  type : TaskType;
  priority : Z;
  data : Json;
  status : TaskStatus;
  created_at : Z;
  updated_at : Z;
  started_at : option Z;
  completed_at : option Z;
  failed_at : option Z;
  attempts : Z;
  max_retries : Z;
  progress : Z;
  result : option Json;
  error : option string
}.

(** A row of table [task_results]; the serial key is the position. *)
Record ResultRow := {
  rr_task_id : string;
  rr_success : bool;
  rr_data : option Json;
  rr_error : option string;
  rr_duration : Z;
  rr_attempts : Z;
  rr_created_at : Z
}.

(** [Bull.JobOptions] as [addTask] fills them. *)
Record Backoff := {
  bo_type : BackoffType;
  bo_delay : Z
}.

Record JobOptions := {
  jo_priority : Z;
  jo_attempts : Z;
  jo_backoff : Backoff;
  jo_removeOnComplete : Z;
  jo_removeOnFail : Z
}.

(** [Bull.Job<Task>]: the payload, its options and the number of attempts
    the broker has already made. *)
Record Job := {
  job_data : Task;
  job_opts : JobOptions;
  attemptsMade : Z
}.

(** A broker queue, as far as [QueueManager] observes it: the five job
    lists behind [getWaiting], [getActive], [getCompleted], [getFailed] and
    [getDelayed], the paused flag that [pause] and [resume] toggle, and
    whether the broker connection answers. *)
Record Queue := {
  q_name : string;
  q_waiting : list Job;
  q_active : list Job;
  q_completed : list Job;
  q_failed : list Job;
  q_delayed : list Job;
  q_paused : bool;
  q_online : bool
}.

Record World := {
  tasks : list TaskRow;
  task_results : list ResultRow;
  (** outcomes of the coming [pool.query] calls, [true] for a call that
      the connection rejects; past the end every call goes through *)
  faults : list bool;
  (** [QueueManager.queues], in insertion order *)
  queues : list (TaskType * Queue);
  (** milliseconds since the epoch, as [Date.now()] reads them *)
  clock : Z
}.

Definition set_tasks (ts : list TaskRow) (w : World) : World :=
  {| tasks := ts; task_results := task_results w; faults := faults w;
     queues := queues w; clock := clock w |}.

Definition set_task_results (rs : list ResultRow) (w : World) : World :=
  {| tasks := tasks w; task_results := rs; faults := faults w;
     queues := queues w; clock := clock w |}.

Definition set_faults (fs : list bool) (w : World) : World :=
  {| tasks := tasks w; task_results := task_results w; faults := fs;
     queues := queues w; clock := clock w |}.

Definition set_queues (qs : list (TaskType * Queue)) (w : World) : World :=
  {| tasks := tasks w; task_results := task_results w; faults := faults w;
     queues := qs; clock := clock w |}.

Definition set_clock (c : Z) (w : World) : World :=
  {| tasks := tasks w; task_results := task_results w; faults := faults w;
     queues := queues w; clock := c |}.

(** The outcome of an [async] function: a value, or a thrown error, which
    is kept as its [message]. *)
Inductive Outcome (A : Type) :=
| Ok (a : A)
| Throw (message : string).
Arguments Ok {A} a.
Arguments Throw {A} message.

Definition M (A : Type) : Type := World -> Outcome A * World.

Definition ret {A} (a : A) : M A := fun w => (Ok a, w).

Definition throw {A} (message : string) : M A := fun w => (Throw message, w).

Definition bind {A B} (c : M A) (k : A -> M B) : M B := fun w =>
  match c w with
  | (Ok a, w') => k a w'
  | (Throw e, w') => (Throw e, w')
  end.

(** [try { c } catch (error) { h error }]: what [c] did to the world before
    it threw stays done. *)
Definition try_catch {A} (c : M A) (h : string -> M A) : M A := fun w =>
  match c w with
  | (Ok a, w') => (Ok a, w')
  | (Throw e, w') => h e w'
  end.

(** [Promise.all([a, b])]: both are started, so both act on the world; the
    first rejection is the one reported. *)
Definition both {A B} (a : M A) (b : M B) : M (A * B) := fun w =>
  match a w with
  | (ra, w1) =>
      match b w1 with
      | (rb, w2) =>
          (match ra, rb with
           | Ok x, Ok y => Ok (x, y)
           | Throw e, _ => Throw e
           | _, Throw e => Throw e
           end, w2)
      end
  end.

Declare Scope task_scope.
Delimit Scope task_scope with task.
Notation "'let!' x ':=' c 'in' k" := (bind c (fun x => k))
  (at level 10, x pattern, c at level 100, k at level 200) : task_scope.
Notation "c ';;' k" := (bind c (fun _ => k))
  (at level 100, k at level 200, right associativity) : task_scope.
Local Open Scope task_scope.

Definition now : M Z := fun w => (Ok (clock w), w).

(** [await new Promise(resolve => setTimeout(resolve, delay))]. *)
Definition sleep (delay : Z) : M unit := fun w =>
  (Ok tt, set_clock (clock w + delay) w).

(* ===================================================================== *)
(** ** database *)
(* ===================================================================== *)

(** [database.query]: one call on the connection pool.  The call is
    rejected when the connection fails, and by the statement itself when a
    constraint of the schema is violated. *)
Definition query {A} (statement : M A) : M A := fun w =>
  match faults w with
  | true :: rest => (Throw "Connection terminated unexpectedly", set_faults rest w)
  | false :: rest => statement (set_faults rest w)
  | [] => statement w
  end.

(** [x || d] on an optional number: [undefined] and [0] both give [d]. *)
Definition or_number (x : option Z) (d : Z) : Z :=
  match x with
  | Some v => if Z.eqb v 0 then d else v
  | None => d
  end.

(** [x || d] on an optional string: [undefined] and [""] both give [d]. *)
Definition or_string (x : option string) (d : string) : string :=
  match x with
  | Some v => if String.eqb v "" then d else v
  | None => d
  end.

Definition or_else {A} (x : option A) (d : A) : A :=
  match x with Some v => v | None => d end.

Definition has_id (i : string) (r : TaskRow) : bool := String.eqb (id r) i.

Definition lookup (i : string) (w : World) : option TaskRow :=
  find (has_id i) (tasks w).

Definition between (lo hi v : Z) : bool := Z.leb lo v && Z.leb v hi.

(** The row that the INSERT of [createTask] adds at time [t]; the columns
    the statement does not list take their defaults. *)
Definition inserted_row (t : Z) (i : string) (task : Task) : TaskRow :=
  {| id := i;
     type := t_type task;
     priority := t_priority task;
     data := t_data task;
     status := or_else (t_status task) waiting;
     created_at := or_else (t_createdAt task) t;
     updated_at := t;
     started_at := None;
     completed_at := None;
     failed_at := None;
     attempts := 0;
     max_retries := or_number (t_maxRetries task) 3;
     progress := 0;
     result := None;
     error := None |}.

(** A text PostgreSQL can hold has no NUL character. *)
Definition no_nul (s : string) : bool :=
  forallb (fun a => negb (Ascii.eqb a Ascii.zero)) (list_ascii_of_string s).

Fixpoint json_storable (j : Json) : bool :=
  match j with
  | JStr s => no_nul s
  | JArr items => forallb json_storable items
  | JObj fields =>
      forallb (fun kv => no_nul (fst kv) && json_storable (snd kv)) fields
  | _ => true
  end.

(** The tasks whose columns the schema can hold when they are inserted at
    time [t]: [id VARCHAR(255)], [data JSONB], [max_retries INTEGER], and
    [created_at TIMESTAMP] for a date from 1970 to the year 9999. *)
Definition storable (i : string) (task : Task) (t : Z) : bool :=
  Nat.leb (String.length i) 255 && no_nul i
  && json_storable (t_data task)
  && between (-2147483648) 2147483647 (or_number (t_maxRetries task) 3)
  && between 0 253402300799999 (or_else (t_createdAt task) t).

(** [TaskModel.createTask]: the INSERT, with the refusals the constraints
    of the table make: no id, an id that a row already has, a priority
    outside 1..10.  The refusals that come from the column types (an id
    over 255 characters, a [max_retries] outside INTEGER, a NUL character,
    a date out of range) are not part of the function: it stands for the
    INSERT of the tasks that are [storable]. *)
Definition createTask (task : Task) : M string :=
  let! t := now in
  query (fun w =>
    match t_id task with
    | None => (Throw "null value in column id violates not-null constraint", w)
    | Some i =>
        if existsb (has_id i) (tasks w)
        then (Throw "duplicate key value violates unique constraint", w)
        else if negb (between 1 10 (t_priority task))
        then (Throw "new row violates check constraint on priority", w)
        else (Ok i, set_tasks (tasks w ++ [inserted_row t i task]) w)
    end).

(** The SET clause that [updateTaskStatus] assembles, applied to a row. *)
Definition apply_update (t : Z) (st : TaskStatus) (p : TaskPatch)
    (r : TaskRow) : TaskRow :=
  {| id := id r;
     type := type r;
     priority := priority r;
     data := data r;
     status := st;
     created_at := created_at r;
     updated_at := t;
     started_at :=
       match p_startedAt p with Some d => Some d | None => started_at r end;
     completed_at :=
       match p_completedAt p with Some d => Some d | None => completed_at r end;
     failed_at :=
       match p_failedAt p with Some d => Some d | None => failed_at r end;
     attempts := or_else (p_attempts p) (attempts r);
     max_retries := max_retries r;
     progress := or_else (p_progress p) (progress r);
     result :=
       match p_result p with Some j => Some j | None => result r end;
     error :=
       match p_error p with
       | Some e => if String.eqb e "" then error r else Some e
       | None => error r
       end |}.

(** The UPDATE on the table at time [t]: the rows with the id are changed,
    the others kept. *)
Definition updated_rows (taskId : string) (t : Z) (st : TaskStatus)
    (p : TaskPatch) (rows : list TaskRow) : list TaskRow :=
  map (fun r => if has_id taskId r then apply_update t st p r else r) rows.

Definition progress_allowed (p : TaskPatch) : bool :=
  match p_progress p with
  | Some v => between 0 100 v
  | None => true
  end.

(** [TaskModel.updateTaskStatus]: one UPDATE on the rows with the given
    id.  It returns nothing. *)
Definition updateTaskStatus (taskId : string) (st : TaskStatus)
    (additionalData : TaskPatch) : M unit :=
  let! t := now in
  query (fun w =>
    if existsb (has_id taskId) (tasks w) && negb (progress_allowed additionalData)
    then (Throw "new row violates check constraint on progress", w)
    else
      (Ok tt, set_tasks (updated_rows taskId t st additionalData (tasks w)) w)).

(** [TaskModel.saveTaskResult]: the INSERT into [task_results]. *)
Definition saveTaskResult (res : TaskResult) : M unit :=
  let! t := now in
  let row : ResultRow :=
    {| rr_task_id := r_taskId res;
       rr_success := r_success res;
       rr_data :=
         match r_data res with
         | Some j => if truthy j then Some j else None
         | None => None
         end;
       rr_error := r_error res;
       rr_duration := r_duration res;
       rr_attempts := r_attempts res;
       rr_created_at := t |} in
  query (fun w =>
    if existsb (has_id (r_taskId res)) (tasks w)
    then (Ok tt, set_task_results (task_results w ++ [row]) w)
    else (Throw "insert violates foreign key constraint", w)).

Record Metrics := {
  totalTasks : Z;
  completedTasks : Z;
  failedTasks : Z;
  pendingTasks : Z;
  averageProcessingTime : Q;
  successRate : Q
}.

Definition status_in (l : list TaskStatus) (r : TaskRow) : bool :=
  existsb (TaskStatus_eqb (status r)) l.

(** [SELECT COUNT( * ) FROM tasks WHERE ...]. *)
Definition count_where (cond : TaskRow -> bool) (rows : list TaskRow) : Z :=
  Z.of_nat (List.length (filter cond rows)).

Definition Qsum (xs : list Q) : Q := fold_right Qplus 0%Q xs.

(** SQL [AVG] over [numeric] values of display scale [scale]: NULL over
    no rows, else the sum divided by the count. *)
Definition sql_avg (scale : Z) (xs : list Q) : option Q :=
  match xs with
  | [] => None
  | _ => Some (numeric_div (Qsum xs) scale
                 (inject_Z (Z.of_nat (List.length xs))) 0)
  end.

(** [EXTRACT(EPOCH FROM (completed_at - started_at))] of a row that has
    both timestamps: a [numeric] with six decimals, in seconds; the clock
    counts milliseconds. *)
Definition processing_seconds (r : TaskRow) : Q :=
  match started_at r, completed_at r with
  | Some s, Some c => (inject_Z (c - s) / 1000)%Q
  | _, _ => 0%Q
  end.

Definition timed (r : TaskRow) : bool :=
  match started_at r, completed_at r with
  | Some _, Some _ => true
  | _, _ => false
  end.

Definition averageProcessingTime_query (rows : list TaskRow) : option Q :=
  sql_avg 6
    (map processing_seconds
       (filter (fun r => TaskStatus_eqb (status r) completed && timed r) rows)).

(** [COUNT( * ) FILTER (WHERE status = 'completed') * 100.0 / COUNT( * )]:
    the product has one decimal, the count none. *)
Definition successRate_query (rows : list TaskRow) : Q :=
  let scope := filter (status_in [completed; failed]) rows in
  if Z.eqb (Z.of_nat (List.length scope)) 0 then 0%Q
  else numeric_div (inject_Z (count_where (status_in [completed]) scope) * 100) 1
         (inject_Z (Z.of_nat (List.length scope))) 0.

Definition select {A} (f : list TaskRow -> A) : M A :=
  query (fun w => (Ok (f (tasks w)), w)).

(** [parseFloat(x) || 0] on a [numeric] as the driver hands it over, in
    decimal digits: the nearest double; NULL parses to NaN, which [||]
    replaces. *)
Definition parseFloat_or_zero (x : option Q) : Q :=
  match x with Some q => to_double q | None => 0%Q end.

(** [TaskModel.getMetrics]: six queries under one [Promise.all]. *)
Definition getMetrics : M Metrics :=
  let! results :=
    both (select (count_where (fun _ => true)))
   (both (select (count_where (status_in [completed])))
   (both (select (count_where (status_in [failed])))
   (both (select (count_where (status_in [waiting; active; delayed])))
   (both (select averageProcessingTime_query)
         (select successRate_query))))) in
  let '(total, (done, (lost, (pending, (avg, rate))))) := results in
  ret {| totalTasks := total;
         completedTasks := done;
         failedTasks := lost;
         pendingTasks := pending;
         averageProcessingTime := parseFloat_or_zero avg;
         successRate := parseFloat_or_zero (Some rate) |}.

(* ===================================================================== *)
(** ** queue: QueueManager *)
(* ===================================================================== *)

Definition for_type (t : TaskType) (kv : TaskType * Queue) : bool :=
  TaskType_eqb (fst kv) t.

(** [this.queues.get(taskType)]. *)
Definition queues_get (t : TaskType) (w : World) : option Queue :=
  match find (for_type t) (queues w) with
  | Some kv => Some (snd kv)
  | None => None
  end.

Definition not_found {A} (t : TaskType) : M A :=
  throw ("Queue not found for task type: " ++ type_name t).

Fixpoint queues_set (t : TaskType) (q' : Queue) (qs : list (TaskType * Queue))
  : list (TaskType * Queue) :=
  match qs with
  | [] => []
  | kv :: rest =>
      if for_type t kv then (fst kv, q') :: rest
      else kv :: queues_set t q' rest
  end.

(** A call that changes the broker queue of type [t]; it is rejected while
    the broker does not answer. *)
Definition on_queue {A} (t : TaskType) (f : Queue -> A * Queue) : M A := fun w =>
  match queues_get t w with
  | None => not_found t w
  | Some q =>
      if q_online q then
        let '(a, q') := f q in
        (Ok a, set_queues (queues_set t q' (queues w)) w)
      else (Throw "Connection is closed.", w)
  end.

(** A call that only reads the queue, such as [queue.getWaiting()]. *)
Definition read_queue {A} (t : TaskType) (f : Queue -> A) : M A := fun w =>
  match queues_get t w with
  | None => not_found t w
  | Some q =>
      if q_online q then (Ok (f q), w)
      else (Throw "Connection is closed.", w)
  end.

Definition with_waiting (js : list Job) (q : Queue) : Queue :=
  {| q_name := q_name q; q_waiting := js; q_active := q_active q;
     q_completed := q_completed q; q_failed := q_failed q;
     q_delayed := q_delayed q; q_paused := q_paused q;
     q_online := q_online q |}.

Definition with_paused (b : bool) (q : Queue) : Queue :=
  {| q_name := q_name q; q_waiting := q_waiting q; q_active := q_active q;
     q_completed := q_completed q; q_failed := q_failed q;
     q_delayed := q_delayed q; q_paused := b;
     q_online := q_online q |}.

(** [queue.add(data, opts)]: a new job, no attempt made yet, waiting.  The
    list [q_waiting] records the waiting jobs in the order of their
    arrival.  The order in which the broker serves them is its own (Bull
    places a job that carries a priority among the waiting jobs by that
    priority) and is not modelled: the code reads the waiting jobs only
    through their number. *)
Definition queue_add (t : TaskType) (payload : Task) (opts : JobOptions) : M Job :=
  let job := {| job_data := payload; job_opts := opts; attemptsMade := 0 |} in
  on_queue t (fun q => (job, with_waiting (q_waiting q ++ [job]) q)).

(** What the broker keeps under each queue name when the process starts:
    the jobs and the pause flag that earlier runs have left in Redis, and
    whether it answers. *)
Definition Broker := string -> Queue.

(** A broker that holds nothing yet and answers. *)
Definition empty_broker : Broker := fun n =>
  {| q_name := n; q_waiting := []; q_active := []; q_completed := [];
     q_failed := []; q_delayed := []; q_paused := false; q_online := true |}.

(** [new Bull(name, redisConfig)]: the queue object of that name, attached
    to what the broker keeps under the name. *)
Definition attached (broker : Broker) (n : string) : Queue :=
  {| q_name := n; q_waiting := q_waiting (broker n);
     q_active := q_active (broker n); q_completed := q_completed (broker n);
     q_failed := q_failed (broker n); q_delayed := q_delayed (broker n);
     q_paused := q_paused (broker n); q_online := q_online (broker n) |}.

(** [initializeQueues]: one queue object per key of [config.queues], each
    attached to the broker under the configured name. *)
Definition initializeQueues (broker : Broker) (env : Env)
  : list (TaskType * Queue) :=
  map (fun t => (t, attached broker (name (config_queues env t))))
      all_task_types.

Definition with_id (i : string) (task : Task) : Task :=
  {| t_id := Some i; t_type := t_type task; t_priority := t_priority task;
     t_data := t_data task; t_status := t_status task;
     t_createdAt := t_createdAt task; t_maxRetries := t_maxRetries task |}.

(** The [jobOptions] that [addTask] builds from the queue configuration. *)
Definition jobOptions (env : Env) (task : Task) : JobOptions :=
  let queueConfig := config_queues env (t_type task) in
  {| jo_priority := t_priority task;
     jo_attempts := maxRetries queueConfig;
     jo_backoff := {| bo_type := backoffType queueConfig;
                      bo_delay := retryDelay queueConfig |};
     jo_removeOnComplete := removeOnComplete queueConfig;
     jo_removeOnFail := removeOnFail queueConfig |}.

(** [QueueManager.addTask]; [uuid] is what [uuidv4()] returns.  The
    [catch] of the source logs and rethrows. *)
Definition addTask (env : Env) (uuid : string) (task : Task) : M string :=
  let taskId := or_string (t_id task) uuid in
  let taskWithId := with_id taskId task in
  createTask taskWithId ;;
  (fun w =>
     match queues_get (t_type task) w with
     | None => not_found (t_type task) w
     | Some _ =>
         (queue_add (t_type task) taskWithId (jobOptions env task) ;;
          ret taskId) w
     end).

Definition count (js : list Job) : Z := Z.of_nat (List.length js).

(** [QueueManager.getQueueStats]. *)
Definition getQueueStats (t : TaskType) : M QueueStats := fun w =>
  match queues_get t w with
  | None => not_found t w
  | Some _ =>
      (let! lists :=
         both (read_queue t q_waiting)
        (both (read_queue t q_active)
        (both (read_queue t q_completed)
        (both (read_queue t q_failed)
              (read_queue t q_delayed)))) in
       let '(waiting', (active', (completed', (failed', delayed')))) := lists in
       ret {| qs_waiting := count waiting';
              qs_active := count active';
              qs_completed := count completed';
              qs_failed := count failed';
              qs_delayed := count delayed';
              qs_paused := 0 |}) w
  end.

Definition zero_stats : QueueStats :=
  {| qs_waiting := 0; qs_active := 0; qs_completed := 0;
     qs_failed := 0; qs_delayed := 0; qs_paused := 0 |}.

(** The body of the loop of [getAllQueueStats] over the given keys; the
    object it fills keeps the keys in the order they were set. *)
Fixpoint collect_stats (keys : list TaskType) : M (list (TaskType * QueueStats)) :=
  match keys with
  | [] => ret []
  | taskType :: rest =>
      let! s := try_catch (getQueueStats taskType) (fun _ => ret zero_stats) in
      let! more := collect_stats rest in
      ret ((taskType, s) :: more)
  end.

(** [QueueManager.getAllQueueStats]. *)
Definition getAllQueueStats : M (list (TaskType * QueueStats)) := fun w =>
  collect_stats (map fst (queues w)) w.

(** [QueueManager.pauseQueue] and [resumeQueue]. *)
Definition pauseQueue (t : TaskType) : M unit := fun w =>
  match queues_get t w with
  | None => not_found t w
  | Some _ => on_queue t (fun q => (tt, with_paused true q)) w
  end.

Definition resumeQueue (t : TaskType) : M unit := fun w =>
  match queues_get t w with
  | None => not_found t w
  | Some _ => on_queue t (fun q => (tt, with_paused false q)) w
  end.

(* ===================================================================== *)
(** ** queue: TaskProcessor *)
(* ===================================================================== *)

(** What the [Math.random()] calls of one attempt come to: the delays the
    handler sleeps, whether the failure draw falls under the handler's
    threshold, and the integers [Math.floor(Math.random() * n)] in the
    order they are drawn. *)
Record Chance := {
  delays : list Z;
  fails : bool;
  draws : list Z
}.

Definition delay (k : nat) (c : Chance) : Z := nth k (delays c) 0.
Definition draw (k : nat) (c : Chance) : Z := nth k (draws c) 0.

Definition show (z : Z) : string := NilZero.string_of_int (Z.to_int z).

(** [x.name]: reading a property of [undefined] or [null] throws. *)
Definition prop (name : string) (x : option Json) : M (option Json) :=
  match x with
  | None | Some JNull =>
      throw ("Cannot read properties of undefined (reading '" ++ name ++ "')")
  | Some j => ret (field name j)
  end.

(** [x.length], for arrays, strings and objects with a numeric [length]. *)
Definition length_of (x : option Json) : M (option Z) :=
  match x with
  | None | Some JNull =>
      throw "Cannot read properties of undefined (reading 'length')"
  | Some (JArr items) => ret (Some (Z.of_nat (List.length items)))
  | Some (JStr s) => ret (Some (Z.of_nat (String.length s)))
  | Some (JObj fs) =>
      ret (match field "length" (JObj fs) with
           | Some (JNum n) => Some n
           | _ => None
           end)
  | Some _ => ret None
  end.

(** The string a template literal makes of a value. *)
Fixpoint js_string (j : Json) : string :=
  match j with
  | JNull => "null"
  | JBool true => "true"
  | JBool false => "false"
  | JNum n => show n
  | JStr s => s
  | JArr items =>
      String.concat ","
        (map (fun x => match x with JNull => "" | _ => js_string x end) items)
  | JObj _ => "[object Object]"
  end.

Definition interpolate (x : option Json) : string :=
  match x with Some j => js_string j | None => "undefined" end.

(** An object literal as it is stored: properties whose value is
    [undefined] are not serialised. *)
Definition object (props : list (string * option Json)) : Json :=
  JObj (flat_map (fun kv => match snd kv with
                            | Some v => [(fst kv, v)]
                            | None => []
                            end) props).

Definition number (n : option Z) : option Json :=
  match n with Some k => Some (JNum k) | None => None end.

(** [task.id!]: the payload of a queued job carries the id [addTask] gave. *)
Definition task_id (task : Task) : string := or_else (t_id task) "".

Definition payload (job : Job) : option Json := Some (t_data (job_data job)).

Fixpoint for_each {A} (xs : list A) (f : A -> M unit) : M unit :=
  match xs with
  | [] => ret tt
  | x :: rest => f x ;; for_each rest f
  end.

(** The indices [0 .. n-1] of a counting loop. *)
Definition upto (n : Z) : list nat := seq 0 (Z.to_nat n).

(** [Math.round(((i + 1) / total) * 100)], each operation rounded to the
    nearest double. *)
Definition percent (i : nat) (total : Z) : Z :=
  math_round
    (to_double (to_double (inject_Z (Z.of_nat i + 1) / inject_Z total) * 100)).

Definition progress_patch (p : Z) : TaskPatch :=
  {| p_startedAt := None; p_completedAt := None; p_failedAt := None;
     p_attempts := None; p_progress := Some p; p_result := None;
     p_error := None |}.

Definition maybe_fail (c : Chance) (message : string) : M unit :=
  if fails c then throw message else ret tt.

Definition simulateEmailSending (c : Chance) : M unit :=
  sleep (delay 0 c) ;;
  maybe_fail c "SMTP server temporarily unavailable".

Definition simulateImageProcessing (job : Job) (c : Chance) : M unit :=
  let! operations := prop "operations" (payload job) in
  let! totalOperations := length_of operations in
  let total := or_else totalOperations 0 in
  for_each (upto total) (fun i =>
    updateTaskStatus (task_id (job_data job)) active
      (progress_patch (percent i total)) ;;
    sleep (delay i c)) ;;
  maybe_fail c "Image format not supported".

Definition simulateFileProcessing (c : Chance) : M unit :=
  sleep (delay 0 c) ;;
  maybe_fail c "File parsing error: Invalid format".

Definition simulateDataExport (job : Job) (c : Chance) : M unit :=
  let steps := 5 in
  for_each (upto steps) (fun i =>
    updateTaskStatus (task_id (job_data job)) active
      (progress_patch (percent i steps)) ;;
    sleep (delay i c)) ;;
  maybe_fail c "Database query timeout".

Definition simulateApiCall (job : Job) (c : Chance) : M unit :=
  sleep (delay 0 c) ;;
  if fails c then
    let! endpoint := prop "endpoint" (payload job) in
    throw ("API call failed: " ++ interpolate endpoint ++ " returned 500")
  else ret tt.

Definition simulateCleanupTask (c : Chance) : M unit :=
  sleep (delay 0 c) ;;
  maybe_fail c "Cleanup task failed: Permission denied".

(** The part the six processors share: the [try] block around the work of
    the handler, which yields the [data] of the result, and the [catch]
    block.  [startTime] is read before the [try]. *)
Definition attempt (job : Job) (work : M Json) : M TaskResult :=
  let taskId := task_id (job_data job) in
  let! startTime := now in
  try_catch
    (let! started := now in
     updateTaskStatus taskId active
       {| p_startedAt := Some started; p_completedAt := None;
          p_failedAt := None; p_attempts := Some (attemptsMade job + 1);
          p_progress := None; p_result := None; p_error := None |} ;;
     let! resultData := work in
     let! finished := now in
     let result :=
       {| r_taskId := taskId; r_success := true; r_data := Some resultData;
          r_error := None; r_duration := finished - startTime;
          r_attempts := attemptsMade job + 1 |} in
     updateTaskStatus taskId completed
       {| p_startedAt := None; p_completedAt := Some finished;
          p_failedAt := None; p_attempts := None; p_progress := None;
          p_result := Some resultData; p_error := None |} ;;
     saveTaskResult result ;;
     ret result)
    (fun message =>
     let! failedNow := now in
     let errorResult :=
       {| r_taskId := taskId; r_success := false; r_data := None;
          r_error := Some message; r_duration := failedNow - startTime;
          r_attempts := attemptsMade job + 1 |} in
     updateTaskStatus taskId failed
       {| p_startedAt := None; p_completedAt := None;
          p_failedAt := Some failedNow; p_attempts := None;
          p_progress := None; p_result := None; p_error := Some message |} ;;
     saveTaskResult errorResult ;;
     throw message).

Definition processEmailNotification (job : Job) (c : Chance) : M TaskResult :=
  let data := payload job in
  attempt job
    (prop "to" data ;; prop "subject" data ;;
     simulateEmailSending c ;;
     let! to := prop "to" data in
     let! emailsSent := length_of to in
     let! t := now in
     let! template := prop "template" data in
     ret (object [("emailsSent", number emailsSent);
                  ("messageId", Some (JStr ("msg_" ++ show t)));
                  ("template", template)])).

Definition processImageProcessing (job : Job) (c : Chance) : M TaskResult :=
  let data := payload job in
  attempt job
    (prop "imagePath" data ;;
     (let! logged := prop "operations" data in length_of logged) ;;
     simulateImageProcessing job c ;;
     let! originalPath := prop "imagePath" data in
     let! outputPath := prop "outputPath" data in
     let! operations := prop "operations" data in
     let! operationsApplied := length_of operations in
     ret (object [("originalPath", originalPath);
                  ("outputPath", outputPath);
                  ("operationsApplied", number operationsApplied);
                  ("fileSize", Some (JNum (draw 0 c + 100000)))])).

Definition processFileProcessing (job : Job) (c : Chance) : M TaskResult :=
  let data := payload job in
  attempt job
    (prop "filePath" data ;; prop "operation" data ;;
     simulateFileProcessing c ;;
     let! filePath := prop "filePath" data in
     let! operation := prop "operation" data in
     let! params := prop "params" data in
     let! format := prop "format" params in
     ret (object [("filePath", filePath);
                  ("operation", operation);
                  ("recordsProcessed", Some (JNum (draw 0 c + 100)));
                  ("outputFormat",
                   Some (match format with
                         | Some f => if truthy f then f else JStr "processed"
                         | None => JStr "processed"
                         end))])).

Definition processDataExport (job : Job) (c : Chance) : M TaskResult :=
  let data := payload job in
  attempt job
    (prop "format" data ;; prop "destination" data ;;
     simulateDataExport job c ;;
     let! format := prop "format" data in
     let! destination := prop "destination" data in
     ret (object [("format", format);
                  ("destination", destination);
                  ("recordsExported", Some (JNum (draw 0 c + 1000)));
                  ("fileSize", Some (JNum (draw 1 c + 500000)))])).

Definition processApiIntegration (job : Job) (c : Chance) : M TaskResult :=
  let data := payload job in
  attempt job
    (prop "endpoint" data ;; prop "method" data ;;
     simulateApiCall job c ;;
     let! endpoint := prop "endpoint" data in
     let! method := prop "method" data in
     ret (object [("endpoint", endpoint);
                  ("method", method);
                  ("statusCode", Some (JNum 200));
                  ("responseTime", Some (JNum (draw 0 c + 100)))])).

Definition processCleanupTasks (job : Job) (c : Chance) : M TaskResult :=
  let data := payload job in
  attempt job
    (prop "type" data ;; prop "params" data ;;
     simulateCleanupTask c ;;
     let! cleanupType := prop "type" data in
     ret (object [("cleanupType", cleanupType);
                  ("itemsRemoved", Some (JNum (draw 0 c + 10)));
                  ("spaceFreed", Some (JNum (draw 1 c + 50000)))])).

(* ===================================================================== *)
(** ** services: Worker *)
(* ===================================================================== *)

(** The callback [setupQueueProcessors] registers for the queue of
    [taskType]; its own [catch] logs and rethrows. *)
Definition process (taskType : TaskType) (job : Job) (c : Chance) : M TaskResult :=
  match taskType with
  | email_notification => processEmailNotification job c
  | image_processing => processImageProcessing job c
  | file_processing => processFileProcessing job c
  | data_export => processDataExport job c
  | api_integration => processApiIntegration job c
  | cleanup_tasks => processCleanupTasks job c
  end.

(* ===================================================================== *)
(** ** services: Monitor, and api: routes *)
(* ===================================================================== *)

(** A JavaScript number that came out of a division: a finite value, one
    of the infinities, or NaN. *)
Inductive Number :=
| Finite (q : Q)
| Infinity
| NegInfinity
| NaN.

Definition isFinite (x : Number) : bool :=
  match x with Finite _ => true | _ => false end.

(** [a / b] on finite operands: the quotient rounded to the nearest
    double, an infinity or NaN when [b] is 0. *)
Definition divide (a b : Q) : Number :=
  if Qeq_bool b 0 then
    if Qeq_bool a 0 then NaN
    else if Qle_bool 0 a then Infinity else NegInfinity
  else Finite (to_double (a / b)).

(** [uptime / 3600]. *)
Definition uptime_in_hours (uptime : Q) : Q := to_double (uptime / 3600).

(** [throughput] of [Monitor.collectAndDisplayMetrics]; [uptime] is
    [process.uptime()], in seconds. *)
Definition monitor_throughput (dbMetrics : Metrics) (uptime : Q) : Number :=
  if negb (Qle_bool uptime 0)
  then divide (inject_Z (completedTasks dbMetrics)) (uptime_in_hours uptime)
  else Finite 0.

(** [throughput] of the [GET /stats/system] handler. *)
Definition system_throughput (dbMetrics : Metrics) (uptime : Q) : Number :=
  divide (inject_Z (completedTasks dbMetrics)) (uptime_in_hours uptime).

Record SystemMetrics := {
  dbMetrics : Metrics;
  uptime : Q;
  throughput : Number;
  queueStats : list (TaskType * QueueStats)
}.

Inductive Body :=
| ErrorBody (error : string)
| CreatedBody (taskId : string) (message : string)
| QueueStatsBody (stats : list (TaskType * QueueStats))
| SystemBody (metrics : SystemMetrics).

Record Response := {
  res_status : Z;
  res_body : Body
}.

Definition respond (code : Z) (b : Body) : Response :=
  {| res_status := code; res_body := b |}.

Definition internal_error : Response :=
  respond 500 (ErrorBody "Internal server error").

(** A route handler: whatever its [try] block throws becomes the 500
    response of its [catch]. *)
Definition handler (c : M Response) (w : World) : Response * World :=
  match c w with
  | (Ok r, w') => (r, w')
  | (Throw _, w') => (internal_error, w')
  end.

(** The body of [POST /tasks], for the bodies whose [type], when present,
    is a string and whose [priority], when present, is an integer.  A body
    that carries another JSON value there (a priority that is a string, a
    fraction or [null]) is outside the type. *)
Record TaskRequest := {
  b_type : option string;
  b_priority : option Z;
  b_data : option Json
}.

(** [router.post('/tasks', ...)]; [uuid] is what [uuidv4()] returns. *)
Definition post_tasks (env : Env) (uuid : string) (body : TaskRequest)
  : World -> Response * World :=
  handler
    (let priority := or_else (b_priority body) 5 in
     match b_type body, b_data body with
     | Some type, Some data =>
         if String.eqb type "" || negb (truthy data) then
           ret (respond 400 (ErrorBody "Missing required fields: type and data"))
         else
           match parse_type type with
           | None => ret (respond 400 (ErrorBody "Invalid task type"))
           | Some taskType =>
               if Z.ltb priority 1 || Z.ltb 10 priority then
                 ret (respond 400 (ErrorBody "Priority must be between 1 and 10"))
               else
                 let! createdAt := now in
                 let task :=
                   {| t_id := Some uuid; t_type := taskType;
                      t_priority := priority; t_data := data;
                      t_status := Some waiting; t_createdAt := Some createdAt;
                      t_maxRetries := None |} in
                 let! taskId := addTask env uuid task in
                 ret (respond 201 (CreatedBody taskId "Task created successfully"))
           end
     | _, _ =>
         ret (respond 400 (ErrorBody "Missing required fields: type and data"))
     end).

(** [router.get('/stats/queues', ...)]. *)
Definition get_stats_queues : World -> Response * World :=
  handler
    (let! queueStats := getAllQueueStats in
     ret (respond 200 (QueueStatsBody queueStats))).

(** [router.get('/stats/system', ...)], without the memory and CPU
    readings of the process. *)
Definition get_stats_system (uptime : Q) : World -> Response * World :=
  handler
    (let! both_results := both getMetrics getAllQueueStats in
     let '(dbMetrics, queueStats) := both_results in
     ret (respond 200
            (SystemBody
               {| dbMetrics := dbMetrics;
                  uptime := uptime;
                  throughput := system_throughput dbMetrics uptime;
                  queueStats := queueStats |}))).

(** [Monitor.collectAndDisplayMetrics], up to the display. *)
Definition collectMetrics (uptime : Q) : M SystemMetrics :=
  let! both_results := both getMetrics getAllQueueStats in
  let '(dbMetrics, queueStats) := both_results in
  ret {| dbMetrics := dbMetrics;
         uptime := uptime;
         throughput := monitor_throughput dbMetrics uptime;
         queueStats := queueStats |}.

(* ===================================================================== *)
(** ** Reference formulas of the specification *)
(* ===================================================================== *)

(** The figures of the metrics snapshot as the specification words them,
    to be compared with what [getMetrics] computes: counts per status, the
    mean processing time of the completed jobs and the success
    percentage. *)
Definition count_status (s : TaskStatus) (rows : list TaskRow) : Z :=
  Z.of_nat (List.length (filter (fun r => TaskStatus_eqb (status r) s) rows)).






(** The retry delay as the specification words it, to be compared with
    the options [addTask] builds: the base delay, or the base delay doubled
    per attempt already made, under a ceiling of 10 minutes by default. *)
Definition default_ceiling : Z := 600000.

Definition described_delay (ceiling : Z) (b : BackoffType)
    (retry_delay_ms attempts_so_far : Z) : Z :=
  Z.min ceiling
    (match b with
     | fixed => retry_delay_ms
     | exponential => retry_delay_ms * 2 ^ (attempts_so_far - 1)
     end).

(* ===================================================================== *)
(** ** Observations and sample worlds *)
(* ===================================================================== *)

(** The entry [getAllQueueStats] records for a queue. *)
Definition stats_entry (w : World) (t : TaskType) : QueueStats :=
  match fst (getQueueStats t w) with
  | Ok s => s
  | Throw _ => zero_stats
  end.

(** A system that has just started with the default configuration over an
    empty database and an empty broker: empty tables, six empty queues,
    every call going through. *)
Definition fresh_world : World :=
  {| tasks := []; task_results := []; faults := [];
     queues := initializeQueues empty_broker default_env; clock := 0 |}.

(** The job [addTask] hands to the broker. *)
Definition queued_job (env : Env) (i : string) (task : Task) : Job :=
  {| job_data := with_id i task; job_opts := jobOptions env task;
     attemptsMade := 0 |}.

(** The default environment with [FILE_RETRY_DELAY=900000]: the queue of
    the file jobs, whose backoff is fixed, retries after 15 minutes, and a
    job has 3 attempts. *)
Definition slow_file_env : Env := fun t =>
  match t with
  | file_processing =>
      {| env_concurrency := 3; env_max_retries := 3; env_retry_delay := 900000 |}
  | _ => default_env t
  end.

Definition sample_file : Task :=
  {| t_id := Some "f-1"; t_type := file_processing; t_priority := 2;
     t_data := JObj [("filePath", JStr "/data/in.csv");
                     ("operation", JStr "parse"); ("params", JObj [])];
     t_status := Some waiting; t_createdAt := Some 0; t_maxRetries := None |}.

(** The option [attempts], as Bull documents it: a job whose attempt has
    failed is tried again while the attempts made, the failed one
    included, are fewer than [attempts]. *)
Definition retried_after_failure (job : Job) : bool :=
  Z.ltb (attemptsMade job + 1) (jo_attempts (job_opts job)).

(** The option [backoff], as Bull documents it: under the [fixed] strategy
    a retry waits for the [delay] of the options.  What the [exponential]
    strategy makes of the [delay] is computed inside Bull and is left
    open. *)
Definition fixed_backoff_delay (opts : JobOptions) : option Z :=
  match bo_type (jo_backoff opts) with
  | fixed => Some (bo_delay (jo_backoff opts))
  | exponential => None
  end.

(** A [POST /tasks] body with both required fields. *)
Definition request (type : string) (data : Json) (priority : option Z) : TaskRequest :=
  {| b_type := Some type; b_priority := priority; b_data := Some data |}.

Definition priority_rejection : Response :=
  respond 400 (ErrorBody "Priority must be between 1 and 10").

Definition created (taskId : string) : Response :=
  respond 201 (CreatedBody taskId "Task created successfully").

(** The priorities of the jobs waiting in the queue of a type. *)
Definition waiting_priorities (t : TaskType) (w : World) : list Z :=
  match queues_get t w with
  | Some q => map (fun j => jo_priority (job_opts j)) (q_waiting q)
  | None => []
  end.

Definition sample_email_data : Json :=
  JObj [("to", JArr [JStr "a@b"]); ("subject", JStr "hello")].

(** A row with the given id, status and timestamps, other columns at
    their defaults. *)
Definition sample_row (i : string) (s : TaskStatus)
    (started done : option Z) : TaskRow :=
  {| id := i; type := email_notification; priority := 5;
     data := sample_email_data; status := s; created_at := 0;
     updated_at := 0; started_at := started; completed_at := done;
     failed_at := None; attempts := 1; max_retries := 3; progress := 0;
     result := None; error := None |}.

(** Two completed jobs that took 2 s and 4 s, one failed, one waiting; the
    broker holds nothing. *)
Definition sample_history : World :=
  {| tasks := [sample_row "a" completed (Some 1000) (Some 3000);
               sample_row "b" failed (Some 1000) None;
               sample_row "c" completed (Some 2000) (Some 6000);
               sample_row "d" waiting None None];
     task_results := []; faults := [];
     queues := initializeQueues empty_broker default_env; clock := 9000 |}.

(** The store answers, and the job's row is there with the given counts. *)
Definition keeps (i : string) (a m : Z) (w : World) : Prop :=
  faults w = []
  /\ exists r, lookup i w = Some r /\ attempts r = a /\ max_retries r = m.

(** A computation maintains a property of the world, however it ends. *)
Definition preserves {A} (P : World -> Prop) (c : M A) : Prop :=
  forall w, P w -> P (snd (c w)).

(** The patches and result records of the three writes of an attempt. *)
Definition active_patch (t : Z) (job : Job) : TaskPatch :=
  {| p_startedAt := Some t; p_completedAt := None; p_failedAt := None;
     p_attempts := Some (attemptsMade job + 1); p_progress := None;
     p_result := None; p_error := None |}.

Definition completed_patch (t : Z) (resultData : Json) : TaskPatch :=
  {| p_startedAt := None; p_completedAt := Some t; p_failedAt := None;
     p_attempts := None; p_progress := None; p_result := Some resultData;
     p_error := None |}.

Definition failed_patch (t : Z) (message : string) : TaskPatch :=
  {| p_startedAt := None; p_completedAt := None; p_failedAt := Some t;
     p_attempts := None; p_progress := None; p_result := None;
     p_error := Some message |}.

Definition failure_row (i : string) (message : string) (duration n t : Z)
  : ResultRow :=
  {| rr_task_id := i; rr_success := false; rr_data := None;
     rr_error := Some message; rr_duration := duration; rr_attempts := n;
     rr_created_at := t |}.

Definition success_row (i : string) (resultData : Json) (duration n t : Z)
  : ResultRow :=
  {| rr_task_id := i; rr_success := true;
     rr_data := if truthy resultData then Some resultData else None;
     rr_error := None; rr_duration := duration; rr_attempts := n;
     rr_created_at := t |}.

(** Whether the connection is due to reject the query that comes [k]
    queries after the next one. *)
Definition rejected (k : nat) (w : World) : bool := nth k (faults w) false.

(** The world once the next [n] queries have been sent, as far as the
    connection goes. *)
Definition consumed (n : nat) (w : World) : World :=
  set_faults (skipn n (faults w)) w.

(** What can be seen of a job in the store: its status, and the results
    table. *)
Definition seen (i : string) (w : World) : option TaskStatus * list ResultRow :=
  (option_map status (lookup i w), task_results w).

(** What the [catch] block of a processor leaves to be seen when it runs
    with the error [message], [k] queries after the world [w], on a row
    whose status is [before]: its first query is the update to [failed],
    its second the append of the failure row, and the second is sent only
    when the first went through. *)
Definition after_catch_block (i : string) (job : Job) (startTime : Z)
    (message : string) (k : nat) (before : option TaskStatus) (w : World)
  : option TaskStatus * list ResultRow :=
  if rejected k w then (before, task_results w)
  else
    (Some failed,
     if rejected (S k) w then task_results w
     else (task_results w
           ++ [failure_row i message (clock w - startTime)
                 (attemptsMade job + 1) (clock w)])%list).

(** The world once the attempt has been marked active. *)
Definition marked_active (i : string) (job : Job) (w : World) : World :=
  set_tasks (updated_rows i (clock w) active (active_patch (clock w) job) (tasks w)) w.

(** The job as the broker hands it over once [n] attempts have been made. *)
Definition after_attempts (n : Z) (j : Job) : Job :=
  {| job_data := job_data j; job_opts := job_opts j; attemptsMade := n |}.

(** Draws under which the handler fails after 700 ms. *)
Definition unlucky : Chance := {| delays := [700]; fails := true; draws := [] |}.

(** The world after the worker has run the first [n] attempts of a job,
    each under the draws [unlucky]. *)
Fixpoint unlucky_attempts (taskType : TaskType) (job : Job) (n : nat)
    (w : World) : World :=
  match n with
  | O => w
  | S k =>
      snd (process taskType (after_attempts (Z.of_nat k) job) unlucky
             (unlucky_attempts taskType job k w))
  end.

Definition sample_api_data : Json :=
  JObj [("endpoint", JStr "https://api.example.com/webhook"); ("method", JStr "POST")].

(** An API task as [POST /tasks] builds it: no [maxRetries] of its own. *)
Definition sample_api_task : Task :=
  {| t_id := Some "t-1"; t_type := api_integration; t_priority := 5;
     t_data := sample_api_data; t_status := Some waiting;
     t_createdAt := Some 0; t_maxRetries := None |}.

(** An e-mail task submitted with [maxRetries: 0]. *)
Definition sample_no_retry_task : Task :=
  {| t_id := Some "t-2"; t_type := email_notification; t_priority := 5;
     t_data := sample_email_data; t_status := Some waiting;
     t_createdAt := Some 0; t_maxRetries := Some 0 |}.

(** The work of the e-mail handler, as [processEmailNotification] runs it
    inside [attempt]. *)
Definition email_work (job : Job) (c : Chance) : M Json :=
  let data := payload job in
  prop "to" data ;; prop "subject" data ;;
  simulateEmailSending c ;;
  let! to := prop "to" data in
  let! emailsSent := length_of to in
  let! t := now in
  let! template := prop "template" data in
  ret (object [("emailsSent", number emailsSent);
               ("messageId", Some (JStr ("msg_" ++ show t)));
               ("template", template)]).

(** The e-mail job of [sample_no_retry_task], already stored, with the
    third query of the attempt due to be rejected. *)
Definition flaky_world : World :=
  set_faults [false; false; true]
    (snd (addTask default_env "u" sample_no_retry_task fresh_world)).

Definition with_online (b : bool) (q : Queue) : Queue :=
  {| q_name := q_name q; q_waiting := q_waiting q; q_active := q_active q;
     q_completed := q_completed q; q_failed := q_failed q;
     q_delayed := q_delayed q; q_paused := q_paused q; q_online := b |}.

(** The same world with the broker not answering for one queue. *)
Definition broker_down (t : TaskType) (w : World) : World :=
  match queues_get t w with
  | Some q => set_queues (queues_set t (with_online false q) (queues w)) w
  | None => w
  end.

(** Draws under which the handler succeeds after 700 ms. *)
Definition lucky : Chance := {| delays := [700]; fails := false; draws := [42] |}.

(* ===================================================================== *)
(** ** Further observations *)
(* ===================================================================== *)

(** The API task of the samples with priority 11. *)
Definition sample_bad_priority : Task :=
  {| t_id := Some "t-9"; t_type := api_integration; t_priority := 11;
     t_data := sample_api_data; t_status := Some waiting;
     t_createdAt := Some 0; t_maxRetries := None |}.

(** The checks of [POST /tasks] on the body, in one test. *)
Definition passes_validation (body : TaskRequest) : bool :=
  match b_type body, b_data body with
  | Some type, Some data =>
      negb (String.eqb type "") && truthy data
      && match parse_type type with Some _ => true | None => false end
      && between 1 10 (or_else (b_priority body) 5)
  | _, _ => false
  end.

(** The columns of a task row that no UPDATE of the code writes. *)
Definition identity_columns (r : TaskRow)
  : string * TaskType * Z * Json * Z * Z :=
  (id r, type r, priority r, data r, created_at r, max_retries r).

(** The row [saveTaskResult] inserts for a result at time [t]. *)
Definition result_row (res : TaskResult) (t : Z) : ResultRow :=
  {| rr_task_id := r_taskId res;
     rr_success := r_success res;
     rr_data :=
       match r_data res with
       | Some j => if truthy j then Some j else None
       | None => None
       end;
     rr_error := r_error res;
     rr_duration := r_duration res;
     rr_attempts := r_attempts res;
     rr_created_at := t |}.

(** No two rows of the table share an id. *)
Definition unique_ids (w : World) : Prop := NoDup (map id (tasks w)).

(** Whether one of the next [n] calls on the pool is due to be rejected. *)
Definition rejects_within (n : nat) (w : World) : bool :=
  existsb (fun b : bool => b) (firstn n (faults w)).

(* ===================================================================== *)
(** ** database: the per-status statistics *)
(* ===================================================================== *)

(** [Record<TaskStatus, number>]. *)
Record StatusCounts := {
  n_waiting : Z;
  n_active : Z;
  n_completed : Z;
  n_failed : Z;
  n_delayed : Z;
  n_paused : Z
}.

Definition all_statuses : list TaskStatus :=
  [waiting; active; completed; failed; delayed; paused].

(** [SELECT status, COUNT( * ) as count FROM tasks GROUP BY status]: one
    row for each status that occurs in the table, with its count. *)
Definition group_by_status (rows : list TaskRow) : list (TaskStatus * Z) :=
  flat_map
    (fun s =>
       let n := count_where (fun r => TaskStatus_eqb (status r) s) rows in
       if Z.eqb n 0 then [] else [(s, n)])
    all_statuses.

(** [stats[s] = n]. *)
Definition set_count (stats : StatusCounts) (s : TaskStatus) (n : Z) : StatusCounts :=
  match s with
  | waiting =>
      {| n_waiting := n; n_active := n_active stats;
         n_completed := n_completed stats; n_failed := n_failed stats;
         n_delayed := n_delayed stats; n_paused := n_paused stats |}
  | active =>
      {| n_waiting := n_waiting stats; n_active := n;
         n_completed := n_completed stats; n_failed := n_failed stats;
         n_delayed := n_delayed stats; n_paused := n_paused stats |}
  | completed =>
      {| n_waiting := n_waiting stats; n_active := n_active stats;
         n_completed := n; n_failed := n_failed stats;
         n_delayed := n_delayed stats; n_paused := n_paused stats |}
  | failed =>
      {| n_waiting := n_waiting stats; n_active := n_active stats;
         n_completed := n_completed stats; n_failed := n;
         n_delayed := n_delayed stats; n_paused := n_paused stats |}
  | delayed =>
      {| n_waiting := n_waiting stats; n_active := n_active stats;
         n_completed := n_completed stats; n_failed := n_failed stats;
         n_delayed := n; n_paused := n_paused stats |}
  | paused =>
      {| n_waiting := n_waiting stats; n_active := n_active stats;
         n_completed := n_completed stats; n_failed := n_failed stats;
         n_delayed := n_delayed stats; n_paused := n |}
  end.

Definition no_counts : StatusCounts :=
  {| n_waiting := 0; n_active := 0; n_completed := 0; n_failed := 0;
     n_delayed := 0; n_paused := 0 |}.

(** [TaskModel.getTaskStats]: the record starts at zero and takes the
    count of every row the query returns. *)
Definition getTaskStats : M StatusCounts :=
  let! rows := select group_by_status in
  ret (fold_left (fun stats row => set_count stats (fst row) (snd row))
         rows no_counts).

(* ===================================================================== *)
(** ** queue and api: retrying failed jobs, pausing and resuming *)
(* ===================================================================== *)

(** Two jobs are the same job when they carry the same task: [createTask]
    keeps task ids apart and [addTask] queues one job per stored task. *)
Definition same_job (a b : Job) : bool :=
  String.eqb (task_id (job_data a)) (task_id (job_data b)).

Fixpoint remove_job (j : Job) (js : list Job) : list Job :=
  match js with
  | [] => []
  | x :: rest => if same_job x j then rest else x :: remove_job j rest
  end.

Definition retried (j : Job) (q : Queue) : Queue :=
  {| q_name := q_name q; q_waiting := q_waiting q ++ [j];
     q_active := q_active q; q_completed := q_completed q;
     q_failed := remove_job j (q_failed q); q_delayed := q_delayed q;
     q_paused := q_paused q; q_online := q_online q |}.

(** [job.retry()] on a job of the queue of type [t]: a job that is among
    the failed ones goes back to the waiting ones; the call is rejected
    for a job that has not failed, and while the broker does not answer. *)
Definition retry_job (t : TaskType) (j : Job) : M unit := fun w =>
  match queues_get t w with
  | None => not_found t w
  | Some q =>
      if q_online q then
        if existsb (same_job j) (q_failed q)
        then (Ok tt, set_queues (queues_set t (retried j q) (queues w)) w)
        else (Throw "Couldn't retry job: The job has not failed", w)
      else (Throw "Connection is closed.", w)
  end.

(** The loop [for (const job of failedJobs) { await job.retry();
    retriedCount++ }] inside the [try] of [retryFailedJobs]: the counter
    lives outside the [try], so what was counted before a rejection stays
    counted; the [catch] logs. *)
Fixpoint retry_jobs (t : TaskType) (failedJobs : list Job) (retriedCount : Z)
    (w : World) : Z * World :=
  match failedJobs with
  | [] => (retriedCount, w)
  | job :: rest =>
      match retry_job t job w with
      | (Ok _, w') => retry_jobs t rest (retriedCount + 1) w'
      | (Throw _, w') => (retriedCount, w')
      end
  end.

(** One round of the loop over [queuesToProcess]. *)
Definition retry_queue (queueType : TaskType) (retriedCount : Z) (w : World)
  : Z * World :=
  match queues_get queueType w with
  | None => (retriedCount, w)
  | Some _ =>
      match read_queue queueType q_failed w with
      | (Ok failedJobs, w') => retry_jobs queueType failedJobs retriedCount w'
      | (Throw _, w') => (retriedCount, w')
      end
  end.

Fixpoint retry_queues (queuesToProcess : list TaskType) (retriedCount : Z)
    (w : World) : Z * World :=
  match queuesToProcess with
  | [] => (retriedCount, w)
  | queueType :: rest =>
      let '(n, w') := retry_queue queueType retriedCount w in
      retry_queues rest n w'
  end.

(** [QueueManager.retryFailedJobs]. *)
Definition retryFailedJobs (taskType : option TaskType) : M Z := fun w =>
  let queuesToProcess :=
    match taskType with
    | Some t => [t]
    | None => map fst (queues w)
    end in
  let '(retriedCount, w') := retry_queues queuesToProcess 0 w in
  (Ok retriedCount, w').

(** The bodies of the answers of the admin routes. *)
Inductive AdminBody :=
| AdminError (error : string)
| AdminMessage (message : string)
| AdminRetried (message : string) (retriedCount : Z).

Record AdminResponse := {
  ar_status : Z;
  ar_body : AdminBody
}.

Definition admin_handler (c : M AdminResponse) (w : World)
  : AdminResponse * World :=
  match c w with
  | (Ok r, w') => (r, w')
  | (Throw _, w') =>
      ({| ar_status := 500; ar_body := AdminError "Internal server error" |}, w')
  end.

Definition invalid_type : AdminResponse :=
  {| ar_status := 400; ar_body := AdminError "Invalid task type" |}.

Definition admin_ok (b : AdminBody) : AdminResponse :=
  {| ar_status := 200; ar_body := b |}.

(** [router.post('/admin/queues/:taskType/pause', ...)]. *)
Definition post_pause (taskType : string) : World -> AdminResponse * World :=
  admin_handler
    (match parse_type taskType with
     | None => ret invalid_type
     | Some t =>
         pauseQueue t ;;
         ret (admin_ok (AdminMessage ("Queue " ++ taskType ++ " paused successfully")))
     end).

(** [router.post('/admin/queues/:taskType/resume', ...)]. *)
Definition post_resume (taskType : string) : World -> AdminResponse * World :=
  admin_handler
    (match parse_type taskType with
     | None => ret invalid_type
     | Some t =>
         resumeQueue t ;;
         ret (admin_ok (AdminMessage ("Queue " ++ taskType ++ " resumed successfully")))
     end).

(** [router.post('/admin/retry-failed', ...)]; the body may name a task
    type, and an empty name counts as none. *)
Definition post_retry_failed (taskType : option string)
  : World -> AdminResponse * World :=
  admin_handler
    (let named :=
       match taskType with
       | Some s => if String.eqb s "" then None else Some s
       | None => None
       end in
     match named with
     | Some s =>
         match parse_type s with
         | None => ret invalid_type
         | Some t =>
             let! retriedCount := retryFailedJobs (Some t) in
             ret (admin_ok
                    (AdminRetried
                       (show retriedCount ++ " failed jobs retried successfully")
                       retriedCount))
         end
     | None =>
         let! retriedCount := retryFailedJobs None in
         ret (admin_ok
                (AdminRetried
                   (show retriedCount ++ " failed jobs retried successfully")
                   retriedCount))
     end).

(** A queue once all its failed jobs have been retried. *)
Definition drained (q : Queue) : Queue :=
  {| q_name := q_name q; q_waiting := q_waiting q ++ q_failed q;
     q_active := q_active q; q_completed := q_completed q;
     q_failed := []; q_delayed := q_delayed q;
     q_paused := q_paused q; q_online := q_online q |}.

(** The failed jobs [retryFailedJobs] can reach in the queue of a type:
    none when the queue is missing or the broker does not answer. *)
Definition retryable (t : TaskType) (w : World) : list Job :=
  match queues_get t w with
  | Some q => if q_online q then q_failed q else []
  | None => []
  end.

(** The world after the failed jobs of one queue have been retried. *)
Definition drain (t : TaskType) (w : World) : World :=
  match queues_get t w with
  | Some q =>
      if q_online q then set_queues (queues_set t (drained q) (queues w)) w
      else w
  | None => w
  end.

Definition sum_Z (xs : list Z) : Z := fold_right Z.add 0 xs.

(** A failed job for the samples, carrying the task with the given id. *)
Definition failed_job (i : string) : Job :=
  after_attempts 5
    (queued_job default_env i
       {| t_id := Some i; t_type := api_integration; t_priority := 5;
          t_data := sample_api_data; t_status := Some waiting;
          t_createdAt := Some 0; t_maxRetries := None |}).

(** A started system whose API queue holds two failed jobs and one
    waiting job. *)
Definition sample_failures : World :=
  set_queues
    (queues_set api_integration
       {| q_name := "api_integration";
          q_waiting := [queued_job default_env "t-1" sample_api_task];
          q_active := []; q_completed := [];
          q_failed := [failed_job "f-1"; failed_job "f-2"];
          q_delayed := []; q_paused := false; q_online := true |}
       (initializeQueues empty_broker default_env))
    fresh_world.

Definition drain_all (ts : list TaskType) (w : World) : World :=
  fold_left (fun w' t => drain t w') ts w.

(** The task types that have a queue, in the order of the map. *)
Definition queue_types (w : World) : list TaskType := map fst (queues w).

(** A world as [new QueueManager()] finds the queues under [env], over a
    broker that holds [broker]. *)
Definition started (broker : Broker) (env : Env) (w : World) : World :=
  set_queues (initializeQueues broker env) w.

(* ===================================================================== *)
(** ** services: the health report of the monitor *)
(* ===================================================================== *)

Inductive Severity := healthy | warning | critical.

(** [interface SystemMetrics] as the monitor fills it; the six figures of
    the database are kept together. *)
Record MemoryUsage := {
  mu_used : Z;
  mu_total : Z;
  mu_percentage : Z
}.

Record MonitorMetrics := {
  mm_database : Metrics;
  mm_throughput : Number;
  mm_uptime : Q;
  mm_memoryUsage : MemoryUsage;
  mm_cpuUsage : Z
}.

Record HealthStatus := {
  overall : Severity;
  issues : list string
}.

Definition Qlt_bool (a b : Q) : bool := negb (Qle_bool b a).

(** [x.toFixed(1)] for a double [x] below 10^21, given by its exact value:
    the sign, then the nearest tenth of the absolute value, halves rounded
    up.  The digits are those of the value of the double itself, so [x] is
    to be a value that [to_double] returns. *)
Definition toFixed1 (x : Q) : string :=
  let tenths := Qfloor (Qabs x * 10 + (1 # 2)) in
  (if Qlt_bool x 0 then "-" else "")
  ++ show (tenths / 10) ++ "." ++ show (tenths mod 10).

(** [issues.push(issue); severity = 'critical']. *)
Definition critical_issue (issue : string) (h : HealthStatus) : HealthStatus :=
  {| overall := critical; issues := issues h ++ [issue] |}.

(** [issues.push(issue); if (severity === 'healthy') severity = 'warning']. *)
Definition warning_issue (issue : string) (h : HealthStatus) : HealthStatus :=
  {| overall := match overall h with healthy => warning | s => s end;
     issues := issues h ++ [issue] |}.

(** [Object.values(queueStats).reduce((sum, stats) => sum + f(stats), 0)]. *)
Definition total_of (f : QueueStats -> Z) (queueStats : list (TaskType * QueueStats)) : Z :=
  fold_left (fun sum kv => sum + f (snd kv)) queueStats 0.

(** [Monitor.calculateHealthStatus]. *)
Definition calculateHealthStatus (metrics : MonitorMetrics)
    (queueStats : list (TaskType * QueueStats)) : HealthStatus :=
  let memory := mu_percentage (mm_memoryUsage metrics) in
  let rate := successRate (mm_database metrics) in
  let h0 := {| overall := healthy; issues := [] |} in
  let h1 :=
    if Z.ltb 90 memory then critical_issue "High memory usage (>90%)" h0
    else if Z.ltb 80 memory then warning_issue "Elevated memory usage (>80%)" h0
    else h0 in
  let h2 :=
    if Qlt_bool rate 90
    then critical_issue ("Low success rate (" ++ toFixed1 rate ++ "%)") h1
    else if Qlt_bool rate 95
    then warning_issue ("Moderate success rate (" ++ toFixed1 rate ++ "%)") h1
    else h1 in
  let totalFailed := total_of qs_failed queueStats in
  let h3 :=
    if Z.ltb 100 totalFailed
    then critical_issue ("High number of failed jobs (" ++ show totalFailed ++ ")") h2
    else if Z.ltb 50 totalFailed
    then warning_issue ("Moderate number of failed jobs (" ++ show totalFailed ++ ")") h2
    else h2 in
  let totalWaiting := total_of qs_waiting queueStats in
  if Z.ltb 1000 totalWaiting
  then warning_issue ("High queue backlog (" ++ show totalWaiting ++ " waiting)") h3
  else h3.

(** [Math.trunc] on a rational, and the remainder [x % m] of JavaScript,
    which takes the sign of [x]. *)
Definition Qtrunc (x : Q) : Z :=
  if Qlt_bool x 0 then Qceiling x else Qfloor x.

Definition js_rem (x m : Q) : Q :=
  (x - m * inject_Z (Qtrunc (x / m)))%Q.

(** The four figures of [Monitor.formatUptime]. *)
Definition uptime_days (seconds : Q) : Z := Qfloor (seconds / 86400).
Definition uptime_hours (seconds : Q) : Z := Qfloor (js_rem seconds 86400 / 3600).
Definition uptime_minutes (seconds : Q) : Z := Qfloor (js_rem seconds 3600 / 60).
Definition uptime_secs (seconds : Q) : Z := Qfloor (js_rem seconds 60).

(** [Monitor.formatUptime]. *)
Definition formatUptime (seconds : Q) : string :=
  let days := uptime_days seconds in
  let hours := uptime_hours seconds in
  let minutes := uptime_minutes seconds in
  let secs := uptime_secs seconds in
  if Z.ltb 0 days then
    show days ++ "d " ++ show hours ++ "h " ++ show minutes ++ "m"
  else if Z.ltb 0 hours then
    show hours ++ "h " ++ show minutes ++ "m " ++ show secs ++ "s"
  else if Z.ltb 0 minutes then
    show minutes ++ "m " ++ show secs ++ "s"
  else
    show secs ++ "s".

(** The store answers, and the job's row is there with this progress. *)
Definition shows_progress (i : string) (p : Z) (w : World) : Prop :=
  faults w = [] /\ exists r, lookup i w = Some r /\ progress r = p.

(** A data export as the samples of the API have it. *)
Definition sample_export_task : Task :=
  {| t_id := Some "e-1"; t_type := data_export; t_priority := 3;
     t_data := JObj [("query", JStr "SELECT 1"); ("format", JStr "csv");
                     ("destination", JStr "/exports/recent-users.csv")];
     t_status := Some waiting; t_createdAt := Some 0; t_maxRetries := None |}.

(** The metrics [displayMetrics] receives: those collected, with the
    memory and CPU readings of the process. *)
Definition monitor_metrics (m : SystemMetrics) (memory : MemoryUsage) (cpu : Z)
  : MonitorMetrics :=
  {| mm_database := dbMetrics m;
     mm_throughput := throughput m;
     mm_uptime := uptime m;
     mm_memoryUsage := memory;
     mm_cpuUsage := cpu |}.

(** The health status [collectAndDisplayMetrics] has [displayMetrics]
    show: [calculateHealthStatus] on the metrics just collected. *)
Definition monitor_health (uptime : Q) (memory : MemoryUsage) (cpu : Z)
  : M HealthStatus :=
  let! m := collectMetrics uptime in
  ret (calculateHealthStatus (monitor_metrics m memory cpu) (queueStats m)).

(* ===================================================================== *)
(** ** Rounding: doubles and numerics *)
(* ===================================================================== *)

Lemma two_pos : (0 < 2)%Q. Proof. reflexivity. Qed.
Lemma two_nz : ~ (2 == 0)%Q. Proof. discriminate. Qed.
Lemma one_lt_two : (1 < 2)%Q. Proof. reflexivity. Qed.

Lemma pow2_pos (k : Z) : (0 < 2 ^ k)%Q.
Proof. apply Qpower_0_lt. reflexivity. Qed.

Lemma pow2_succ (k : Z) : (2 ^ (k + 1) == 2 * 2 ^ k)%Q.
Proof. rewrite Qpower_plus by discriminate. rewrite Qpower_1_r. ring. Qed.

Lemma pow2_pred (k : Z) : (2 ^ (k - 1) == 2 ^ k / 2)%Q.
Proof. rewrite Qpower_minus by discriminate. rewrite Qpower_1_r. reflexivity. Qed.

Lemma pow2_inject (a : Z) : 0 <= a -> (inject_Z (2 ^ a) == 2 ^ a)%Q.
Proof. intro H. rewrite Zpower_Qpower by exact H. reflexivity. Qed.

Lemma Q_as_div (q : Q) : (q == inject_Z (Qnum q) / inject_Z (Z.pos (Qden q)))%Q.
Proof. destruct q as [n d]. simpl. apply Qmake_Qdiv. Qed.

Lemma floor_log2_spec (q : Q) :
  (0 < q)%Q -> (2 ^ floor_log2 q <= q)%Q /\ (q < 2 ^ (floor_log2 q + 1))%Q.
Proof.
  intro Hq. unfold floor_log2.
  set (n := Qnum q). set (d := Z.pos (Qden q)).
  assert (Hn : 0 < n).
  { unfold n. destruct q as [a b]. unfold Qlt in Hq. simpl in *. lia. }
  assert (Hd : 0 < d) by (unfold d; lia).
  destruct (Z.log2_spec n Hn) as [Hn1 Hn2].
  destruct (Z.log2_spec d Hd) as [Hd1 Hd2].
  pose proof (Z.log2_nonneg n) as Han. pose proof (Z.log2_nonneg d) as Hbn.
  set (a := Z.log2 n) in *. set (b := Z.log2 d) in *.
  assert (Hqd : (q == inject_Z n / inject_Z d)%Q) by apply Q_as_div.
  assert (Hdq : (0 < inject_Z d)%Q).
  { change 0%Q with (inject_Z 0). rewrite <- Zlt_Qlt. exact Hd. }
  assert (Hn1q : (2 ^ a <= inject_Z n)%Q).
  { rewrite <- pow2_inject by exact Han. rewrite <- Zle_Qle. exact Hn1. }
  assert (Hn2q : (inject_Z n < 2 ^ (a + 1))%Q).
  { rewrite <- pow2_inject by lia. rewrite <- Zlt_Qlt.
    replace (a + 1) with (Z.succ a) by lia. exact Hn2. }
  assert (Hd1q : (2 ^ b <= inject_Z d)%Q).
  { rewrite <- pow2_inject by exact Hbn. rewrite <- Zle_Qle. exact Hd1. }
  assert (Hd2q : (inject_Z d < 2 ^ (b + 1))%Q).
  { rewrite <- pow2_inject by lia. rewrite <- Zlt_Qlt.
    replace (b + 1) with (Z.succ b) by lia. exact Hd2. }
  (* q < 2^(a-b+1) and 2^(a-b-1) < q *)
  assert (Hup : (q < 2 ^ (a - b + 1))%Q).
  { rewrite Hqd. apply Qlt_shift_div_r; [exact Hdq|].
    apply Qlt_le_trans with (2 ^ (a + 1))%Q; [exact Hn2q|].
    replace (a + 1) with ((a - b + 1) + b) by lia.
    rewrite Qpower_plus by discriminate.
    apply Qmult_le_l; [apply pow2_pos | exact Hd1q]. }
  assert (Hlo : (2 ^ (a - b - 1) < q)%Q).
  { rewrite Hqd. apply Qlt_shift_div_l; [exact Hdq|].
    apply Qlt_le_trans with (2 ^ (a - b - 1) * 2 ^ (b + 1))%Q.
    - apply Qmult_lt_l; [apply pow2_pos | exact Hd2q].
    - rewrite <- Qpower_plus by discriminate.
      replace (a - b - 1 + (b + 1)) with a by lia. exact Hn1q. }
  destruct (Qle_bool (2 ^ (a - b)) q) eqn:E.
  - apply Qle_bool_iff in E. split; assumption.
  - split.
    + apply Qlt_le_weak. exact Hlo.
    + replace (a - b - 1 + 1) with (a - b) by lia.
      apply Qnot_le_lt. intro H. apply Qle_bool_iff in H. congruence.
Qed.

Lemma floor_log2_unique (q : Q) (k : Z) :
  (2 ^ k <= q)%Q -> (q < 2 ^ (k + 1))%Q -> floor_log2 q = k.
Proof.
  intros H1 H2.
  assert (Hq : (0 < q)%Q) by (eapply Qlt_le_trans; [apply (pow2_pos k) | exact H1]).
  destruct (floor_log2_spec q Hq) as [H3 H4].
  assert (A : floor_log2 q < k + 1).
  { apply (Qpower_lt_compat_l_inv 2); [|reflexivity].
    eapply Qle_lt_trans; eassumption. }
  assert (B : k < floor_log2 q + 1).
  { apply (Qpower_lt_compat_l_inv 2); [|reflexivity].
    eapply Qle_lt_trans; eassumption. }
  lia.
Qed.

Lemma floor_log2_comp (q r : Q) : (0 < q)%Q -> (q == r)%Q -> floor_log2 q = floor_log2 r.
Proof.
  intros Hq E. symmetry. destruct (floor_log2_spec q Hq) as [H1 H2].
  apply floor_log2_unique; rewrite <- E; assumption.
Qed.

Lemma floor_log2_mono (q r : Q) :
  (0 < q)%Q -> (q <= r)%Q -> floor_log2 q <= floor_log2 r.
Proof.
  intros Hq Hle.
  assert (Hr : (0 < r)%Q) by (eapply Qlt_le_trans; eassumption).
  destruct (floor_log2_spec q Hq) as [H1 _].
  destruct (floor_log2_spec r Hr) as [_ H4].
  assert (A : floor_log2 q < floor_log2 r + 1).
  { apply (Qpower_lt_compat_l_inv 2); [|reflexivity].
    eapply Qle_lt_trans; [exact H1|]. eapply Qle_lt_trans; eassumption. }
  lia.
Qed.

(** *** Rounding to the nearest integer *)

Lemma round_half_even_comp (q r : Q) :
  (q == r)%Q -> round_half_even q = round_half_even r.
Proof.
  intro E. unfold round_half_even.
  rewrite (Qfloor_comp _ _ E).
  assert (E' : (q - inject_Z (Qfloor r) == r - inject_Z (Qfloor r))%Q)
    by (rewrite E; reflexivity).
  rewrite (Qcompare_comp _ _ E' (1#2) (1#2) (Qeq_refl _)). reflexivity.
Qed.


Lemma round_half_even_Z (z : Z) : round_half_even (inject_Z z) = z.
Proof.
  unfold round_half_even. rewrite Qfloor_Z.
  assert (E : (inject_Z z - inject_Z z ?= 1 # 2)%Q = Lt).
  { rewrite <- Qlt_alt. generalize (inject_Z z). intro x. lra. }
  rewrite E. reflexivity.
Qed.

Lemma round_half_even_mono (q r : Q) :
  (q <= r)%Q -> round_half_even q <= round_half_even r.
Proof.
  intro Hle.
  pose proof (Qfloor_resp_le _ _ Hle) as Hf.
  unfold round_half_even.
  pose proof (Qfloor_le q) as Hq1. pose proof (Qlt_floor q) as Hq2.
  pose proof (Qfloor_le r) as Hr1. pose proof (Qlt_floor r) as Hr2.
  set (f := Qfloor q) in *. set (g := Qfloor r) in *.
  rewrite inject_Z_plus in Hq2, Hr2. change (inject_Z 1) with 1%Q in *.
  destruct (Z.eq_dec f g) as [E|N].
  - rewrite <- E in *.
    destruct (Qcompare (q - inject_Z f) (1 # 2)) eqn:C1;
      destruct (Qcompare (r - inject_Z f) (1 # 2)) eqn:C2;
      try rewrite <- Qeq_alt in C1; try rewrite <- Qlt_alt in C1;
      try rewrite <- Qgt_alt in C1;
      try rewrite <- Qeq_alt in C2; try rewrite <- Qlt_alt in C2;
      try rewrite <- Qgt_alt in C2;
      destruct (Z.even f); try lia; exfalso; lra.
  - assert (f + 1 <= g) by lia.
    assert (A : match Qcompare (q - inject_Z f) (1 # 2) with
                | Lt => f | Gt => f + 1
                | Eq => if Z.even f then f else f + 1 end <= f + 1)
      by (destruct (Qcompare (q - inject_Z f) (1 # 2)); [destruct (Z.even f)| |]; lia).
    assert (B : g <= match Qcompare (r - inject_Z g) (1 # 2) with
                | Lt => g | Gt => g + 1
                | Eq => if Z.even g then g else g + 1 end)
      by (destruct (Qcompare (r - inject_Z g) (1 # 2)); [destruct (Z.even g)| |]; lia).
    lia.
Qed.

(** *** The nearest double *)

Lemma scaled_bounds (q : Q) :
  (0 < q)%Q ->
  (2 ^ 52 <= q / 2 ^ (floor_log2 q - 52))%Q
  /\ (q / 2 ^ (floor_log2 q - 52) < 2 ^ 53)%Q.
Proof.
  intro Hq. destruct (floor_log2_spec q Hq) as [H1 H2].
  set (k := floor_log2 q) in *.
  pose proof (pow2_pos (k - 52)) as Hp.
  split.
  - apply Qle_shift_div_l; [exact Hp|].
    rewrite <- Qpower_plus by discriminate.
    replace (52 + (k - 52)) with k by lia. exact H1.
  - apply Qlt_shift_div_r; [exact Hp|].
    rewrite <- Qpower_plus by discriminate.
    replace (53 + (k - 52)) with (k + 1) by lia. exact H2.
Qed.

Lemma mantissa_bounds (q : Q) :
  (0 < q)%Q ->
  2 ^ 52 <= round_half_even (q / 2 ^ (floor_log2 q - 52)) <= 2 ^ 53.
Proof.
  intro Hq. destruct (scaled_bounds q Hq) as [H1 H2]. split.
  - rewrite <- (round_half_even_Z (2 ^ 52)).
    apply round_half_even_mono. rewrite pow2_inject by lia. exact H1.
  - rewrite <- (round_half_even_Z (2 ^ 53)).
    apply round_half_even_mono. rewrite pow2_inject by lia.
    apply Qlt_le_weak. exact H2.
Qed.

Lemma nearest_double_comp (q r : Q) :
  (0 < q)%Q -> (q == r)%Q -> (nearest_double q == nearest_double r)%Q.
Proof.
  intros Hq E. unfold nearest_double.
  rewrite <- (floor_log2_comp q r Hq E).
  rewrite (round_half_even_comp (q / 2 ^ (floor_log2 q - 52))
             (r / 2 ^ (floor_log2 q - 52)))
    by (apply Qdiv_comp; [exact E | reflexivity]).
  reflexivity.
Qed.

Lemma nearest_double_bounds (q : Q) :
  (0 < q)%Q ->
  (2 ^ floor_log2 q <= nearest_double q)%Q
  /\ (nearest_double q <= 2 ^ (floor_log2 q + 1))%Q.
Proof.
  intro Hq. destruct (mantissa_bounds q Hq) as [H1 H2]. unfold nearest_double.
  set (k := floor_log2 q) in *. set (m := round_half_even _) in *.
  pose proof (pow2_pos (k - 52)) as Hp.
  split.
  - apply Qle_trans with (inject_Z (2 ^ 52) * 2 ^ (k - 52))%Q.
    + rewrite pow2_inject by lia. rewrite <- Qpower_plus by discriminate.
      replace (52 + (k - 52)) with k by lia. apply Qle_refl.
    + apply Qmult_le_compat_r; [|apply Qlt_le_weak; exact Hp].
      rewrite <- Zle_Qle. exact H1.
  - apply Qle_trans with (inject_Z (2 ^ 53) * 2 ^ (k - 52))%Q.
    + apply Qmult_le_compat_r; [|apply Qlt_le_weak; exact Hp].
      rewrite <- Zle_Qle. exact H2.
    + rewrite pow2_inject by lia. rewrite <- Qpower_plus by discriminate.
      replace (53 + (k - 52)) with (k + 1) by lia. apply Qle_refl.
Qed.

Lemma nearest_double_pos (q : Q) : (0 < q)%Q -> (0 < nearest_double q)%Q.
Proof.
  intro Hq. eapply Qlt_le_trans; [apply (pow2_pos (floor_log2 q))|].
  apply nearest_double_bounds. exact Hq.
Qed.

Lemma nearest_double_mono (q r : Q) :
  (0 < q)%Q -> (q <= r)%Q -> (nearest_double q <= nearest_double r)%Q.
Proof.
  intros Hq Hle.
  assert (Hr : (0 < r)%Q) by (eapply Qlt_le_trans; eassumption).
  pose proof (floor_log2_mono q r Hq Hle) as Hk.
  destruct (Z.eq_dec (floor_log2 q) (floor_log2 r)) as [E|N].
  - unfold nearest_double. rewrite E.
    pose proof (pow2_pos (floor_log2 r - 52)) as Hp.
    apply Qmult_le_compat_r; [|apply Qlt_le_weak; exact Hp].
    rewrite <- Zle_Qle. apply round_half_even_mono.
    apply Qmult_le_compat_r; [exact Hle|].
    apply Qlt_le_weak. apply Qinv_lt_0_compat. exact Hp.
  - apply Qle_trans with (2 ^ (floor_log2 q + 1))%Q;
      [apply nearest_double_bounds; exact Hq|].
    apply Qle_trans with (2 ^ floor_log2 r)%Q;
      [|apply nearest_double_bounds; exact Hr].
    apply Qpower_le_compat_l; [lia | discriminate].
Qed.


(** Integers below [2^53] are doubles. *)
Lemma nearest_double_Z (z : Z) :
  0 < z < 2 ^ 53 -> (nearest_double (inject_Z z) == inject_Z z)%Q.
Proof.
  intros [H0 H1].
  assert (Hq : (0 < inject_Z z)%Q).
  { change 0%Q with (inject_Z 0). rewrite <- Zlt_Qlt. exact H0. }
  destruct (floor_log2_spec _ Hq) as [S1 S2].
  unfold nearest_double. set (k := floor_log2 (inject_Z z)) in *.
  assert (Hk : k < 53).
  { apply (Qpower_lt_compat_l_inv 2); [|reflexivity].
    eapply Qle_lt_trans; [exact S1|].
    rewrite <- pow2_inject by lia. rewrite <- Zlt_Qlt. exact H1. }
  assert (E : (inject_Z z / 2 ^ (k - 52) == inject_Z (z * 2 ^ (52 - k)))%Q).
  { rewrite inject_Z_mult, pow2_inject by lia.
    replace (k - 52) with (- (52 - k)) by lia.
    rewrite Qpower_opp. field. apply Qnot_eq_sym, Qlt_not_eq, pow2_pos. }
  rewrite (round_half_even_comp _ _ E), round_half_even_Z.
  rewrite inject_Z_mult, pow2_inject by lia.
  rewrite <- Qmult_assoc, <- Qpower_plus by discriminate.
  replace (52 - k + (k - 52)) with 0 by lia. rewrite Qpower_0_r. ring.
Qed.

(** *** [to_double] on all rationals *)

Lemma to_double_pos (q : Q) : (0 < q)%Q -> to_double q = nearest_double q.
Proof.
  intro Hq. unfold to_double.
  destruct (Qeq_bool q 0) eqn:E.
  - apply Qeq_bool_iff in E. rewrite E in Hq. discriminate Hq.
  - destruct (Qle_bool 0 q) eqn:L; [reflexivity|].
    assert (Qle_bool 0 q = true) by (apply Qle_bool_iff, Qlt_le_weak; exact Hq).
    congruence.
Qed.

Lemma to_double_neg (q : Q) :
  (q < 0)%Q -> to_double q = (- nearest_double (- q))%Q.
Proof.
  intro Hq. unfold to_double.
  destruct (Qeq_bool q 0) eqn:E.
  - apply Qeq_bool_iff in E. rewrite E in Hq. discriminate Hq.
  - destruct (Qle_bool 0 q) eqn:L; [|reflexivity].
    apply Qle_bool_iff in L. exfalso. lra.
Qed.

Lemma to_double_zero (q : Q) : (q == 0)%Q -> to_double q = 0%Q.
Proof.
  intro E. unfold to_double.
  assert (H : Qeq_bool q 0 = true) by (apply Qeq_bool_iff; exact E).
  rewrite H. reflexivity.
Qed.

Lemma to_double_comp (q r : Q) : (q == r)%Q -> (to_double q == to_double r)%Q.
Proof.
  intro E. destruct (Q_dec q 0) as [[Hn|Hp]|Hz].
  - rewrite (to_double_neg q Hn), (to_double_neg r) by (rewrite <- E; exact Hn).
    apply Qopp_comp. apply nearest_double_comp; [lra | rewrite E; reflexivity].
  - rewrite (to_double_pos q Hp), (to_double_pos r) by (rewrite <- E; exact Hp).
    apply nearest_double_comp; assumption.
  - rewrite (to_double_zero q Hz), (to_double_zero r) by (rewrite <- E; exact Hz).
    reflexivity.
Qed.

Lemma to_double_sign (q : Q) :
  ((0 < q)%Q -> (0 < to_double q)%Q)
  /\ ((q < 0)%Q -> (to_double q < 0)%Q)
  /\ ((q == 0)%Q -> to_double q = 0%Q).
Proof.
  refine (conj _ (conj _ _)).
  - intro H. rewrite (to_double_pos q H). apply nearest_double_pos. exact H.
  - intro H. rewrite (to_double_neg q H).
    assert (0 < nearest_double (- q))%Q by (apply nearest_double_pos; lra). lra.
  - apply to_double_zero.
Qed.

Lemma to_double_mono (q r : Q) : (q <= r)%Q -> (to_double q <= to_double r)%Q.
Proof.
  intro Hle. destruct (to_double_sign q) as (Pq & Nq & Zq).
  destruct (to_double_sign r) as (Pr & Nr & Zr).
  destruct (Q_dec q 0) as [[Hn|Hp]|Hz]; destruct (Q_dec r 0) as [[Hn'|Hp']|Hz'];
    try (exfalso; lra).
  - rewrite (to_double_neg q Hn), (to_double_neg r Hn').
    assert (nearest_double (- r) <= nearest_double (- q))%Q
      by (apply nearest_double_mono; lra). lra.
  - specialize (Nq Hn). specialize (Pr Hp'). lra.
  - specialize (Nq Hn). rewrite (Zr Hz'). lra.
  - rewrite (to_double_pos q Hp), (to_double_pos r Hp').
    apply nearest_double_mono; assumption.
  - rewrite (Zq Hz). specialize (Pr Hp'). lra.
  - rewrite (Zq Hz), (Zr Hz'). apply Qle_refl.
Qed.


Lemma to_double_Z (z : Z) :
  - 2 ^ 53 < z < 2 ^ 53 -> (to_double (inject_Z z) == inject_Z z)%Q.
Proof.
  intro H. destruct (Z.lt_trichotomy z 0) as [Hn|[Hz|Hp]].
  - assert (Hq : (inject_Z z < 0)%Q).
    { change 0%Q with (inject_Z 0). rewrite <- Zlt_Qlt. exact Hn. }
    rewrite (to_double_neg _ Hq).
    rewrite (nearest_double_comp (- inject_Z z) (inject_Z (- z)));
      [|lra | rewrite inject_Z_opp; reflexivity].
    rewrite nearest_double_Z by lia. rewrite inject_Z_opp. ring.
  - subst z. reflexivity.
  - assert (Hq : (0 < inject_Z z)%Q).
    { change 0%Q with (inject_Z 0). rewrite <- Zlt_Qlt. exact Hp. }
    rewrite (to_double_pos _ Hq). apply nearest_double_Z. lia.
Qed.

Lemma math_round_mono (x y : Q) : (x <= y)%Q -> math_round x <= math_round y.
Proof. intro H. unfold math_round. apply Qfloor_resp_le. lra. Qed.

Lemma math_round_Z (z : Z) (x : Q) : (x == inject_Z z)%Q -> math_round x = z.
Proof.
  intro E. unfold math_round.
  rewrite (Qfloor_comp _ (inject_Z z + (1 # 2))) by (rewrite E; reflexivity).
  pose proof (Qfloor_le (inject_Z z + (1 # 2))) as H1.
  pose proof (Qlt_floor (inject_Z z + (1 # 2))) as H2.
  set (f := Qfloor _) in *.
  rewrite inject_Z_plus in H2. change (inject_Z 1) with 1%Q in H2.
  assert (A : (inject_Z f < inject_Z (z + 1))%Q)
    by (rewrite inject_Z_plus; change (inject_Z 1) with 1%Q; lra).
  assert (B : (inject_Z (z - 1) < inject_Z f)%Q).
  { unfold Z.sub. rewrite inject_Z_plus. change (inject_Z (- (1))) with (- (1))%Q. lra. }
  rewrite <- Zlt_Qlt in A, B. lia.
Qed.

Lemma step_fraction (total : Z) (i : nat) :
  0 < total -> Z.of_nat i < total ->
  (0 < inject_Z (Z.of_nat i + 1) / inject_Z total)%Q
  /\ (inject_Z (Z.of_nat i + 1) / inject_Z total <= 1)%Q.
Proof.
  intros Ht Hi.
  assert (HT : (0 < inject_Z total)%Q).
  { change 0%Q with (inject_Z 0). rewrite <- Zlt_Qlt. exact Ht. }
  split.
  - apply Qlt_shift_div_l; [exact HT|]. rewrite Qmult_0_l.
    change 0%Q with (inject_Z 0). rewrite <- Zlt_Qlt. lia.
  - apply Qle_shift_div_r; [exact HT|]. rewrite Qmult_1_l.
    rewrite <- Zle_Qle. lia.
Qed.

Lemma to_double_le_Z (q : Q) (z : Z) :
  - 2 ^ 53 < z < 2 ^ 53 -> (q <= inject_Z z)%Q -> (to_double q <= inject_Z z)%Q.
Proof.
  intros Hz H. rewrite <- (to_double_Z z Hz). apply to_double_mono. exact H.
Qed.

Lemma percent_range (total : Z) (i : nat) :
  0 < total -> Z.of_nat i < total -> 0 <= percent i total <= 100.
Proof.
  intros Ht Hi. unfold percent.
  destruct (step_fraction total i Ht Hi) as [F0 F1].
  set (x := (inject_Z (Z.of_nat i + 1) / inject_Z total)%Q) in *.
  assert (A0 : (0 < to_double x)%Q) by (apply to_double_sign; exact F0).
  assert (A1 : (to_double x <= 1)%Q) by (apply (to_double_le_Z x 1); [lia | exact F1]).
  assert (B0 : (0 < to_double (to_double x * 100))%Q)
    by (apply to_double_sign; lra).
  assert (B1 : (to_double (to_double x * 100) <= 100)%Q).
  { apply (to_double_le_Z _ 100); [lia|]. change (inject_Z 100) with 100%Q. lra. }
  split.
  - change 0 with (math_round 0). apply math_round_mono. lra.
  - replace 100 with (math_round 100) at 2 by (apply (math_round_Z 100); reflexivity).
    apply math_round_mono. exact B1.
Qed.

Lemma percent_mono (total : Z) (i j : nat) :
  0 < total -> (i <= j)%nat -> percent i total <= percent j total.
Proof.
  intros Ht Hij. unfold percent.
  assert (HT : (0 < inject_Z total)%Q).
  { change 0%Q with (inject_Z 0). rewrite <- Zlt_Qlt. exact Ht. }
  apply math_round_mono, to_double_mono.
  apply Qmult_le_compat_r; [|discriminate].
  apply to_double_mono.
  apply Qmult_le_compat_r;
    [|apply Qlt_le_weak, Qinv_lt_0_compat; exact HT].
  rewrite <- Zle_Qle. lia.
Qed.

Lemma percent_last (total : Z) (i : nat) :
  0 < total -> Z.of_nat i = total - 1 -> percent i total = 100.
Proof.
  intros Ht Hi. unfold percent.
  assert (HT : (0 < inject_Z total)%Q).
  { change 0%Q with (inject_Z 0). rewrite <- Zlt_Qlt. exact Ht. }
  replace (Z.of_nat i + 1) with total by lia.
  assert (E1 : (inject_Z total / inject_Z total == inject_Z 1)%Q).
  { change (inject_Z 1) with 1%Q. field. apply Qnot_eq_sym, Qlt_not_eq; exact HT. }
  assert (E2 : (to_double (inject_Z total / inject_Z total) == 1)%Q).
  { rewrite (to_double_comp _ _ E1). apply (to_double_Z 1). lia. }
  assert (E3 : (to_double (to_double (inject_Z total / inject_Z total) * 100)
                == inject_Z 100)%Q).
  { rewrite (to_double_comp _ (inject_Z 100)); [apply (to_double_Z 100); lia|].
    rewrite E2. reflexivity. }
  apply math_round_Z. exact E3.
Qed.















(* ===================================================================== *)
(** ** Basic facts about the tables and the queues *)
(* ===================================================================== *)

Lemma TaskType_eqb_eq (a b : TaskType) : TaskType_eqb a b = true <-> a = b.
Proof. destruct a, b; simpl; split; intro H; congruence. Qed.

Lemma TaskStatus_eqb_eq (a b : TaskStatus) : TaskStatus_eqb a b = true <-> a = b.
Proof. destruct a, b; simpl; split; intro H; congruence. Qed.

(** No status the code can write is stored as ["dead"]. *)
Lemma status_never_dead (s : TaskStatus) : status_name s <> "dead".
Proof. destruct s; discriminate. Qed.

Lemma lookup_none_existsb (i : string) (w : World) :
  lookup i w = None <-> existsb (has_id i) (tasks w) = false.
Proof.
  unfold lookup. induction (tasks w) as [|r rows IH]; simpl.
  - tauto.
  - destruct (has_id i r); simpl; [split; discriminate | exact IH].
Qed.

Lemma lookup_some_existsb (i : string) (w : World) (r : TaskRow) :
  lookup i w = Some r -> existsb (has_id i) (tasks w) = true.
Proof.
  intro H. destruct (existsb (has_id i) (tasks w)) eqn:E; [reflexivity|].
  apply lookup_none_existsb in E. congruence.
Qed.

Lemma read_queue_keeps_world {A} (t : TaskType) (f : Queue -> A) (w : World) :
  snd (read_queue t f w) = w.
Proof.
  unfold read_queue, not_found, throw.
  destruct (queues_get t w) as [q|]; [destruct (q_online q)|]; reflexivity.
Qed.

Lemma read_queue_online {A} (t : TaskType) (f : Queue -> A) (w : World) (q : Queue) :
  queues_get t w = Some q -> q_online q = true ->
  read_queue t f w = (Ok (f q), w).
Proof. intros Hq Hon. unfold read_queue. rewrite Hq, Hon. reflexivity. Qed.

Lemma read_queue_offline {A} (t : TaskType) (f : Queue -> A) (w : World) (q : Queue) :
  queues_get t w = Some q -> q_online q = false ->
  read_queue t f w = (Throw "Connection is closed.", w).
Proof. intros Hq Hoff. unfold read_queue. rewrite Hq, Hoff. reflexivity. Qed.

(** The statistics of a queue that answers: the five list lengths, and a
    constant 0 for [paused]. *)
Lemma getQueueStats_online (t : TaskType) (w : World) (q : Queue) :
  queues_get t w = Some q -> q_online q = true ->
  getQueueStats t w =
    (Ok {| qs_waiting := count (q_waiting q);
           qs_active := count (q_active q);
           qs_completed := count (q_completed q);
           qs_failed := count (q_failed q);
           qs_delayed := count (q_delayed q);
           qs_paused := 0 |}, w).
Proof.
  intros Hq Hon. unfold getQueueStats. rewrite Hq.
  unfold bind, both.
  repeat (rewrite (read_queue_online t _ w q Hq Hon); cbn beta iota).
  reflexivity.
Qed.

Lemma getQueueStats_offline (t : TaskType) (w : World) (q : Queue) :
  queues_get t w = Some q -> q_online q = false ->
  getQueueStats t w = (Throw "Connection is closed.", w).
Proof.
  intros Hq Hoff. unfold getQueueStats. rewrite Hq.
  unfold bind, both.
  repeat (rewrite (read_queue_offline t _ w q Hq Hoff); cbn beta iota).
  reflexivity.
Qed.

Lemma getQueueStats_keeps_world (t : TaskType) (w : World) :
  snd (getQueueStats t w) = w.
Proof.
  destruct (queues_get t w) as [q|] eqn:Hq.
  - destruct (q_online q) eqn:Hon.
    + rewrite (getQueueStats_online t w q Hq Hon). reflexivity.
    + rewrite (getQueueStats_offline t w q Hq Hon). reflexivity.
  - unfold getQueueStats. rewrite Hq. reflexivity.
Qed.

Lemma collect_stats_total (keys : list TaskType) (w : World) :
  collect_stats keys w = (Ok (map (fun t => (t, stats_entry w t)) keys), w).
Proof.
  induction keys as [|t keys IH]; simpl.
  - reflexivity.
  - unfold bind, try_catch, stats_entry.
    pose proof (getQueueStats_keeps_world t w) as Hw.
    destruct (getQueueStats t w) as [[s|e] w1]; simpl in Hw; subst w1.
    + rewrite IH. reflexivity.
    + unfold ret at 1. rewrite IH. reflexivity.
Qed.

(* ===================================================================== *)
(** ** Queue statistics *)
(* ===================================================================== *)

(** C10.  Whatever the state of the broker, [getAllQueueStats] does not
    throw: it returns one entry per queue, in order, which is the queue's
    statistics when they can be read and six zero counters when reading
    them throws; [GET /stats/queues] then answers 200 with that map. *)
Theorem getAllQueueStats_never_throws (w : World) :
  let stats := map (fun t => (t, stats_entry w t)) (map fst (queues w)) in
  getAllQueueStats w = (Ok stats, w)
  /\ get_stats_queues w = (respond 200 (QueueStatsBody stats), w)
  /\ (forall t e, fst (getQueueStats t w) = Throw e ->
        stats_entry w t =
          {| qs_waiting := 0; qs_active := 0; qs_completed := 0;
             qs_failed := 0; qs_delayed := 0; qs_paused := 0 |})
  /\ (forall t s, fst (getQueueStats t w) = Ok s -> stats_entry w t = s).
Proof.
  cbv zeta. repeat split.
  - unfold getAllQueueStats. apply collect_stats_total.
  - unfold get_stats_queues, handler, bind, getAllQueueStats.
    rewrite collect_stats_total. reflexivity.
  - intros t e H. unfold stats_entry. rewrite H. reflexivity.
  - intros t s H. unfold stats_entry. rewrite H. reflexivity.
Qed.

Lemma queues_get_set (t : TaskType) (q' : Queue) (w : World) (q : Queue) :
  queues_get t w = Some q ->
  queues_get t (set_queues (queues_set t q' (queues w)) w) = Some q'.
Proof.
  unfold queues_get. simpl. induction (queues w) as [|kv qs IH]; simpl.
  - discriminate.
  - destruct (for_type t kv) eqn:E; simpl.
    + intros _. unfold for_type in *. simpl. rewrite E. reflexivity.
    + rewrite E. exact IH.
Qed.

Lemma pauseQueue_sets_flag (t : TaskType) (w w' : World) :
  pauseQueue t w = (Ok tt, w') ->
  exists q, queues_get t w = Some q /\ q_online q = true
            /\ queues_get t w' = Some (with_paused true q).
Proof.
  unfold pauseQueue, on_queue, not_found, throw.
  destruct (queues_get t w) as [q|] eqn:Hq; [|discriminate].
  destruct (q_online q) eqn:Hon; [|discriminate].
  intro H. inversion H; subst. exists q. repeat split; trivial.
  apply (queues_get_set t _ w q Hq).
Qed.

(** C7 (as the code has it).  After a queue has been paused its paused
    flag is set, and [getQueueStats] still returns the lengths of the five
    job lists, unchanged by the pause, with [paused] equal to 0: the
    statistics never carry the flag. *)
Theorem getQueueStats_paused_is_constant (t : TaskType) (w w' : World) :
  pauseQueue t w = (Ok tt, w') ->
  exists q,
    queues_get t w = Some q
    /\ option_map q_paused (queues_get t w') = Some true
    /\ getQueueStats t w' =
         (Ok {| qs_waiting := count (q_waiting q);
                qs_active := count (q_active q);
                qs_completed := count (q_completed q);
                qs_failed := count (q_failed q);
                qs_delayed := count (q_delayed q);
                qs_paused := 0 |}, w').
Proof.
  intro Hp. destruct (pauseQueue_sets_flag t w w' Hp) as (q & Hq & Hon & Hq').
  exists q. split; [exact Hq|]. split.
  - rewrite Hq'. reflexivity.
  - apply (getQueueStats_online t w' (with_paused true q) Hq'). exact Hon.
Qed.

Lemma getQueueStats_paused_is_constant_witness :
  exists q,
    queues_get cleanup_tasks fresh_world = Some q
    /\ option_map q_paused
         (queues_get cleanup_tasks (snd (pauseQueue cleanup_tasks fresh_world)))
       = Some true
    /\ getQueueStats cleanup_tasks (snd (pauseQueue cleanup_tasks fresh_world)) =
         (Ok {| qs_waiting := count (q_waiting q);
                qs_active := count (q_active q);
                qs_completed := count (q_completed q);
                qs_failed := count (q_failed q);
                qs_delayed := count (q_delayed q);
                qs_paused := 0 |},
          snd (pauseQueue cleanup_tasks fresh_world)).
Proof.
  apply (getQueueStats_paused_is_constant cleanup_tasks fresh_world).
  reflexivity.
Defined.

(** C7 (as stated) fails: the cleanup queue of a freshly started system is
    paused, its flag is set, and the statistics read afterwards report
    [paused] as 0. *)
Lemma stats_do_not_report_pause :
  let w1 := snd (pauseQueue cleanup_tasks fresh_world) in
  fst (pauseQueue cleanup_tasks fresh_world) = Ok tt
  /\ option_map q_paused (queues_get cleanup_tasks w1) = Some true
  /\ exists s, fst (getQueueStats cleanup_tasks w1) = Ok s /\ qs_paused s = 0.
Proof.
  cbv zeta. split; [reflexivity|]. split; [reflexivity|].
  eexists. split; reflexivity.
Qed.

(* ===================================================================== *)
(** ** Throughput *)
(* ===================================================================== *)

Lemma divide_by_zero_not_finite (a b : Q) :
  Qeq_bool b 0 = true -> isFinite (divide a b) = false.
Proof.
  intro Hb. unfold divide. rewrite Hb.
  destruct (Qeq_bool a 0); [reflexivity|].
  destruct (Qle_bool 0 a); reflexivity.
Qed.







(* ===================================================================== *)
(** ** Admission: addTask and POST /tasks *)
(* ===================================================================== *)

Lemma addTask_ok (env : Env) (uuid : string) (task : Task) (w : World) (q : Queue) :
  faults w = [] ->
  lookup (or_string (t_id task) uuid) w = None ->
  between 1 10 (t_priority task) = true ->
  queues_get (t_type task) w = Some q ->
  q_online q = true ->
  let i := or_string (t_id task) uuid in
  addTask env uuid task w =
    (Ok i,
     set_queues
       (queues_set (t_type task)
          (with_waiting (q_waiting q ++ [queued_job env i task]) q) (queues w))
       (set_tasks (tasks w ++ [inserted_row (clock w) i (with_id i task)]) w)).
Proof.
  intros Hf Hnew Hprio Hq Hon i.
  apply lookup_none_existsb in Hnew.
  unfold addTask. fold i.
  unfold bind, createTask, bind, now, query. rewrite Hf. simpl.
  subst i. rewrite Hnew, Hprio. simpl.
  unfold queues_get in *. simpl. rewrite Hq.
  unfold queue_add, on_queue, bind, queues_get. simpl. rewrite Hq, Hon.
  reflexivity.
Qed.

Lemma retryDelay_from_env (env : Env) (t : TaskType) :
  retryDelay (config_queues env t) = env_retry_delay (env t)
  /\ maxRetries (config_queues env t) = env_max_retries (env t).
Proof. destruct t; split; reflexivity. Qed.

Lemma createTask_inv (task : Task) (w w' : World) (i : string) :
  createTask task w = (Ok i, w') ->
  t_id task = Some i
  /\ lookup i w = None
  /\ between 1 10 (t_priority task) = true
  /\ tasks w' = (tasks w ++ [inserted_row (clock w) i task])%list
  /\ queues w' = queues w /\ task_results w' = task_results w
  /\ clock w' = clock w.
Proof.
  unfold createTask, bind, now, query. intro H.
  assert (Hcore :
    forall w0, tasks w0 = tasks w -> queues w0 = queues w ->
      task_results w0 = task_results w -> clock w0 = clock w ->
      match t_id task with
      | Some i0 =>
          if existsb (has_id i0) (tasks w0)
          then (Throw "duplicate key value violates unique constraint", w0)
          else if negb (between 1 10 (t_priority task))
          then (Throw "new row violates check constraint on priority", w0)
          else (Ok i0, set_tasks (tasks w0 ++ [inserted_row (clock w) i0 task]) w0)
      | None => (@Throw string "null value in column id violates not-null constraint", w0)
      end = (Ok i, w') ->
      t_id task = Some i /\ lookup i w = None
      /\ between 1 10 (t_priority task) = true
      /\ tasks w' = (tasks w ++ [inserted_row (clock w) i task])%list
      /\ queues w' = queues w /\ task_results w' = task_results w
      /\ clock w' = clock w).
  { intros w0 HT HQ HR HC Heq.
    destruct (t_id task) as [i0|]; [|discriminate].
    destruct (existsb (has_id i0) (tasks w0)) eqn:Ex; [discriminate|].
    destruct (between 1 10 (t_priority task)) eqn:Hp; [|discriminate].
    simpl in Heq. inversion Heq; subst. simpl.
    rewrite HT in *. repeat split; try assumption.
    apply lookup_none_existsb. exact Ex. }
  destruct (faults w) as [|[|] rest] eqn:Hf; simpl in H.
  - apply (Hcore w); auto.
  - discriminate.
  - apply (Hcore (set_faults rest w)); auto.
Qed.

Lemma addTask_inv
    (env : Env) (uuid : string) (task : Task) (w w' : World) (i : string) :
  addTask env uuid task w = (Ok i, w') ->
  i = or_string (t_id task) uuid
  /\ lookup i w = None
  /\ between 1 10 (t_priority task) = true
  /\ tasks w' = (tasks w ++ [inserted_row (clock w) i (with_id i task)])%list
  /\ task_results w' = task_results w
  /\ exists q,
       queues_get (t_type task) w = Some q
       /\ queues_get (t_type task) w'
          = Some (with_waiting (q_waiting q ++ [queued_job env i task]) q).
Proof.
  unfold addTask. set (i0 := or_string (t_id task) uuid).
  unfold bind at 1.
  destruct (createTask (with_id i0 task) w) as [[j|e] w1] eqn:Hc; [|discriminate].
  destruct (createTask_inv _ _ _ _ Hc) as (Hid & Hnew & Hp & HT & HQ & HR & HC).
  simpl in Hid. inversion Hid; subst j.
  assert (Hget : forall t, queues_get t w1 = queues_get t w)
    by (intro t; unfold queues_get; rewrite HQ; reflexivity).
  rewrite Hget.
  destruct (queues_get (t_type task) w) as [q|] eqn:Hq; [|discriminate].
  unfold bind, queue_add, on_queue. rewrite Hget, Hq.
  destruct (q_online q) eqn:Hon; [|discriminate].
  cbn [ret]. intro H. inversion H; subst i w'. clear H.
  repeat split; try assumption.
  exists q. split; [reflexivity|].
  apply (queues_get_set (t_type task) _ w1 q). rewrite Hget. exact Hq.
Qed.


(** A task that has been added is one more waiting job of its queue, and
    nothing else of the queue has changed. *)
Lemma addTask_gains_job
    (env : Env) (uuid : string) (task : Task) (w w' : World) (i : string) :
  addTask env uuid task w = (Ok i, w') ->
  exists q q',
    queues_get (t_type task) w = Some q
    /\ queues_get (t_type task) w' = Some q'
    /\ Permutation (q_waiting q') (queued_job env i task :: q_waiting q)
    /\ q_active q' = q_active q /\ q_completed q' = q_completed q
    /\ q_failed q' = q_failed q /\ q_delayed q' = q_delayed q
    /\ q_paused q' = q_paused q.
Proof.
  intro H. destruct (addTask_inv _ _ _ _ _ _ H) as (_ & _ & _ & _ & _ & q & Hq & Hq').
  exists q. eexists. split; [exact Hq|]. split; [exact Hq'|].
  split; [|repeat split].
  cbn [q_waiting with_waiting].
  apply Permutation_sym, Permutation_cons_append.
Qed.

(** C3 (as the code has it).  A task that has been added has reached the
    broker as one more waiting job of its queue, with no attempt made,
    whose retry options are the queue's configured backoff type and its
    configured retry delay, passed on as it stands whatever its size,
    together with the queue's [maxRetries] as the number of attempts.  So
    on a queue whose backoff is fixed the delay before a retry is the
    configured delay itself. *)
Theorem addTask_passes_backoff_unclamped
    (env : Env) (uuid : string) (task : Task) (w w' : World) (i : string) :
  addTask env uuid task w = (Ok i, w') ->
  exists (q q' : Queue) (job : Job),
    queues_get (t_type task) w = Some q
    /\ queues_get (t_type task) w' = Some q'
    /\ Permutation (q_waiting q') (job :: q_waiting q)
    /\ t_id (job_data job) = Some i
    /\ attemptsMade job = 0
    /\ bo_type (jo_backoff (job_opts job)) = backoffType (config_queues env (t_type task))
    /\ bo_delay (jo_backoff (job_opts job)) = env_retry_delay (env (t_type task))
    /\ jo_attempts (job_opts job) = env_max_retries (env (t_type task))
    /\ (backoffType (config_queues env (t_type task)) = fixed ->
          fixed_backoff_delay (job_opts job)
          = Some (env_retry_delay (env (t_type task)))).
Proof.
  intro Hadd.
  destruct (addTask_gains_job env uuid task w w' i Hadd)
    as (q & q' & Hq & Hq' & Hperm & _).
  exists q, q', (queued_job env i task).
  destruct (retryDelay_from_env env (t_type task)) as [Hd Hm].
  repeat split; try assumption.
  intro Hfixed. unfold fixed_backoff_delay. cbn [queued_job job_opts jobOptions
    jo_backoff bo_type bo_delay]. rewrite Hfixed, Hd. reflexivity.
Qed.

Lemma addTask_passes_backoff_unclamped_witness :
  exists (q q' : Queue) (job : Job),
    queues_get file_processing fresh_world = Some q
    /\ queues_get file_processing
         (snd (addTask slow_file_env "u" sample_file fresh_world)) = Some q'
    /\ Permutation (q_waiting q') (job :: q_waiting q)
    /\ t_id (job_data job) = Some "f-1"
    /\ attemptsMade job = 0
    /\ bo_type (jo_backoff (job_opts job)) = fixed
    /\ bo_delay (jo_backoff (job_opts job)) = 900000
    /\ jo_attempts (job_opts job) = 3
    /\ (fixed = fixed -> fixed_backoff_delay (job_opts job) = Some 900000).
Proof.
  apply (addTask_passes_backoff_unclamped slow_file_env "u" sample_file
           fresh_world
           (snd (addTask slow_file_env "u" sample_file fresh_world)) "f-1").
  reflexivity.
Defined.

(** C3 (as stated) fails: with a configured retry delay of 15 minutes on
    the queue of the file jobs, whose backoff is fixed, a file task is
    added and its first attempt fails.  The job has 3 attempts, so the
    broker retries it; the delay before the retry is the 900000 ms of the
    options, where the described delay under the default ceiling is
    600000 ms. *)
Lemma retry_delay_exceeds_ceiling :
  let w' := snd (addTask slow_file_env "u" sample_file fresh_world) in
  let job := queued_job slow_file_env "f-1" sample_file in
  option_map q_waiting (queues_get file_processing w') = Some [job]
  /\ fst (process file_processing job unlucky w')
     = Throw "File parsing error: Invalid format"
  /\ retried_after_failure job = true
  /\ backoffType (config_queues slow_file_env file_processing) = fixed
  /\ fixed_backoff_delay (job_opts job) = Some 900000
  /\ described_delay default_ceiling fixed
       (retryDelay (config_queues slow_file_env file_processing)) 1 = 600000
  /\ 900000 <> 600000.
Proof. cbv zeta. repeat split; try reflexivity. discriminate. Qed.

Lemma or_string_same (s : string) : or_string (Some s) s = s.
Proof. unfold or_string. destruct (String.eqb s ""); reflexivity. Qed.

Lemma parse_type_nonempty (s : string) (t : TaskType) :
  parse_type s = Some t -> String.eqb s "" = false.
Proof.
  intro H. destruct (String.eqb s "") eqn:E; [|reflexivity].
  apply String.eqb_eq in E. subst s. discriminate H.
Qed.

Lemma find_app_new {A} (f : A -> bool) (l : list A) (x : A) :
  find f l = None -> f x = true -> find f (l ++ [x]) = Some x.
Proof.
  induction l as [|a l IH]; simpl; intros Hn Hx.
  - rewrite Hx. reflexivity.
  - destruct (f a); [discriminate | auto].
Qed.

(** What [POST /tasks] does once the type and the data have passed. *)
Lemma post_tasks_checked (env : Env) (uuid type : string) (taskType : TaskType)
    (data : Json) (p : option Z) (w : World) :
  parse_type type = Some taskType -> truthy data = true ->
  post_tasks env uuid (request type data p) w =
    if Z.ltb (or_else p 5) 1 || Z.ltb 10 (or_else p 5)
    then (priority_rejection, w)
    else
      handler
        (let! taskId :=
           addTask env uuid
             {| t_id := Some uuid; t_type := taskType;
                t_priority := or_else p 5; t_data := data;
                t_status := Some waiting; t_createdAt := Some (clock w);
                t_maxRetries := None |} in
         ret (created taskId)) w.
Proof.
  intros Hty Hdata. unfold post_tasks, request. simpl.
  rewrite (parse_type_nonempty type taskType Hty), Hdata, Hty. simpl.
  destruct (Z.ltb (or_else p 5) 1 || Z.ltb 10 (or_else p 5)); reflexivity.
Qed.

Lemma handler_created_not_400 (c : M string) (w : World) :
  res_status (fst (handler (let! taskId := c in ret (created taskId)) w)) <> 400.
Proof.
  unfold handler, bind. destruct (c w) as [[i|e] w']; simpl; discriminate.
Qed.

(** C9.  For a request with a known type and data: priorities 0 and 11 are
    answered 400 and leave the tables and the queues as they were;
    priorities 1 and 10 pass the check (the answer is never 400) and, when
    the store and the broker answer and the id is new, are answered 201
    with the job stored and enqueued under that priority; a request
    without priority is handled exactly as one with priority 5. *)
Theorem post_tasks_priority_bounds
    (env : Env) (uuid type : string) (taskType : TaskType) (data : Json)
    (w : World) :
  parse_type type = Some taskType -> truthy data = true ->
  post_tasks env uuid (request type data (Some 0)) w = (priority_rejection, w)
  /\ post_tasks env uuid (request type data (Some 11)) w = (priority_rejection, w)
  /\ res_status (fst (post_tasks env uuid (request type data (Some 1)) w)) <> 400
  /\ res_status (fst (post_tasks env uuid (request type data (Some 10)) w)) <> 400
  /\ post_tasks env uuid (request type data None) w
     = post_tasks env uuid (request type data (Some 5)) w
  /\ (forall p q,
        p = 1 \/ p = 10 \/ p = 5 ->
        faults w = [] -> lookup uuid w = None ->
        queues_get taskType w = Some q -> q_online q = true ->
        exists w',
          post_tasks env uuid (request type data (Some p)) w = (created uuid, w')
          /\ option_map priority (lookup uuid w') = Some p
          /\ waiting_priorities taskType w' = (waiting_priorities taskType w ++ [p])%list).
Proof.
  intros Hty Hdata.
  refine (conj _ (conj _ (conj _ (conj _ (conj _ _)))));
    try (rewrite (post_tasks_checked env uuid type taskType data _ w Hty Hdata);
         simpl; first [reflexivity | apply handler_created_not_400]).
  - rewrite !(post_tasks_checked env uuid type taskType data _ w Hty Hdata).
    reflexivity.
  - intros p q Hp Hf Hnew Hq Hon.
    rewrite (post_tasks_checked env uuid type taskType data _ w Hty Hdata).
    assert (Hrange : between 1 10 p = true)
      by (destruct Hp as [->|[->| ->]]; reflexivity).
    assert (Hcheck : Z.ltb (or_else (Some p) 5) 1 || Z.ltb 10 (or_else (Some p) 5) = false)
      by (destruct Hp as [->|[->| ->]]; reflexivity).
    rewrite Hcheck. unfold handler, bind.
    pose proof (addTask_ok env uuid
                  {| t_id := Some uuid; t_type := taskType;
                     t_priority := or_else (Some p) 5; t_data := data;
                     t_status := Some waiting; t_createdAt := Some (clock w);
                     t_maxRetries := None |} w q) as Hadd.
    cbn [t_id t_type t_priority or_else] in Hadd.
    rewrite or_string_same in Hadd.
    cbn [or_else]. rewrite (Hadd Hf Hnew Hrange Hq Hon). cbn [ret].
    eexists. split; [reflexivity|]. split.
    + unfold lookup. simpl. unfold lookup in Hnew.
      rewrite (find_app_new _ _ _ Hnew); [reflexivity|].
      unfold has_id. simpl. apply String.eqb_refl.
    + unfold waiting_priorities.
      rewrite (queues_get_set taskType _ (set_tasks _ w) q) by exact Hq.
      rewrite Hq. simpl. rewrite map_app. reflexivity.
Qed.

Lemma post_tasks_priority_bounds_witness :
  post_tasks default_env "u-1" (request "email_notification" sample_email_data (Some 0)) fresh_world
    = (priority_rejection, fresh_world)
  /\ post_tasks default_env "u-1" (request "email_notification" sample_email_data (Some 11)) fresh_world
    = (priority_rejection, fresh_world)
  /\ res_status (fst (post_tasks default_env "u-1"
                        (request "email_notification" sample_email_data (Some 1)) fresh_world)) <> 400
  /\ res_status (fst (post_tasks default_env "u-1"
                        (request "email_notification" sample_email_data (Some 10)) fresh_world)) <> 400
  /\ post_tasks default_env "u-1" (request "email_notification" sample_email_data None) fresh_world
     = post_tasks default_env "u-1" (request "email_notification" sample_email_data (Some 5)) fresh_world
  /\ (forall p q,
        p = 1 \/ p = 10 \/ p = 5 ->
        faults fresh_world = [] -> lookup "u-1" fresh_world = None ->
        queues_get email_notification fresh_world = Some q -> q_online q = true ->
        exists w',
          post_tasks default_env "u-1"
            (request "email_notification" sample_email_data (Some p)) fresh_world
            = (created "u-1", w')
          /\ option_map priority (lookup "u-1" w') = Some p
          /\ waiting_priorities email_notification w'
             = (waiting_priorities email_notification fresh_world ++ [p])%list).
Proof.
  apply (post_tasks_priority_bounds default_env "u-1" "email_notification"
           email_notification sample_email_data fresh_world); reflexivity.
Defined.

(* ===================================================================== *)
(** ** Metrics snapshot *)
(* ===================================================================== *)

Section Counting.

Variable rows : list TaskRow.






End Counting.


Lemma select_ok {A} (f : list TaskRow -> A) (w : World) :
  faults w = [] -> select f w = (Ok (f (tasks w)), w).
Proof. intro Hf. unfold select, query. rewrite Hf. reflexivity. Qed.










(* ===================================================================== *)
(** ** Status updates *)
(* ===================================================================== *)

Lemma find_map_stable {A} (f : A -> bool) (g : A -> A) (l : list A) :
  (forall x, f (g x) = f x) ->
  find f (map g l) = option_map g (find f l).
Proof.
  intro Hfg. induction l as [|a l IH]; simpl; [reflexivity|].
  rewrite Hfg. destruct (f a); [reflexivity | exact IH].
Qed.

Lemma updateTaskStatus_ok (taskId : string) (st : TaskStatus) (p : TaskPatch)
    (w : World) :
  faults w = [] -> progress_allowed p = true ->
  updateTaskStatus taskId st p w =
    (Ok tt, set_tasks (updated_rows taskId (clock w) st p (tasks w)) w).
Proof.
  intros Hf Hp. unfold updateTaskStatus, bind, now, query.
  rewrite Hf, Hp, andb_false_r. reflexivity.
Qed.

Lemma lookup_updated (i taskId : string) (t : Z) (st : TaskStatus)
    (p : TaskPatch) (w : World) :
  lookup i (set_tasks (updated_rows taskId t st p (tasks w)) w)
  = option_map (fun r => if has_id taskId r then apply_update t st p r else r)
      (lookup i w).
Proof.
  unfold lookup, updated_rows. simpl. apply find_map_stable.
  intro r. destruct (has_id taskId r); reflexivity.
Qed.

Lemma updated_rows_absent (taskId : string) (t : Z) (st : TaskStatus)
    (p : TaskPatch) (rows : list TaskRow) :
  find (has_id taskId) rows = None -> updated_rows taskId t st p rows = rows.
Proof.
  unfold updated_rows. induction rows as [|r l IH]; simpl; [reflexivity|].
  destruct (has_id taskId r); [discriminate|].
  intro H. rewrite (IH H). reflexivity.
Qed.

(** C2 (as the code has it).  When the store answers and the patch passes
    the range check on [progress], [updateTaskStatus] accepts every
    requested status, whatever the status the row has: it returns nothing,
    leaves the results table alone, gives the row with that id the
    requested status and the patched columns, and when no row has the id
    it completes all the same and changes no row. *)
Theorem updateTaskStatus_accepts_any_transition
    (taskId : string) (st : TaskStatus) (p : TaskPatch) (w : World) :
  faults w = [] -> progress_allowed p = true ->
  exists w',
    updateTaskStatus taskId st p w = (Ok tt, w')
    /\ task_results w' = task_results w
    /\ (forall r, lookup taskId w = Some r ->
          lookup taskId w' = Some (apply_update (clock w) st p r)
          /\ option_map status (lookup taskId w') = Some st)
    /\ (lookup taskId w = None -> tasks w' = tasks w).
Proof.
  intros Hf Hp. eexists. split; [apply updateTaskStatus_ok; assumption|].
  split; [reflexivity|]. split.
  - intros r Hr. rewrite lookup_updated, Hr. simpl.
    unfold lookup in Hr. apply find_some in Hr. destruct Hr as [_ Hid].
    rewrite Hid. split; reflexivity.
  - intro Hnone. simpl. apply updated_rows_absent. exact Hnone.
Qed.

Lemma updateTaskStatus_accepts_any_transition_witness :
  exists w',
    updateTaskStatus "a" waiting no_patch sample_history = (Ok tt, w')
    /\ task_results w' = task_results sample_history
    /\ (forall r, lookup "a" sample_history = Some r ->
          lookup "a" w' = Some (apply_update (clock sample_history) waiting no_patch r)
          /\ option_map status (lookup "a" w') = Some waiting)
    /\ (lookup "a" sample_history = None -> tasks w' = tasks sample_history).
Proof.
  apply (updateTaskStatus_accepts_any_transition "a" waiting no_patch sample_history);
    reflexivity.
Defined.

(** C2 (as stated) fails: job ["a"] is completed, a terminal status; the
    update to [waiting] is not rejected and the row becomes waiting.  An
    update for an id no row has is not reported either. *)
Lemma completed_job_reopened :
  option_map status (lookup "a" sample_history) = Some completed
  /\ fst (updateTaskStatus "a" waiting no_patch sample_history) = Ok tt
  /\ option_map status
       (lookup "a" (snd (updateTaskStatus "a" waiting no_patch sample_history)))
     = Some waiting
  /\ lookup "zz" sample_history = None
  /\ fst (updateTaskStatus "zz" active no_patch sample_history) = Ok tt.
Proof. repeat split; reflexivity. Qed.

(* ===================================================================== *)
(** ** What an attempt leaves in the store *)
(* ===================================================================== *)

Section Preservation.

Variable P : World -> Prop.

Lemma preserves_ret {A} (a : A) : preserves P (ret a).
Proof. intros w H. exact H. Qed.

Lemma preserves_throw {A} (e : string) : preserves P (@throw A e).
Proof. intros w H. exact H. Qed.

Lemma preserves_now : preserves P now.
Proof. intros w H. exact H. Qed.

Lemma preserves_bind {A B} (c : M A) (k : A -> M B) :
  preserves P c -> (forall a, preserves P (k a)) -> preserves P (bind c k).
Proof.
  intros Hc Hk w H. unfold bind. specialize (Hc w H).
  destruct (c w) as [[a|e] w1]; simpl in *; [apply Hk; exact Hc | exact Hc].
Qed.

Lemma preserves_for_each {A} (xs : list A) (f : A -> M unit) :
  (forall x, preserves P (f x)) -> preserves P (for_each xs f).
Proof.
  intro Hf. induction xs as [|x xs IH]; simpl.
  - apply preserves_ret.
  - apply preserves_bind; [apply Hf | intros _; exact IH].
Qed.

Lemma preserves_prop (name : string) (x : option Json) : preserves P (prop name x).
Proof.
  destruct x as [[| | | | |]|]; simpl;
    first [apply preserves_ret | apply preserves_throw].
Qed.

Lemma preserves_length_of (x : option Json) : preserves P (length_of x).
Proof.
  destruct x as [[| | | | |]|]; simpl;
    first [apply preserves_ret | apply preserves_throw].
Qed.

Lemma preserves_maybe_fail (c : Chance) (e : string) : preserves P (maybe_fail c e).
Proof.
  unfold maybe_fail. destruct (fails c);
    [apply preserves_throw | apply preserves_ret].
Qed.

End Preservation.

Lemma keeps_sleep (i : string) (a m d : Z) : preserves (keeps i a m) (sleep d).
Proof. intros w H. exact H. Qed.

(** A progress report changes neither [attempts] nor [max_retries]. *)
Lemma keeps_progress (i taskId : string) (a m pct : Z) :
  preserves (keeps i a m) (updateTaskStatus taskId active (progress_patch pct)).
Proof.
  intros w [Hf (r & Hr & Ha & Hm)].
  unfold updateTaskStatus, bind, now, query. rewrite Hf.
  destruct (existsb (has_id taskId) (tasks w)
            && negb (progress_allowed (progress_patch pct))); simpl.
  - split; [exact Hf|]. exists r. auto.
  - split; [exact Hf|]. fold (updated_rows taskId (clock w) active
                                  (progress_patch pct) (tasks w)).
    rewrite lookup_updated, Hr. simpl.
    destruct (has_id taskId r); eexists; (split; [reflexivity|]); simpl; auto.
Qed.

Create HintDb keeps_db.

#[local] Hint Resolve preserves_ret preserves_throw preserves_now
  preserves_prop preserves_length_of preserves_maybe_fail
  keeps_sleep keeps_progress : keeps_db.

Ltac keeps_steps :=
  repeat first
    [ solve [auto with keeps_db]
    | apply preserves_for_each; intro
    | apply preserves_bind; [|intro] ].

Lemma process_is_attempt (i : string) (a m : Z) (taskType : TaskType)
    (job : Job) (c : Chance) :
  exists work,
    process taskType job c = attempt job work
    /\ preserves (keeps i a m) work.
Proof.
  destruct taskType; eexists; (split; [reflexivity|]); cbv zeta;
    unfold simulateEmailSending, simulateImageProcessing,
      simulateFileProcessing, simulateDataExport, simulateApiCall,
      simulateCleanupTask;
    keeps_steps.
  destruct (fails c); keeps_steps.
Qed.

Lemma saveTaskResult_ok (res : TaskResult) (w : World) :
  faults w = [] -> existsb (has_id (r_taskId res)) (tasks w) = true ->
  exists row,
    saveTaskResult res w = (Ok tt, set_task_results (task_results w ++ [row]) w)
    /\ rr_task_id row = r_taskId res /\ rr_success row = r_success res
    /\ rr_attempts row = r_attempts res.
Proof.
  intros Hf Hid. eexists. split.
  - unfold saveTaskResult, bind, now, query. rewrite Hf, Hid. reflexivity.
  - repeat split.
Qed.

Lemma existsb_updated (i taskId : string) (t : Z) (st : TaskStatus)
    (p : TaskPatch) (rows : list TaskRow) :
  existsb (has_id i) (updated_rows taskId t st p rows) = existsb (has_id i) rows.
Proof.
  unfold updated_rows. induction rows as [|r l IH]; simpl; [reflexivity|].
  rewrite IH. destruct (has_id taskId r); reflexivity.
Qed.

Lemma attempt_throw_path (job : Job) (work : M Json) (w w2 : World)
    (i e : string) :
  faults w = [] ->
  t_id (job_data job) = Some i ->
  work (marked_active i job w) = (Throw e, w2) ->
  faults w2 = [] ->
  existsb (has_id i) (tasks w2) = true ->
  attempt job work w =
    (Throw e,
     set_task_results
       (task_results w2
        ++ [failure_row i e (clock w2 - clock w) (attemptsMade job + 1) (clock w2)])
       (set_tasks
          (updated_rows i (clock w2) failed (failed_patch (clock w2) e) (tasks w2))
          w2)).
Proof.
  intros Hf Hid Hwork Hf2 Hrow.
  unfold attempt, task_id. rewrite Hid. cbn [or_else].
  unfold try_catch, bind, now. cbv beta iota.
  rewrite (updateTaskStatus_ok i active _ w Hf) by reflexivity.
  fold (active_patch (clock w) job). fold (marked_active i job w).
  rewrite Hwork.
  rewrite (updateTaskStatus_ok i failed _ w2 Hf2) by reflexivity.
  unfold saveTaskResult, bind, now, query. cbn -[updated_rows].
  rewrite Hf2, existsb_updated, Hrow. reflexivity.
Qed.

Lemma attempt_ok_path (job : Job) (work : M Json) (w w2 : World)
    (i : string) (d : Json) :
  faults w = [] ->
  t_id (job_data job) = Some i ->
  work (marked_active i job w) = (Ok d, w2) ->
  faults w2 = [] ->
  existsb (has_id i) (tasks w2) = true ->
  exists res row,
    attempt job work w =
      (Ok res,
       set_task_results (task_results w2 ++ [row])
         (set_tasks
            (updated_rows i (clock w2) completed (completed_patch (clock w2) d)
               (tasks w2))
            w2))
    /\ r_success res = true /\ r_attempts res = attemptsMade job + 1
    /\ rr_task_id row = i /\ rr_success row = true.
Proof.
  intros Hf Hid Hwork Hf2 Hrow.
  unfold attempt, task_id. rewrite Hid. cbn [or_else].
  unfold try_catch, bind, now. cbv beta iota.
  rewrite (updateTaskStatus_ok i active _ w Hf) by reflexivity.
  fold (active_patch (clock w) job). fold (marked_active i job w).
  rewrite Hwork.
  rewrite (updateTaskStatus_ok i completed _ w2 Hf2) by reflexivity.
  unfold saveTaskResult, bind, now, query. cbn -[updated_rows].
  rewrite Hf2, existsb_updated, Hrow.
  eexists. eexists. split; [reflexivity|]. repeat split.
Qed.

Lemma lookup_set_task_results (i : string) (rs : list ResultRow) (w : World) :
  lookup i (set_task_results rs w) = lookup i w.
Proof. reflexivity. Qed.

Lemma keeps_marked_active (i : string) (job : Job) (w : World) (r : TaskRow) :
  faults w = [] -> lookup i w = Some r ->
  keeps i (attemptsMade job + 1) (max_retries r) (marked_active i job w).
Proof.
  intros Hf Hr. split; [exact Hf|].
  unfold marked_active. rewrite lookup_updated, Hr. simpl.
  unfold lookup in Hr. apply find_some in Hr. destruct Hr as [_ Hid].
  rewrite Hid. eexists. split; [reflexivity|]. split; reflexivity.
Qed.

(** The row of the job after an attempt: the attempt counter is the
    broker's count plus one, [max_retries] is untouched, and the status is
    [completed] when the attempt returned and [failed] when it threw. *)
Lemma attempt_result (job : Job) (work : M Json) (w : World) (i : string)
    (r : TaskRow) :
  faults w = [] ->
  t_id (job_data job) = Some i ->
  lookup i w = Some r ->
  preserves (keeps i (attemptsMade job + 1) (max_retries r)) work ->
  exists r',
    lookup i (snd (attempt job work w)) = Some r'
    /\ attempts r' = attemptsMade job + 1
    /\ max_retries r' = max_retries r
    /\ status r' = match fst (attempt job work w) with
                   | Ok _ => completed
                   | Throw _ => failed
                   end.
Proof.
  intros Hf Hid Hr Hwork.
  pose proof (Hwork _ (keeps_marked_active i job w r Hf Hr)) as Hkept.
  destruct (work (marked_active i job w)) as [[d|e] w2] eqn:Ework;
    simpl in Hkept; destruct Hkept as [Hf2 (r2 & Hr2 & Ha2 & Hm2)];
    pose proof (lookup_some_existsb i w2 r2 Hr2) as Hex;
    pose proof Hr2 as Hr2'; unfold lookup in Hr2';
    apply find_some in Hr2'; destruct Hr2' as [_ Hid2].
  - destruct (attempt_ok_path job work w w2 i d Hf Hid Ework Hf2 Hex)
      as (res & row & Heq & _).
    rewrite Heq. cbn [fst snd].
    rewrite lookup_set_task_results, lookup_updated, Hr2. simpl. rewrite Hid2.
    eexists. split; [reflexivity|]. simpl. auto.
  - rewrite (attempt_throw_path job work w w2 i e Hf Hid Ework Hf2 Hex).
    cbn [fst snd].
    rewrite lookup_set_task_results, lookup_updated, Hr2. simpl. rewrite Hid2.
    eexists. split; [reflexivity|]. simpl. auto.
Qed.

Lemma failed_attempt_row
    (taskType : TaskType) (job : Job) (c : Chance) (w : World)
    (i : string) (r : TaskRow) (e : string) :
  faults w = [] ->
  t_id (job_data job) = Some i ->
  lookup i w = Some r ->
  fst (process taskType job c w) = Throw e ->
  exists r',
    lookup i (snd (process taskType job c w)) = Some r'
    /\ attempts r' = attemptsMade job + 1
    /\ max_retries r' = max_retries r
    /\ status r' = failed.
Proof.
  intros Hf Hid Hr Hthrow.
  destruct (process_is_attempt i (attemptsMade job + 1) (max_retries r)
              taskType job c) as (work & Heq & Hwork).
  rewrite Heq in *.
  destruct (attempt_result job work w i r Hf Hid Hr Hwork)
    as (r' & Hr' & Ha & Hm & Hs).
  rewrite Hthrow in Hs. exists r'. auto.
Qed.

(** C1 (as the code has it).  While the store answers every query, and
    for a job whose row is in the table: whatever the job and however many
    attempts the broker has made, an attempt that fails leaves the job's
    row with [attempts] one more than the broker's count, [max_retries] as
    it was, and status [failed]; no status of the code is stored as
    "dead". *)
Theorem failed_attempt_is_marked_failed
    (taskType : TaskType) (job : Job) (c : Chance) (w : World)
    (i : string) (r : TaskRow) (e : string) :
  faults w = [] ->
  t_id (job_data job) = Some i ->
  lookup i w = Some r ->
  fst (process taskType job c w) = Throw e ->
  exists r',
    lookup i (snd (process taskType job c w)) = Some r'
    /\ attempts r' = attemptsMade job + 1
    /\ max_retries r' = max_retries r
    /\ status r' = failed
    /\ forall s : TaskStatus, status_name s <> "dead".
Proof.
  intros Hf Hid Hr Hthrow.
  destruct (failed_attempt_row taskType job c w i r e Hf Hid Hr Hthrow)
    as (r' & Hr' & Ha & Hm & Hs).
  exists r'. repeat split; try assumption. apply status_never_dead.
Qed.

Lemma failed_attempt_is_marked_failed_witness :
  exists r',
    lookup "t-1"
      (snd (process api_integration
              (after_attempts 3 (queued_job default_env "t-1" sample_api_task))
              unlucky
              (snd (addTask default_env "u" sample_api_task fresh_world))))
    = Some r'
    /\ attempts r' = 3 + 1
    /\ max_retries r' = 3
    /\ status r' = failed
    /\ forall s : TaskStatus, status_name s <> "dead".
Proof.
  apply (failed_attempt_is_marked_failed api_integration
            (after_attempts 3 (queued_job default_env "t-1" sample_api_task))
            unlucky
            (snd (addTask default_env "u" sample_api_task fresh_world))
            "t-1" (inserted_row 0 "t-1" sample_api_task)
            "API call failed: https://api.example.com/webhook returned 500");
    reflexivity.
Defined.

(** C1 (as stated) fails: an API task is submitted, which stores
    [max_retries = 3] and queues the job with 5 attempts; its first four
    attempts fail.  Then [attempts = 4 = max_retries + 1], the last attempt
    failed, and the status is [failed], not dead.  After a failed fifth
    attempt [attempts] is 5, above [max_retries + 1]. *)
Lemma exhausted_job_is_not_dead :
  let w := snd (addTask default_env "u" sample_api_task fresh_world) in
  let job := queued_job default_env "t-1" sample_api_task in
  let w3 := unlucky_attempts api_integration job 3 w in
  let w4 := unlucky_attempts api_integration job 4 w in
  let w5 := unlucky_attempts api_integration job 5 w in
  jo_attempts (job_opts job) = 5
  /\ fst (process api_integration (after_attempts 3 job) unlucky w3)
     = Throw "API call failed: https://api.example.com/webhook returned 500"
  /\ option_map max_retries (lookup "t-1" w4) = Some 3
  /\ option_map attempts (lookup "t-1" w4) = Some (3 + 1)
  /\ option_map (fun r => status_name (status r)) (lookup "t-1" w4) = Some "failed"
  /\ "failed" <> "dead"
  /\ option_map attempts (lookup "t-1" w5) = Some 5
  /\ 5 > 3 + 1.
Proof. cbv zeta. repeat split; try reflexivity. discriminate. Qed.




(* ===================================================================== *)
(** ** The two writes of an attempt *)
(* ===================================================================== *)

Lemma query_next {A} (s : M A) (w : World) :
  query s w =
    if rejected 0 w
    then (Throw "Connection terminated unexpectedly", consumed 1 w)
    else s (consumed 1 w).
Proof.
  unfold query, rejected, consumed.
  destruct (faults w) as [|[|] rest] eqn:E; simpl; try reflexivity.
  rewrite <- E at 1. destruct w; reflexivity.
Qed.

Lemma updateTaskStatus_next (i : string) (st : TaskStatus) (p : TaskPatch)
    (w : World) :
  progress_allowed p = true ->
  updateTaskStatus i st p w =
    if rejected 0 w
    then (Throw "Connection terminated unexpectedly", consumed 1 w)
    else (Ok tt,
          set_tasks (updated_rows i (clock w) st p (tasks w)) (consumed 1 w)).
Proof.
  intro Hp. unfold updateTaskStatus, bind, now. cbv beta iota.
  rewrite query_next. destruct (rejected 0 w); [reflexivity|].
  rewrite Hp, andb_false_r. reflexivity.
Qed.

Lemma saveTaskResult_next (res : TaskResult) (w : World) :
  existsb (has_id (r_taskId res)) (tasks w) = true ->
  saveTaskResult res w =
    if rejected 0 w
    then (Throw "Connection terminated unexpectedly", consumed 1 w)
    else (Ok tt,
          set_task_results (task_results w ++ [result_row res (clock w)])
            (consumed 1 w)).
Proof.
  intro Hex. unfold saveTaskResult, bind, now. cbv beta iota zeta.
  rewrite query_next. destruct (rejected 0 w); [reflexivity|].
  cbn [tasks consumed set_faults]. rewrite Hex. reflexivity.
Qed.

Lemma rejected_later (k j : nat) (w w0 : World) :
  faults w = skipn k (faults w0) -> rejected j w = rejected (k + j) w0.
Proof.
  unfold rejected. intros ->. revert k. generalize (faults w0).
  intros l k. revert l. induction k as [|k IH]; intro l.
  - reflexivity.
  - destruct l as [|b l]; simpl; [destruct j; reflexivity | apply IH].
Qed.

Lemma status_after_update (i : string) (t : Z) (st : TaskStatus) (p : TaskPatch)
    (w : World) :
  existsb (has_id i) (tasks w) = true ->
  option_map status
    (find (has_id i) (updated_rows i t st p (tasks w))) = Some st.
Proof.
  intro Hex. unfold updated_rows.
  induction (tasks w) as [|r l IH]; simpl in *; [discriminate|].
  destruct (has_id i r) eqn:E.
  - simpl. unfold has_id in *. cbn [id apply_update]. rewrite E. reflexivity.
  - rewrite E. simpl in Hex. apply IH. exact Hex.
Qed.

(** The [catch] block, run in a world that has seen [k] more queries
    than [w0] and no other change to the results or the clock. *)
Lemma catch_block_leaves (i : string) (job : Job) (startTime : Z) (e : string)
    (k : nat) (w w0 : World) :
  existsb (has_id i) (tasks w) = true ->
  faults w = skipn k (faults w0) ->
  task_results w = task_results w0 ->
  clock w = clock w0 ->
  seen i
    (snd
       (let (o, w') :=
          updateTaskStatus i failed
            {| p_startedAt := None; p_completedAt := None;
               p_failedAt := Some (clock w); p_attempts := None;
               p_progress := None; p_result := None; p_error := Some e |} w in
        match o with
        | Ok _ =>
            let (o0, w'0) :=
              saveTaskResult
                {| r_taskId := i; r_success := false; r_data := None;
                   r_error := Some e; r_duration := clock w - startTime;
                   r_attempts := attemptsMade job + 1 |} w' in
            match o0 with
            | Ok _ => @throw TaskResult e w'0
            | Throw e' => (Throw e', w'0)
            end
        | Throw e' => (Throw e', w')
        end))
  = after_catch_block i job startTime e k (option_map status (lookup i w)) w0.
Proof.
  intros Hex Hf HR HC.
  unfold after_catch_block.
  rewrite <- (Nat.add_0_r k) at 1.
  rewrite <- (rejected_later k 0 w w0 Hf).
  replace (S k) with (k + 1)%nat by apply Nat.add_1_r.
  rewrite <- (rejected_later k 1 w w0 Hf).
  rewrite updateTaskStatus_next by reflexivity.
  destruct (rejected 0 w) eqn:R0.
  - cbn [snd]. unfold seen. cbn [task_results consumed set_faults].
    rewrite HR. reflexivity.
  - rewrite saveTaskResult_next
      by (cbn [tasks set_tasks r_taskId]; rewrite existsb_updated; exact Hex).
    rewrite (rejected_later 1 0 _ w) by reflexivity. cbn [Nat.add].
    unfold seen, lookup.
    destruct (rejected 1 w) eqn:R1; unfold throw; cbn [snd tasks task_results
      set_tasks set_task_results consumed set_faults clock];
      rewrite (status_after_update i _ failed _ w Hex), HR, ?HC; reflexivity.
Qed.

(** C4 (as the code has it).  The status update and the append of the
    result are separate queries, the update first, and nothing joins them:
    what an attempt leaves of the job's status and of the results table
    depends on which of them the connection rejects.  Take any of the six
    processors, and let the update to [active] and the handler's work end
    in the world [w2], where the job's row exists.  If they threw, the
    [catch] block runs with that error: when its update is rejected nothing
    is written and no append is sent; when the update goes through the
    status is [failed], with the failure row appended exactly when the
    append goes through too.  If the handler returned, the update to
    [completed] and the append of the success row follow: when both go
    through the status is [completed] and the success row is there; when
    the update is rejected no append is sent, and when the update goes
    through and the append is rejected the status [completed] is in effect
    without a result row; either way the [catch] block then runs with the
    connection's error as above, so that a job whose handler returned ends
    as [failed] with a failure row when the two queries of the [catch]
    block go through. *)
Theorem status_update_and_result_are_separate_writes
    (taskType : TaskType) (job : Job) (c : Chance) (work : M Json)
    (w w2 : World) (i : string) (out : Outcome Json) :
  process taskType job c = attempt job work ->
  t_id (job_data job) = Some i ->
  (updateTaskStatus i active (active_patch (clock w) job) ;; work) w = (out, w2) ->
  existsb (has_id i) (tasks w2) = true ->
  let final := snd (process taskType job c w) in
  let message := "Connection terminated unexpectedly" in
  match out with
  | Throw e =>
      seen i final
      = after_catch_block i job (clock w) e 0 (option_map status (lookup i w2)) w2
  | Ok resultData =>
      if rejected 0 w2 then
        seen i final
        = after_catch_block i job (clock w) message 1
            (option_map status (lookup i w2)) w2
      else if rejected 1 w2 then
        seen i final
        = after_catch_block i job (clock w) message 2 (Some completed) w2
      else
        seen i final
        = (Some completed,
           (task_results w2
            ++ [success_row i resultData (clock w2 - clock w)
                  (attemptsMade job + 1) (clock w2)])%list)
  end.
Proof.
  intros Hproc Hid Hrun Hex final message. subst final. rewrite Hproc.
  unfold attempt, task_id. rewrite Hid. cbn [or_else].
  unfold bind in Hrun.
  unfold try_catch, bind, now. cbv beta iota.
  change {| p_startedAt := Some (clock w); p_completedAt := None;
            p_failedAt := None; p_attempts := Some (attemptsMade job + 1);
            p_progress := None; p_result := None; p_error := None |}
    with (active_patch (clock w) job).
  destruct (updateTaskStatus i active (active_patch (clock w) job) w)
    as [[[]|e0] w1] eqn:E1.
  2:{ inversion Hrun; subst out w2.
      rewrite updateTaskStatus_next in E1 by reflexivity.
      destruct (rejected 0 w); inversion E1; subst e0 w1.
      apply (catch_block_leaves i job (clock w) _ 0 (consumed 1 w) (consumed 1 w));
        auto. }
  rewrite Hrun.
  destruct out as [d|e].
  2:{ apply (catch_block_leaves i job (clock w) e 0 w2 w2); auto. }
  rewrite updateTaskStatus_next by reflexivity.
  destruct (rejected 0 w2) eqn:R0.
  - apply (catch_block_leaves i job (clock w) message 1 (consumed 1 w2) w2);
      auto.
  - rewrite saveTaskResult_next
      by (cbn [tasks set_tasks r_taskId]; rewrite existsb_updated; exact Hex).
    rewrite (rejected_later 1 0 _ w2) by reflexivity. cbn [Nat.add].
    destruct (rejected 1 w2) eqn:R1.
    + match goal with
      | |- seen i (snd (let (_, _) := updateTaskStatus _ _ _ ?w3 in _)) = _ =>
          assert (Hex3 : existsb (has_id i) (tasks w3) = true)
            by (cbn [tasks set_tasks consumed set_faults];
                rewrite existsb_updated; exact Hex);
          assert (Hst3 : option_map status (lookup i w3) = Some completed)
            by (unfold lookup; cbn [tasks set_tasks consumed set_faults];
                apply status_after_update; exact Hex);
          rewrite <- Hst3;
          apply (catch_block_leaves i job (clock w) message 2 w3 w2 Hex3);
          first [ reflexivity
                | cbn [faults consumed set_faults set_tasks];
                  rewrite skipn_skipn; reflexivity ]
      end.
    + unfold ret, seen, lookup.
      cbn [snd tasks task_results set_tasks set_task_results consumed set_faults].
      rewrite (status_after_update i _ completed _ w2 Hex). reflexivity.
Qed.

Lemma status_update_and_result_are_separate_writes_witness :
  seen "t-2"
    (snd (process email_notification
            (queued_job default_env "t-2" sample_no_retry_task) lucky
            flaky_world))
  = (Some failed,
     [failure_row "t-2" "Connection terminated unexpectedly" 700 1 700]).
Proof.
  exact (status_update_and_result_are_separate_writes email_notification
           (queued_job default_env "t-2" sample_no_retry_task) lucky
           (email_work (queued_job default_env "t-2" sample_no_retry_task) lucky)
           flaky_world
           (snd ((updateTaskStatus "t-2" active
                    (active_patch (clock flaky_world)
                       (queued_job default_env "t-2" sample_no_retry_task)) ;;
                  email_work (queued_job default_env "t-2" sample_no_retry_task)
                    lucky) flaky_world))
           "t-2"
           (fst ((updateTaskStatus "t-2" active
                    (active_patch (clock flaky_world)
                       (queued_job default_env "t-2" sample_no_retry_task)) ;;
                  email_work (queued_job default_env "t-2" sample_no_retry_task)
                    lucky) flaky_world))
           eq_refl eq_refl eq_refl eq_refl).
Defined.

(** C4 (as stated) fails: the first attempt of a stored e-mail job fails,
    the update to [failed] goes through and the connection rejects the
    append of the result.  The attempt ends with the status update in
    effect and no row in [task_results]. *)
Lemma status_written_without_result :
  let out :=
    processEmailNotification
      (queued_job default_env "t-2" sample_no_retry_task) unlucky flaky_world in
  fst out = Throw "Connection terminated unexpectedly"
  /\ option_map status (lookup "t-2" flaky_world) = Some waiting
  /\ option_map status (lookup "t-2" (snd out)) = Some failed
  /\ option_map error (lookup "t-2" (snd out))
     = Some (Some "SMTP server temporarily unavailable")
  /\ task_results flaky_world = []
  /\ task_results (snd out) = [].
Proof. cbv zeta. repeat split; reflexivity. Qed.

(* ===================================================================== *)
(** ** Runs on sample worlds *)
(* ===================================================================== *)

(** One API task is waiting and the broker does not answer for the image
    queue: the image entry is all zeros, the API entry counts the job, and
    [GET /stats/queues] answers 200. *)
Example offline_queue_is_zeroed :
  let w := broker_down image_processing
             (snd (addTask default_env "u" sample_api_task fresh_world)) in
  fst (getQueueStats image_processing w) = Throw "Connection is closed."
  /\ stats_entry w image_processing = zero_stats
  /\ qs_waiting (stats_entry w api_integration) = 1
  /\ res_status (fst (get_stats_queues w)) = 200.
Proof. cbv zeta. repeat split; reflexivity. Qed.

(** A handler that succeeds at once completes the job with [attempts = 1]
    and one result row. *)
Example first_attempt_succeeds :
  let w := snd (addTask default_env "u" sample_api_task fresh_world) in
  let out := process api_integration
               (queued_job default_env "t-1" sample_api_task) lucky w in
  option_map r_success (match fst out with Ok res => Some res | Throw _ => None end)
    = Some true
  /\ option_map status (lookup "t-1" (snd out)) = Some completed
  /\ option_map attempts (lookup "t-1" (snd out)) = Some 1
  /\ List.length (task_results (snd out)) = 1%nat.
Proof. cbv zeta. repeat split; reflexivity. Qed.

(** The same job once completed, read through the two metric paths with
    the uptime set to 0, which no served request sees: the expression of
    the route gives an infinity there, the monitor 0. *)
Example throughput_at_zero_uptime :
  let w := snd (process api_integration
                  (queued_job default_env "t-1" sample_api_task) lucky
                  (snd (addTask default_env "u" sample_api_task fresh_world))) in
  (exists m, res_body (fst (get_stats_system 0 w)) = SystemBody m
             /\ res_status (fst (get_stats_system 0 w)) = 200
             /\ completedTasks (dbMetrics m) = 1
             /\ throughput m = Infinity)
  /\ (exists m, fst (collectMetrics 0 w) = Ok m /\ throughput m = Finite 0).
Proof.
  cbv zeta. split; eexists; repeat split; reflexivity.
Qed.

(* ===================================================================== *)
(** ** Creating a task: the store and the broker *)
(* ===================================================================== *)

Lemma lookup_app_other (j : string) (rows : list TaskRow) (r : TaskRow) (w : World) :
  has_id j r = false ->
  lookup j (set_tasks (rows ++ [r]) w) = find (has_id j) rows.
Proof.
  intro Hj. unfold lookup. simpl. induction rows as [|a l IH]; simpl.
  - rewrite Hj. reflexivity.
  - destruct (has_id j a); [reflexivity | exact IH].
Qed.

Lemma createTask_ok (task : Task) (i : string) (w : World) :
  faults w = [] -> t_id task = Some i -> lookup i w = None ->
  between 1 10 (t_priority task) = true ->
  createTask task w =
    (Ok i, set_tasks (tasks w ++ [inserted_row (clock w) i task]) w).
Proof.
  intros Hf Hid Hnew Hp. apply lookup_none_existsb in Hnew.
  unfold createTask, bind, now, query. rewrite Hf, Hid, Hnew, Hp. reflexivity.
Qed.

(** X1.  Insert then look up: on a store that answers, creating a task
    that the columns can hold (an id of at most 255 characters,
    [max_retries] within INTEGER, no NUL character, a creation date
    between 1970 and 9999), whose id is new and whose priority lies in
    1..10, returns the id; the row found under that id afterwards is the
    inserted one, with status [waiting] unless the task names one,
    [attempts] 0, [progress] 0, no timestamps of execution and
    [max_retries] the task's own, or 3 when it has none or 0, all within
    what the columns hold; every other id is found as before and the
    results table and the queues are untouched. *)
Theorem createTask_then_lookup (task : Task) (i : string) (w : World) :
  faults w = [] -> t_id task = Some i -> lookup i w = None ->
  between 1 10 (t_priority task) = true ->
  storable i task (clock w) = true ->
  exists w' r,
    createTask task w = (Ok i, w')
    /\ lookup i w' = Some r
    /\ id r = i /\ type r = t_type task /\ priority r = t_priority task
    /\ data r = t_data task
    /\ status r = or_else (t_status task) waiting
    /\ attempts r = 0 /\ progress r = 0
    /\ started_at r = None /\ completed_at r = None /\ failed_at r = None
    /\ max_retries r = or_number (t_maxRetries task) 3
    /\ (String.length (id r) <= 255)%nat
    /\ -2147483648 <= max_retries r <= 2147483647
    /\ 0 <= created_at r <= 253402300799999
    /\ (forall j, j <> i -> lookup j w' = lookup j w)
    /\ task_results w' = task_results w /\ queues w' = queues w.
Proof.
  intros Hf Hid Hnew Hp Hfit.
  unfold storable, between in Hfit.
  repeat (apply andb_prop in Hfit; destruct Hfit as [Hfit ?]).
  exists (set_tasks (tasks w ++ [inserted_row (clock w) i task]) w).
  exists (inserted_row (clock w) i task).
  split; [apply createTask_ok; assumption|]. split.
  - unfold lookup in *. simpl. apply find_app_new; [exact Hnew|].
    unfold has_id. simpl. apply String.eqb_refl.
  - cbn [id type priority data status attempts progress started_at
         completed_at failed_at max_retries created_at inserted_row].
    repeat match goal with
           | H : Z.leb _ _ = true |- _ => apply Z.leb_le in H
           | H : Nat.leb _ _ = true |- _ => apply Nat.leb_le in H
           end.
    repeat (split; [first [reflexivity | assumption | lia]|]).
    split; [|split; reflexivity].
    intros j Hj. apply lookup_app_other.
    unfold has_id. simpl. apply String.eqb_neq. congruence.
Qed.

Lemma createTask_then_lookup_witness :
  exists w' r,
    createTask sample_api_task fresh_world = (Ok "t-1", w')
    /\ lookup "t-1" w' = Some r
    /\ id r = "t-1" /\ type r = api_integration /\ priority r = 5
    /\ data r = sample_api_data
    /\ status r = waiting
    /\ attempts r = 0 /\ progress r = 0
    /\ started_at r = None /\ completed_at r = None /\ failed_at r = None
    /\ max_retries r = 3
    /\ (String.length (id r) <= 255)%nat
    /\ -2147483648 <= max_retries r <= 2147483647
    /\ 0 <= created_at r <= 253402300799999
    /\ (forall j, j <> "t-1" -> lookup j w' = lookup j fresh_world)
    /\ task_results w' = task_results fresh_world
    /\ queues w' = queues fresh_world.
Proof.
  apply (createTask_then_lookup sample_api_task "t-1" fresh_world); reflexivity.
Defined.

(** X2.  What [createTask] refuses: a task without id, a task whose id a
    row already has, and a task whose priority is outside 1..10.  Each
    time it throws and the world is exactly as before. *)
Theorem createTask_rejects (task : Task) (w : World) :
  faults w = [] ->
  t_id task = None
  \/ (exists i r, t_id task = Some i /\ lookup i w = Some r)
  \/ between 1 10 (t_priority task) = false ->
  exists e, createTask task w = (Throw e, w).
Proof.
  intros Hf Hbad. unfold createTask, bind, now, query. rewrite Hf.
  destruct Hbad as [Hnone | [(i & r & Hid & Hr) | Hprio]].
  - rewrite Hnone. eexists. reflexivity.
  - rewrite Hid, (lookup_some_existsb i w r Hr). eexists. reflexivity.
  - destruct (t_id task) as [i|]; [|eexists; reflexivity].
    destruct (existsb (has_id i) (tasks w)); [eexists; reflexivity|].
    rewrite Hprio. eexists. reflexivity.
Qed.

Lemma createTask_rejects_witness :
  exists e, createTask sample_bad_priority fresh_world = (Throw e, fresh_world).
Proof.
  apply (createTask_rejects sample_bad_priority fresh_world);
    [reflexivity | right; right; reflexivity].
Defined.

Lemma createTask_keeps_queues (task : Task) (w : World) :
  queues (snd (createTask task w)) = queues w
  /\ task_results (snd (createTask task w)) = task_results w.
Proof.
  unfold createTask, bind, now, query.
  destruct (faults w) as [|[|] rest]; simpl;
    destruct (t_id task) as [i|]; simpl; try (split; reflexivity);
    destruct (existsb (has_id i) _); simpl; try (split; reflexivity);
    destruct (negb (between 1 10 (t_priority task))); split; reflexivity.
Qed.

(** X3.  [addTask] stores before it queues and does not undo: when the
    store accepts the task but the queue of its type is missing or the
    broker does not answer, [addTask] throws, no queue has changed, and
    the row is in the table all the same. *)
Theorem addTask_failed_enqueue_leaves_row
    (env : Env) (uuid : string) (task : Task) (w : World) :
  faults w = [] ->
  lookup (or_string (t_id task) uuid) w = None ->
  between 1 10 (t_priority task) = true ->
  queues_get (t_type task) w = None
  \/ (exists q, queues_get (t_type task) w = Some q /\ q_online q = false) ->
  let i := or_string (t_id task) uuid in
  exists e w',
    addTask env uuid task w = (Throw e, w')
    /\ lookup i w' = Some (inserted_row (clock w) i (with_id i task))
    /\ queues w' = queues w
    /\ task_results w' = task_results w.
Proof.
  intros Hf Hnew Hp Hq i.
  unfold addTask. fold i. unfold bind at 1.
  rewrite (createTask_ok (with_id i task) i w Hf eq_refl Hnew Hp).
  assert (Hrow : lookup i (set_tasks (tasks w ++ [inserted_row (clock w) i (with_id i task)]) w)
                 = Some (inserted_row (clock w) i (with_id i task))).
  { unfold lookup in *. simpl. apply find_app_new; [exact Hnew|].
    unfold has_id. simpl. apply String.eqb_refl. }
  destruct Hq as [Hq | (q & Hq & Hoff)].
  - change (queues_get (t_type task) (set_tasks _ w))
      with (queues_get (t_type task) w). rewrite Hq.
    eexists. eexists. split; [reflexivity|]. auto.
  - change (queues_get (t_type task) (set_tasks _ w))
      with (queues_get (t_type task) w). rewrite Hq.
    unfold bind, queue_add, on_queue.
    change (queues_get (t_type task) (set_tasks _ w))
      with (queues_get (t_type task) w). rewrite Hq, Hoff.
    eexists. eexists. split; [reflexivity|]. auto.
Qed.

Lemma addTask_failed_enqueue_leaves_row_witness :
  exists e w',
    addTask default_env "u" sample_api_task
      (broker_down api_integration fresh_world) = (Throw e, w')
    /\ lookup "t-1" w'
       = Some (inserted_row (clock (broker_down api_integration fresh_world)) "t-1"
                 (with_id "t-1" sample_api_task))
    /\ queues w' = queues (broker_down api_integration fresh_world)
    /\ task_results w' = task_results (broker_down api_integration fresh_world).
Proof.
  apply (addTask_failed_enqueue_leaves_row default_env "u" sample_api_task
           (broker_down api_integration fresh_world));
    try reflexivity.
  right. eexists. split; reflexivity.
Defined.

(** X4.  When the store refuses the task, whatever the reason, [addTask]
    throws that same error and nothing is queued: the queues and the
    results table are as before. *)
Theorem addTask_store_error_queues_nothing
    (env : Env) (uuid : string) (task : Task) (w w' : World) (e : string) :
  createTask (with_id (or_string (t_id task) uuid) task) w = (Throw e, w') ->
  addTask env uuid task w = (Throw e, w')
  /\ queues w' = queues w
  /\ task_results w' = task_results w.
Proof.
  intro Hc. split.
  - unfold addTask, bind. rewrite Hc. reflexivity.
  - pose proof (createTask_keeps_queues
                  (with_id (or_string (t_id task) uuid) task) w) as H.
    rewrite Hc in H. exact H.
Qed.

Lemma addTask_store_error_queues_nothing_witness :
  addTask default_env "u" sample_bad_priority fresh_world
    = (Throw "new row violates check constraint on priority", fresh_world)
  /\ queues fresh_world = queues fresh_world
  /\ task_results fresh_world = task_results fresh_world.
Proof.
  apply (addTask_store_error_queues_nothing default_env "u" sample_bad_priority
           fresh_world fresh_world).
  reflexivity.
Defined.

(** X5.  Success of [addTask] means both writes are done: if it returns
    an id, that id is the task's own (or the generated one), no row had it
    before, the priority lies in 1..10, the table has gained exactly the
    new row, and the queue of the task's type has gained exactly the new
    job, with no attempt made, among its waiting jobs, wherever the broker
    places it; the other jobs of the queue and its pause flag are as
    before. *)
Theorem addTask_success_means_stored_and_queued
    (env : Env) (uuid : string) (task : Task) (w w' : World) (i : string) :
  addTask env uuid task w = (Ok i, w') ->
  i = or_string (t_id task) uuid
  /\ lookup i w = None
  /\ between 1 10 (t_priority task) = true
  /\ tasks w' = (tasks w ++ [inserted_row (clock w) i (with_id i task)])%list
  /\ task_results w' = task_results w
  /\ attemptsMade (queued_job env i task) = 0
  /\ exists q q',
       queues_get (t_type task) w = Some q
       /\ queues_get (t_type task) w' = Some q'
       /\ Permutation (q_waiting q') (queued_job env i task :: q_waiting q)
       /\ q_active q' = q_active q /\ q_completed q' = q_completed q
       /\ q_failed q' = q_failed q /\ q_delayed q' = q_delayed q
       /\ q_paused q' = q_paused q.
Proof.
  intro H.
  destruct (addTask_inv _ _ _ _ _ _ H) as (Hi & Hnew & Hp & HT & HR & _).
  repeat (split; [assumption || reflexivity|]).
  apply (addTask_gains_job env uuid task w w' i H).
Qed.

Lemma addTask_success_means_stored_and_queued_witness :
  "t-1" = or_string (t_id sample_api_task) "u"
  /\ lookup "t-1" fresh_world = None
  /\ between 1 10 (t_priority sample_api_task) = true
  /\ tasks (snd (addTask default_env "u" sample_api_task fresh_world))
     = (tasks fresh_world
        ++ [inserted_row (clock fresh_world) "t-1" (with_id "t-1" sample_api_task)])%list
  /\ task_results (snd (addTask default_env "u" sample_api_task fresh_world))
     = task_results fresh_world
  /\ attemptsMade (queued_job default_env "t-1" sample_api_task) = 0
  /\ exists q q',
       queues_get (t_type sample_api_task) fresh_world = Some q
       /\ queues_get (t_type sample_api_task)
            (snd (addTask default_env "u" sample_api_task fresh_world)) = Some q'
       /\ Permutation (q_waiting q')
            (queued_job default_env "t-1" sample_api_task :: q_waiting q)
       /\ q_active q' = q_active q /\ q_completed q' = q_completed q
       /\ q_failed q' = q_failed q /\ q_delayed q' = q_delayed q
       /\ q_paused q' = q_paused q.
Proof.
  apply (addTask_success_means_stored_and_queued default_env "u" sample_api_task
           fresh_world). reflexivity.
Defined.

(** X6.  The answers of [POST /tasks], for every body whose type, when
    present, is a string and whose priority, when present, is an integer,
    and for every state of the store and the broker: the status is 201,
    400 or 500; it is 400 exactly when the body fails the checks (type
    missing, empty or unknown, data missing or falsy, priority outside
    1..10), and then nothing at all has changed; it is 201 only with the
    generated id in the body and the task stored under that id with status
    [waiting]. *)
Theorem post_tasks_outcomes
    (env : Env) (uuid : string) (body : TaskRequest) (w : World) :
  let out := post_tasks env uuid body w in
  (res_status (fst out) = 400 <-> passes_validation body = false)
  /\ (res_status (fst out) = 400 -> snd out = w)
  /\ (res_status (fst out) = 201 \/ res_status (fst out) = 400
      \/ res_status (fst out) = 500)
  /\ (res_status (fst out) = 201 ->
        res_body (fst out) = CreatedBody uuid "Task created successfully"
        /\ exists r, lookup uuid (snd out) = Some r
                     /\ status r = waiting
                     /\ priority r = or_else (b_priority body) 5).
Proof.
  cbv zeta. unfold post_tasks, passes_validation.
  destruct (b_type body) as [type|], (b_data body) as [data|];
    try (unfold handler, ret, respond; simpl;
         repeat split; auto; intros; discriminate).
  destruct (String.eqb type "") eqn:Ety; simpl;
    [unfold handler, ret, respond; simpl;
     repeat split; auto; intros; discriminate|].
  destruct (truthy data) eqn:Edata; simpl;
    [|unfold handler, ret, respond; simpl;
      repeat split; auto; intros; discriminate].
  destruct (parse_type type) as [taskType|] eqn:Eparse; simpl;
    [|unfold handler, ret, respond; simpl;
      repeat split; auto; intros; discriminate].
  set (p := or_else (b_priority body) 5).
  assert (Hrange : between 1 10 p = negb (Z.ltb p 1 || Z.ltb 10 p)).
  { unfold between. rewrite negb_orb. f_equal.
    - rewrite Z.leb_antisym. reflexivity.
    - rewrite Z.ltb_antisym, negb_involutive. reflexivity. }
  rewrite Hrange.
  destruct (Z.ltb p 1 || Z.ltb 10 p) eqn:Eout; simpl;
    [unfold handler, ret, respond; simpl;
     repeat split; auto; intros; discriminate|].
  unfold handler, bind, now. cbv beta iota.
  destruct (addTask env uuid _ w) as [[i|e] w'] eqn:Hadd; simpl.
  - destruct (addTask_inv _ _ _ _ _ _ Hadd) as (Hi & Hnew & _ & HT & _).
    cbn [t_id] in Hi. rewrite or_string_same in Hi. subst i.
    repeat split; auto; try (intros; discriminate).
    exists (inserted_row (clock w) uuid
              (with_id uuid
                 {| t_id := Some uuid; t_type := taskType; t_priority := p;
                    t_data := data; t_status := Some waiting;
                    t_createdAt := Some (clock w); t_maxRetries := None |})).
    split; [|split; reflexivity].
    unfold lookup in *. rewrite HT. apply find_app_new; [exact Hnew|].
    unfold has_id. simpl. apply String.eqb_refl.
  - repeat split; auto; intros; discriminate.
Qed.

(* ===================================================================== *)
(** ** What an attempt can and cannot change *)
(* ===================================================================== *)

Lemma preserves_try_catch (P : World -> Prop) {A} (c : M A) (h : string -> M A) :
  preserves P c -> (forall e, preserves P (h e)) -> preserves P (try_catch c h).
Proof.
  intros Hc Hh w H. unfold try_catch. specialize (Hc w H).
  destruct (c w) as [[a|e] w1]; simpl in *; [exact Hc | apply Hh; exact Hc].
Qed.

Ltac preserves_steps :=
  repeat first
    [ solve [auto with keeps_db]
    | apply preserves_for_each; intro
    | apply preserves_try_catch; [|intro]
    | apply preserves_bind; [|intro] ].

(** A property of the world that sleeping, the status updates of the job
    and the result inserts maintain is maintained by the whole attempt,
    for each of the six processors. *)
Lemma process_preserves (P : World -> Prop) (taskType : TaskType) (job : Job)
    (c : Chance) :
  (forall d, preserves P (sleep d)) ->
  (forall st p, preserves P (updateTaskStatus (task_id (job_data job)) st p)) ->
  (forall res, preserves P (saveTaskResult res)) ->
  preserves P (process taskType job c).
Proof.
  intros Hsleep Hupd Hsave.
  destruct taskType; unfold process, processEmailNotification,
    processImageProcessing, processFileProcessing, processDataExport,
    processApiIntegration, processCleanupTasks, attempt,
    simulateEmailSending, simulateImageProcessing, simulateFileProcessing,
    simulateDataExport, simulateApiCall, simulateCleanupTask; cbv zeta;
    preserves_steps.
  destruct (fails c); preserves_steps.
Qed.

Lemma updateTaskStatus_effect (i : string) (st : TaskStatus) (p : TaskPatch)
    (w : World) :
  (tasks (snd (updateTaskStatus i st p w)) = tasks w
   \/ tasks (snd (updateTaskStatus i st p w))
      = updated_rows i (clock w) st p (tasks w))
  /\ task_results (snd (updateTaskStatus i st p w)) = task_results w
  /\ queues (snd (updateTaskStatus i st p w)) = queues w
  /\ clock (snd (updateTaskStatus i st p w)) = clock w.
Proof.
  unfold updateTaskStatus, bind, now, query.
  destruct (faults w) as [|[|] rest]; simpl;
    try destruct (existsb (has_id i) (tasks w) && negb (progress_allowed p));
    simpl; auto.
Qed.

Lemma saveTaskResult_effect (res : TaskResult) (w : World) :
  tasks (snd (saveTaskResult res w)) = tasks w
  /\ queues (snd (saveTaskResult res w)) = queues w
  /\ clock (snd (saveTaskResult res w)) = clock w
  /\ ((fst (saveTaskResult res w) = Ok tt
       /\ task_results (snd (saveTaskResult res w))
          = (task_results w ++ [result_row res (clock w)])%list)
      \/ ((exists e, fst (saveTaskResult res w) = Throw e)
          /\ task_results (snd (saveTaskResult res w)) = task_results w)).
Proof.
  unfold saveTaskResult, bind, now, query.
  destruct (faults w) as [|[|] rest]; simpl;
    try destruct (existsb (has_id (r_taskId res)) (tasks w)); simpl;
    repeat split; eauto.
Qed.

Lemma identity_columns_updated (i : string) (t : Z) (st : TaskStatus)
    (p : TaskPatch) (rows : list TaskRow) :
  map identity_columns (updated_rows i t st p rows) = map identity_columns rows.
Proof.
  unfold updated_rows. rewrite map_map. apply map_ext.
  intro r. destruct (has_id i r); reflexivity.
Qed.

Lemma find_other_updated (i j : string) (t : Z) (st : TaskStatus)
    (p : TaskPatch) (rows : list TaskRow) :
  j <> i ->
  find (has_id j) (updated_rows i t st p rows) = find (has_id j) rows.
Proof.
  intro Hji. unfold updated_rows. induction rows as [|r l IH]; simpl.
  - reflexivity.
  - destruct (has_id i r) eqn:Ei.
    + assert (Hj : has_id j r = false).
      { unfold has_id in *. apply String.eqb_eq in Ei. apply String.eqb_neq.
        congruence. }
      unfold has_id at 1. cbn [id apply_update]. fold (has_id j r).
      rewrite Hj. exact IH.
    + destruct (has_id j r); [reflexivity | exact IH].
Qed.

Lemma process_touches_only_its_row_core
    (taskType : TaskType) (job : Job) (c : Chance) (w : World) :
  map identity_columns (tasks (snd (process taskType job c w)))
  = map identity_columns (tasks w)
  /\ (forall j, j <> task_id (job_data job) ->
        lookup j (snd (process taskType job c w)) = lookup j w)
  /\ queues (snd (process taskType job c w)) = queues w.
Proof.
  refine (conj _ (conj _ _)).
  - apply (process_preserves
             (fun w' => map identity_columns (tasks w') = map identity_columns (tasks w)));
      try reflexivity.
    + intros d w1 H. exact H.
    + intros st p w1 H.
      destruct (updateTaskStatus_effect (task_id (job_data job)) st p w1)
        as ([HT|HT] & _); rewrite HT, ?identity_columns_updated; exact H.
    + intros res w1 H.
      destruct (saveTaskResult_effect res w1) as (HT & _). rewrite HT. exact H.
  - intros j Hj.
    apply (process_preserves (fun w' => lookup j w' = lookup j w));
      try reflexivity.
    + intros d w1 H. exact H.
    + intros st p w1 H. unfold lookup in *.
      destruct (updateTaskStatus_effect (task_id (job_data job)) st p w1)
        as ([HT|HT] & _); rewrite HT, ?(find_other_updated _ _ _ _ _ _ Hj);
        exact H.
    + intros res w1 H. unfold lookup in *.
      destruct (saveTaskResult_effect res w1) as (HT & _). rewrite HT. exact H.
  - apply (process_preserves (fun w' => queues w' = queues w));
      try reflexivity.
    + intros d w1 H. exact H.
    + intros st p w1 H.
      destruct (updateTaskStatus_effect (task_id (job_data job)) st p w1)
        as (_ & _ & HQ & _). rewrite HQ. exact H.
    + intros res w1 H.
      destruct (saveTaskResult_effect res w1) as (_ & HQ & _). rewrite HQ. exact H.
Qed.

(** X7.  An attempt touches only its own row, whatever happens to the
    connection and whatever the handler draws: the table keeps the same
    rows in the same order with id, type, priority, data, creation time
    and [max_retries] unchanged; every row with another id is found
    exactly as before; and the processor never touches the queues. *)
Theorem process_touches_only_its_row
    (taskType : TaskType) (job : Job) (c : Chance) (w : World) :
  map identity_columns (tasks (snd (process taskType job c w)))
  = map identity_columns (tasks w)
  /\ (forall j, j <> task_id (job_data job) ->
        lookup j (snd (process taskType job c w)) = lookup j w)
  /\ queues (snd (process taskType job c w)) = queues w.
Proof. apply process_touches_only_its_row_core. Qed.

(** The handler's work never writes a result: the six processors are an
    [attempt] around work that keeps the results table. *)
Lemma process_work_keeps_results (R : list ResultRow) (taskType : TaskType)
    (job : Job) (c : Chance) :
  exists work,
    process taskType job c = attempt job work
    /\ preserves (fun w => task_results w = R) work.
Proof.
  assert (Hsleep : forall d, preserves (fun w => task_results w = R) (sleep d))
    by (intros d w H; exact H).
  assert (Hupd : forall i st p,
             preserves (fun w => task_results w = R) (updateTaskStatus i st p)).
  { intros i st p w H.
    destruct (updateTaskStatus_effect i st p w) as (_ & HR & _).
    rewrite HR. exact H. }
  destruct taskType; eexists; (split; [reflexivity|]); cbv zeta;
    unfold simulateEmailSending, simulateImageProcessing,
      simulateFileProcessing, simulateDataExport, simulateApiCall,
      simulateCleanupTask;
    preserves_steps.
  destruct (fails c); preserves_steps.
Qed.

(** The [catch] block of an attempt adds at most the failure row, and
    always throws. *)
Lemma catch_block_results (i e : string) (startTime n : Z) (w : World) :
  let K :=
    (let! failedNow := now in
     updateTaskStatus i failed (failed_patch failedNow e) ;;
     saveTaskResult
       {| r_taskId := i; r_success := false; r_data := None;
          r_error := Some e; r_duration := failedNow - startTime;
          r_attempts := n |} ;;
     @throw TaskResult e) in
  (exists e', fst (K w) = Throw e')
  /\ exists new,
       task_results (snd (K w)) = (task_results w ++ new)%list
       /\ (List.length new <= 1)%nat
       /\ forall row, In row new ->
            rr_task_id row = i /\ rr_attempts row = n /\ rr_success row = false.
Proof.
  cbv zeta. unfold bind, now, throw. cbv beta iota.
  pose proof (updateTaskStatus_effect i failed (failed_patch (clock w) e) w)
    as (_ & HR1 & _ & HC1).
  destruct (updateTaskStatus i failed (failed_patch (clock w) e) w)
    as [[u|e1] w1]; simpl in HR1, HC1.
  - match goal with
    | |- context [saveTaskResult ?res w1] =>
        pose proof (saveTaskResult_effect res w1) as (_ & _ & _ & Hs);
        destruct (saveTaskResult res w1) as [[u2|e2] w2]
    end; simpl in Hs.
    + destruct Hs as [[_ HR2] | [[e' He'] _]]; [|discriminate].
      split; [eexists; reflexivity|].
      eexists. split; [simpl; rewrite HR2, HR1; reflexivity|].
      split; [simpl; auto|].
      intros row [<-|[]]. repeat split.
    + destruct Hs as [[He' _] | [_ HR2]]; [discriminate|].
      split; [eexists; reflexivity|].
      exists []. split; [simpl; rewrite HR2, HR1, app_nil_r; reflexivity|].
      split; [simpl; auto|]. intros row [].
  - split; [eexists; reflexivity|].
    exists []. split; [simpl; rewrite HR1, app_nil_r; reflexivity|].
    split; [simpl; auto|]. intros row [].
Qed.

Lemma attempt_results (job : Job) (work : M Json) (w : World) :
  preserves (fun w' => task_results w' = task_results w) work ->
  exists new,
    task_results (snd (attempt job work w)) = (task_results w ++ new)%list
    /\ (List.length new <= 1)%nat
    /\ forall row, In row new ->
         rr_task_id row = task_id (job_data job)
         /\ rr_attempts row = attemptsMade job + 1
         /\ (rr_success row = true <-> exists res, fst (attempt job work w) = Ok res).
Proof.
  intro Hwork. set (i := task_id (job_data job)).
  unfold attempt. fold i.
  (* the catch block, at any world whose results are still those of [w] *)
  assert (Hcatch : forall e wc, task_results wc = task_results w ->
    let out :=
      (let! failedNow := now in
       updateTaskStatus i failed
         {| p_startedAt := None; p_completedAt := None;
            p_failedAt := Some failedNow; p_attempts := None;
            p_progress := None; p_result := None; p_error := Some e |} ;;
       saveTaskResult
         {| r_taskId := i; r_success := false; r_data := None;
            r_error := Some e; r_duration := failedNow - clock w;
            r_attempts := attemptsMade job + 1 |} ;;
       @throw TaskResult e) wc in
    exists new,
      task_results (snd out) = (task_results w ++ new)%list
      /\ (List.length new <= 1)%nat
      /\ forall row, In row new ->
           rr_task_id row = i /\ rr_attempts row = attemptsMade job + 1
           /\ (rr_success row = true <-> exists res, fst out = Ok res)).
  { intros e wc HRc. cbv zeta.
    destruct (catch_block_results i e (clock w) (attemptsMade job + 1) wc)
      as ([e' He'] & new & Hnew & Hlen & Hrows).
    unfold failed_patch in He', Hnew.
    exists new. rewrite Hnew, HRc. split; [reflexivity|]. split; [exact Hlen|].
    intros row Hin. destruct (Hrows row Hin) as (H1 & H2 & H3).
    repeat split; try assumption.
    - rewrite H3. discriminate.
    - intros [res Hres]. rewrite He' in Hres. discriminate. }
  unfold try_catch, bind, now, ret. cbv beta iota.
  match goal with
  | |- context [updateTaskStatus i active ?p w] =>
      pose proof (updateTaskStatus_effect i active p w) as (_ & HR1 & _);
      destruct (updateTaskStatus i active p w) as [[u1|e1] w1]
  end; simpl in HR1; [|apply Hcatch; exact HR1].
  pose proof (Hwork w1 HR1) as HR2.
  destruct (work w1) as [[d|e2] w2]; simpl in HR2; [|apply Hcatch; exact HR2].
  match goal with
  | |- context [updateTaskStatus i completed ?p w2] =>
      pose proof (updateTaskStatus_effect i completed p w2) as (_ & HR3 & _);
      destruct (updateTaskStatus i completed p w2) as [[u3|e3] w3]
  end; simpl in HR3; [|apply Hcatch; congruence].
  match goal with
  | |- context [saveTaskResult ?res w3] =>
      pose proof (saveTaskResult_effect res w3) as (_ & _ & _ & Hs);
      destruct (saveTaskResult res w3) as [[u4|e4] w4]
  end; simpl in Hs.
  - destruct Hs as [[_ HR4] | [[e' He'] _]]; [|discriminate].
    cbn [ret fst snd].
    eexists. split; [rewrite HR4, HR3, HR2; reflexivity|].
    split; [simpl; auto|].
    intros row [<-|[]]. simpl. repeat split. eexists. reflexivity.
  - destruct Hs as [[He' _] | [_ HR4]]; [discriminate|].
    apply Hcatch. congruence.
Qed.

(** X8.  The results table is append-only under the processors: whatever
    happens to the connection and whatever the handler draws, an attempt
    leaves the earlier result rows as they were and adds at most one row;
    that row carries the job's id and the number of the attempt, and it
    is a success row exactly when the attempt returned. *)
Theorem process_appends_at_most_one_result
    (taskType : TaskType) (job : Job) (c : Chance) (w : World) :
  exists new,
    task_results (snd (process taskType job c w)) = (task_results w ++ new)%list
    /\ (List.length new <= 1)%nat
    /\ forall row, In row new ->
         rr_task_id row = task_id (job_data job)
         /\ rr_attempts row = attemptsMade job + 1
         /\ (rr_success row = true
             <-> exists res, fst (process taskType job c w) = Ok res).
Proof.
  destruct (process_work_keeps_results (task_results w) taskType job c)
    as (work & Heq & Hwork).
  rewrite Heq. apply attempt_results. exact Hwork.
Qed.

(** The handler's work maintains whatever sleeping and the progress
    reports maintain. *)
Lemma process_work_preserves (P : World -> Prop) (taskType : TaskType)
    (job : Job) (c : Chance) :
  (forall d, preserves P (sleep d)) ->
  (forall i pct, preserves P (updateTaskStatus i active (progress_patch pct))) ->
  exists work,
    process taskType job c = attempt job work /\ preserves P work.
Proof.
  intros Hsleep Hupd.
  destruct taskType; eexists; (split; [reflexivity|]); cbv zeta;
    unfold simulateEmailSending, simulateImageProcessing,
      simulateFileProcessing, simulateDataExport, simulateApiCall,
      simulateCleanupTask;
    preserves_steps.
  destruct (fails c); preserves_steps.
Qed.

Lemma attempt_ok_world (job : Job) (work : M Json) (w w2 : World)
    (i : string) (d : Json) :
  faults w = [] ->
  t_id (job_data job) = Some i ->
  work (marked_active i job w) = (Ok d, w2) ->
  faults w2 = [] ->
  existsb (has_id i) (tasks w2) = true ->
  let res :=
    {| r_taskId := i; r_success := true; r_data := Some d; r_error := None;
       r_duration := clock w2 - clock w; r_attempts := attemptsMade job + 1 |} in
  attempt job work w =
    (Ok res,
     set_task_results (task_results w2 ++ [result_row res (clock w2)])
       (set_tasks
          (updated_rows i (clock w2) completed (completed_patch (clock w2) d)
             (tasks w2))
          w2)).
Proof.
  intros Hf Hid Hwork Hf2 Hrow res.
  unfold attempt, task_id. rewrite Hid. cbn [or_else].
  unfold try_catch, bind, now. cbv beta iota.
  rewrite (updateTaskStatus_ok i active _ w Hf) by reflexivity.
  fold (active_patch (clock w) job). fold (marked_active i job w).
  rewrite Hwork.
  rewrite (updateTaskStatus_ok i completed _ w2 Hf2) by reflexivity.
  unfold saveTaskResult, bind, now, query. cbn -[updated_rows].
  rewrite Hf2, existsb_updated, Hrow. reflexivity.
Qed.

(** What the two lemmas above give for a processor on a healthy store:
    the outcome and the world after the attempt, in both cases. *)
Lemma process_on_healthy_store (taskType : TaskType) (job : Job) (c : Chance)
    (w : World) (i : string) (r : TaskRow) :
  faults w = [] ->
  t_id (job_data job) = Some i ->
  lookup i w = Some r ->
  exists w2 r2,
    task_results w2 = task_results w
    /\ lookup i w2 = Some r2
    /\ attempts r2 = attemptsMade job + 1
    /\ max_retries r2 = max_retries r
    /\ ((exists d,
           process taskType job c w =
             (Ok {| r_taskId := i; r_success := true; r_data := Some d;
                    r_error := None; r_duration := clock w2 - clock w;
                    r_attempts := attemptsMade job + 1 |},
              set_task_results
                (task_results w2
                 ++ [result_row
                       {| r_taskId := i; r_success := true; r_data := Some d;
                          r_error := None; r_duration := clock w2 - clock w;
                          r_attempts := attemptsMade job + 1 |} (clock w2)])
                (set_tasks
                   (updated_rows i (clock w2) completed
                      (completed_patch (clock w2) d) (tasks w2)) w2)))
        \/ (exists e,
              process taskType job c w =
                (Throw e,
                 set_task_results
                   (task_results w2
                    ++ [failure_row i e (clock w2 - clock w)
                          (attemptsMade job + 1) (clock w2)])
                   (set_tasks
                      (updated_rows i (clock w2) failed
                         (failed_patch (clock w2) e) (tasks w2)) w2)))).
Proof.
  intros Hf Hid Hr.
  destruct (process_work_preserves
              (fun w' => keeps i (attemptsMade job + 1) (max_retries r) w'
                         /\ task_results w' = task_results w)
              taskType job c) as (work & Heq & Hwork).
  { intros d w1 H. exact H. }
  { intros j pct w1 [Hk HR]. split.
    - apply keeps_progress. exact Hk.
    - destruct (updateTaskStatus_effect j active (progress_patch pct) w1)
        as (_ & HR' & _). rewrite HR'. exact HR. }
  rewrite Heq.
  pose proof (Hwork (marked_active i job w)
                (conj (keeps_marked_active i job w r Hf Hr) eq_refl)) as Hkept.
  destruct (work (marked_active i job w)) as [[d|e] w2] eqn:Ework;
    simpl in Hkept; destruct Hkept as [[Hf2 (r2 & Hr2 & Ha2 & Hm2)] HR2];
    pose proof (lookup_some_existsb i w2 r2 Hr2) as Hex;
    exists w2, r2; repeat (split; [assumption|]).
  - left. exists d.
    apply (attempt_ok_world job work w w2 i d Hf Hid Ework Hf2 Hex).
  - right. exists e.
    apply (attempt_throw_path job work w w2 i e Hf Hid Ework Hf2 Hex).
Qed.

(** X9.  On a store that answers, an attempt on a job whose row exists
    is recorded exactly once: the results table gains one row, with the
    job's id, the number of the attempt, and a success flag that tells
    whether the attempt returned or threw. *)
Theorem every_attempt_records_one_result
    (taskType : TaskType) (job : Job) (c : Chance) (w : World)
    (i : string) (r : TaskRow) :
  faults w = [] ->
  t_id (job_data job) = Some i ->
  lookup i w = Some r ->
  exists row,
    task_results (snd (process taskType job c w)) = (task_results w ++ [row])%list
    /\ rr_task_id row = i
    /\ rr_attempts row = attemptsMade job + 1
    /\ rr_success row = match fst (process taskType job c w) with
                        | Ok _ => true
                        | Throw _ => false
                        end.
Proof.
  intros Hf Hid Hr.
  destruct (process_on_healthy_store taskType job c w i r Hf Hid Hr)
    as (w2 & r2 & HR & _ & _ & _ & [[d Heq] | [e Heq]]);
    rewrite Heq; cbn [fst snd task_results set_task_results]; rewrite HR;
    eexists; (split; [reflexivity|]); repeat split.
Qed.

Lemma every_attempt_records_one_result_witness :
  exists row,
    task_results
      (snd (process api_integration
              (queued_job default_env "t-1" sample_api_task) lucky
              (snd (addTask default_env "u" sample_api_task fresh_world))))
    = (task_results (snd (addTask default_env "u" sample_api_task fresh_world))
       ++ [row])%list
    /\ rr_task_id row = "t-1"
    /\ rr_attempts row = 0 + 1
    /\ rr_success row = true.
Proof.
  apply (every_attempt_records_one_result api_integration
           (queued_job default_env "t-1" sample_api_task) lucky
           (snd (addTask default_env "u" sample_api_task fresh_world))
           "t-1" (inserted_row 0 "t-1" sample_api_task));
    reflexivity.
Defined.

(** X10.  On a store that answers, an attempt that returns leaves the
    job's row completed: status [completed], [attempts] one more than the
    broker's count, [completed_at] the time the attempt ended, [result]
    the data of the returned result, no change to [max_retries]; and the
    returned result names the job, is a success, and its duration is the
    time that passed since the attempt began. *)
Theorem returned_attempt_completes_the_job
    (taskType : TaskType) (job : Job) (c : Chance) (w : World)
    (i : string) (r : TaskRow) (res : TaskResult) :
  faults w = [] ->
  t_id (job_data job) = Some i ->
  lookup i w = Some r ->
  fst (process taskType job c w) = Ok res ->
  r_taskId res = i /\ r_success res = true /\ r_error res = None
  /\ r_attempts res = attemptsMade job + 1
  /\ r_duration res = clock (snd (process taskType job c w)) - clock w
  /\ exists r',
       lookup i (snd (process taskType job c w)) = Some r'
       /\ status r' = completed
       /\ attempts r' = attemptsMade job + 1
       /\ max_retries r' = max_retries r
       /\ completed_at r' = Some (clock (snd (process taskType job c w)))
       /\ result r' = r_data res
       /\ result r' <> None.
Proof.
  intros Hf Hid Hr Hok.
  destruct (process_on_healthy_store taskType job c w i r Hf Hid Hr)
    as (w2 & r2 & HR & Hr2 & Ha2 & Hm2 & [[d Heq] | [e Heq]]);
    rewrite Heq in *; cbn [fst snd] in *; [|discriminate].
  inversion Hok; subst res.
  assert (Hid2 : has_id i r2 = true)
    by (unfold lookup in Hr2; apply find_some in Hr2; apply Hr2).
  rewrite lookup_set_task_results, lookup_updated, Hr2. simpl.
  rewrite Hid2.
  repeat (split; [reflexivity|]).
  eexists. split; [reflexivity|]. simpl.
  repeat split; try assumption. discriminate.
Qed.

Lemma returned_attempt_completes_the_job_witness :
  exists res,
    fst (process api_integration
           (queued_job default_env "t-1" sample_api_task) lucky
           (snd (addTask default_env "u" sample_api_task fresh_world))) = Ok res
    /\ r_taskId res = "t-1" /\ r_success res = true /\ r_error res = None
    /\ r_attempts res = 0 + 1
    /\ r_duration res = 700 - 0
    /\ exists r',
         lookup "t-1"
           (snd (process api_integration
                   (queued_job default_env "t-1" sample_api_task) lucky
                   (snd (addTask default_env "u" sample_api_task fresh_world))))
         = Some r'
         /\ status r' = completed
         /\ attempts r' = 0 + 1
         /\ max_retries r' = 3
         /\ completed_at r' = Some 700
         /\ result r' = r_data res
         /\ result r' <> None.
Proof.
  eexists. split; [reflexivity|].
  apply (returned_attempt_completes_the_job api_integration
           (queued_job default_env "t-1" sample_api_task) lucky
           (snd (addTask default_env "u" sample_api_task fresh_world))
           "t-1" (inserted_row 0 "t-1" sample_api_task));
    reflexivity.
Defined.

(* ===================================================================== *)
(** ** Ids stay unique *)
(* ===================================================================== *)

Lemma createTask_effect (task : Task) (w : World) :
  tasks (snd (createTask task w)) = tasks w
  \/ exists i,
       existsb (has_id i) (tasks w) = false
       /\ tasks (snd (createTask task w))
          = (tasks w ++ [inserted_row (clock w) i task])%list.
Proof.
  destruct (createTask task w) as [[i|e] w'] eqn:Hc.
  - right. exists i. destruct (createTask_inv _ _ _ _ Hc) as (_ & Hnew & _ & HT & _).
    split; [apply lookup_none_existsb; exact Hnew | exact HT].
  - left. revert Hc. unfold createTask, bind, now, query.
    destruct (faults w) as [|[|] rest]; simpl;
      destruct (t_id task) as [i|]; simpl;
      try (intro H; inversion H; reflexivity);
      destruct (existsb (has_id i) _); simpl;
      try (intro H; inversion H; reflexivity);
      destruct (negb (between 1 10 (t_priority task)));
      intro H; inversion H; reflexivity.
Qed.

Lemma addTask_tasks (env : Env) (uuid : string) (task : Task) (w : World) :
  tasks (snd (addTask env uuid task w))
  = tasks (snd (createTask (with_id (or_string (t_id task) uuid) task) w)).
Proof.
  unfold addTask, bind at 1.
  destruct (createTask _ w) as [[i|e] w1]; [|reflexivity]. simpl.
  destruct (queues_get (t_type task) w1) as [q|] eqn:Hq; [|reflexivity].
  unfold bind, queue_add, on_queue. rewrite Hq.
  destruct (q_online q); reflexivity.
Qed.

Lemma existsb_has_id_In (i : string) (rows : list TaskRow) :
  existsb (has_id i) rows = false -> ~ In i (map id rows).
Proof.
  induction rows as [|r l IH]; simpl; [tauto|].
  intro H. apply orb_false_iff in H. destruct H as [Hr Hl].
  intros [Heq | Hin]; [|exact (IH Hl Hin)].
  unfold has_id in Hr. apply String.eqb_neq in Hr. congruence.
Qed.

Lemma NoDup_snoc {A} (l : list A) (x : A) :
  NoDup l -> ~ In x l -> NoDup (l ++ [x]).
Proof.
  induction l as [|a l IH]; simpl; intros Hl Hx.
  - constructor; [intros [] | constructor].
  - inversion Hl as [|? ? Ha Hl']; subst. constructor.
    + rewrite in_app_iff. simpl. intros [Hin | [Heq | []]]; [tauto|].
      apply Hx. left. symmetry. exact Heq.
    + apply IH; [exact Hl' | tauto].
Qed.

Lemma unique_ids_createTask (task : Task) (w : World) :
  unique_ids w -> unique_ids (snd (createTask task w)).
Proof.
  unfold unique_ids. intro H.
  destruct (createTask_effect task w) as [HT | (i & Hnew & HT)]; rewrite HT.
  - exact H.
  - rewrite map_app. simpl. apply NoDup_snoc; [exact H|].
    apply existsb_has_id_In. exact Hnew.
Qed.

Lemma map_id_identity_columns (rows rows' : list TaskRow) :
  map identity_columns rows' = map identity_columns rows ->
  map id rows' = map id rows.
Proof.
  intro H.
  assert (Hid : forall l, map id l
                          = map (fun k : string * TaskType * Z * Json * Z * Z =>
                                   let '(i, _, _, _, _, _) := k in i)
                              (map identity_columns l)).
  { intro l. rewrite map_map. apply map_ext. intro r. reflexivity. }
  rewrite (Hid rows'), (Hid rows), H. reflexivity.
Qed.

(** X11.  Ids stay unique: if no two rows of the table share an id, that
    is still so after [createTask], after [addTask], after a status
    update, after an attempt of any processor and after [POST /tasks],
    whatever their arguments and whatever happens to the connection. *)
Theorem unique_ids_invariant (w : World) :
  unique_ids w ->
  (forall task, unique_ids (snd (createTask task w)))
  /\ (forall env uuid task, unique_ids (snd (addTask env uuid task w)))
  /\ (forall i st p, unique_ids (snd (updateTaskStatus i st p w)))
  /\ (forall taskType job c, unique_ids (snd (process taskType job c w)))
  /\ (forall env uuid body, unique_ids (snd (post_tasks env uuid body w))).
Proof.
  intro H. refine (conj _ (conj _ (conj _ (conj _ _)))).
  - intro task. apply unique_ids_createTask. exact H.
  - intros env uuid task. unfold unique_ids. rewrite addTask_tasks.
    apply unique_ids_createTask. exact H.
  - intros i st p. unfold unique_ids.
    destruct (updateTaskStatus_effect i st p w) as ([HT|HT] & _); rewrite HT.
    + exact H.
    + rewrite (map_id_identity_columns (tasks w)); [exact H|].
      apply identity_columns_updated.
  - intros taskType job c. unfold unique_ids.
    destruct (process_touches_only_its_row_core taskType job c w) as (Hcols & _).
    rewrite (map_id_identity_columns _ _ Hcols). exact H.
  - intros env uuid body. unfold post_tasks.
    destruct (b_type body) as [type|], (b_data body) as [data|];
      try exact H.
    destruct (String.eqb type "" || negb (truthy data)); [exact H|].
    destruct (parse_type type) as [taskType|]; [|exact H].
    destruct (_ || _); [exact H|].
    unfold handler, bind, now. cbv beta iota.
    match goal with
    | |- context [addTask env uuid ?t w] =>
        assert (Hadd : unique_ids (snd (addTask env uuid t w)))
          by (unfold unique_ids; rewrite addTask_tasks;
              apply unique_ids_createTask; exact H);
        destruct (addTask env uuid t w) as [[j|e] w']
    end; exact Hadd.
Qed.

Lemma unique_ids_invariant_witness :
  (forall task, unique_ids (snd (createTask task sample_history)))
  /\ (forall env uuid task, unique_ids (snd (addTask env uuid task sample_history)))
  /\ (forall i st p, unique_ids (snd (updateTaskStatus i st p sample_history)))
  /\ (forall taskType job c, unique_ids (snd (process taskType job c sample_history)))
  /\ (forall env uuid body, unique_ids (snd (post_tasks env uuid body sample_history))).
Proof.
  apply (unique_ids_invariant sample_history).
  unfold unique_ids. simpl.
  repeat (constructor; [simpl; intuition discriminate|]). constructor.
Defined.

(* ===================================================================== *)
(** ** Metrics when the connection fails *)
(* ===================================================================== *)

Lemma getMetrics_effect (w : World) :
  tasks (snd (getMetrics w)) = tasks w
  /\ task_results (snd (getMetrics w)) = task_results w
  /\ queues (snd (getMetrics w)) = queues w
  /\ clock (snd (getMetrics w)) = clock w
  /\ faults (snd (getMetrics w)) = skipn 6 (faults w)
  /\ ((exists m, fst (getMetrics w) = Ok m) <-> rejects_within 6 w = false)
  /\ (rejects_within 6 w = true ->
        fst (getMetrics w) = Throw "Connection terminated unexpectedly").
Proof.
  destruct w as [T R F Q C].
  unfold getMetrics, rejects_within, bind, both, select, query, ret.
  cbn [faults tasks].
  destruct F as [|[|] [|[|] [|[|] [|[|] [|[|] [|[|] F]]]]]];
    cbn -[count_where averageProcessingTime_query successRate_query];
    (split; [reflexivity|]); (split; [reflexivity|]);
    (split; [reflexivity|]); (split; [reflexivity|]);
    (split; [reflexivity|]);
    (split;
     [split;
      [intros [m Hm]; first [reflexivity | discriminate Hm]
      |intro Hx; first [discriminate Hx | eexists; reflexivity]]
     |intro Hx; first [reflexivity | discriminate Hx]]).
Qed.

(** X12.  [getMetrics] issues its six queries together: it uses up the
    next six connection outcomes whether or not one of them fails, it
    returns metrics exactly when none of the six is a rejection and
    throws the connection error otherwise, and it leaves the tables, the
    queues and the clock as they were. *)
Theorem getMetrics_issues_six_queries (w : World) :
  tasks (snd (getMetrics w)) = tasks w
  /\ task_results (snd (getMetrics w)) = task_results w
  /\ queues (snd (getMetrics w)) = queues w
  /\ clock (snd (getMetrics w)) = clock w
  /\ faults (snd (getMetrics w)) = skipn 6 (faults w)
  /\ ((exists m, fst (getMetrics w) = Ok m) <-> rejects_within 6 w = false)
  /\ (rejects_within 6 w = true ->
        fst (getMetrics w) = Throw "Connection terminated unexpectedly").
Proof. apply getMetrics_effect. Qed.

Lemma queues_get_same (t : TaskType) (w1 w : World) :
  queues w1 = queues w -> queues_get t w1 = queues_get t w.
Proof. intro H. unfold queues_get. rewrite H. reflexivity. Qed.

Lemma getQueueStats_by_queues (t : TaskType) (w1 w : World) :
  queues w1 = queues w ->
  fst (getQueueStats t w1) = fst (getQueueStats t w).
Proof.
  intro H. pose proof (queues_get_same t w1 w H) as Hg.
  destruct (queues_get t w) as [q|] eqn:Hq.
  - destruct (q_online q) eqn:Hon.
    + rewrite (getQueueStats_online t w1 q Hg Hon),
              (getQueueStats_online t w q Hq Hon). reflexivity.
    + rewrite (getQueueStats_offline t w1 q Hg Hon),
              (getQueueStats_offline t w q Hq Hon). reflexivity.
  - unfold getQueueStats. rewrite Hg, Hq. reflexivity.
Qed.

Lemma getAllQueueStats_by_queues (w1 w : World) :
  queues w1 = queues w ->
  getAllQueueStats w1
  = (Ok (map (fun t => (t, stats_entry w t)) (map fst (queues w))), w1).
Proof.
  intro H. unfold getAllQueueStats. rewrite collect_stats_total, H.
  f_equal. f_equal. apply map_ext. intro t. unfold stats_entry.
  rewrite (getQueueStats_by_queues t w1 w H). reflexivity.
Qed.

(** X13.  [GET /stats/system] fails only for the database: it answers 200
    exactly when none of the six metric queries is rejected and 500
    otherwise, whatever the state of the broker; queues that cannot be
    read only show as zero entries.  On 200 the body carries the database
    metrics, the per-queue statistics and the unguarded throughput.  The
    handler leaves tables and queues as they were. *)
Theorem get_stats_system_outcomes (uptime : Q) (w : World) :
  let out := get_stats_system uptime w in
  (res_status (fst out) = 200 <-> rejects_within 6 w = false)
  /\ (res_status (fst out) = 500 <-> rejects_within 6 w = true)
  /\ tasks (snd out) = tasks w
  /\ task_results (snd out) = task_results w
  /\ queues (snd out) = queues w
  /\ (rejects_within 6 w = false ->
        exists m,
          fst (getMetrics w) = Ok m
          /\ res_body (fst out)
             = SystemBody
                 {| dbMetrics := m; uptime := uptime;
                    throughput := system_throughput m uptime;
                    queueStats :=
                      map (fun t => (t, stats_entry w t)) (map fst (queues w)) |}).
Proof.
  cbv zeta.
  destruct (getMetrics_effect w) as (HT & HR & HQ & _ & _ & Hok & Hbad).
  unfold get_stats_system, handler, bind, both.
  destruct (getMetrics w) as [[m|e] w1] eqn:Hm; cbn [fst snd] in *;
    rewrite (getAllQueueStats_by_queues w1 w HQ); cbn [fst snd ret respond res_status res_body].
  - assert (Hno : rejects_within 6 w = false)
      by (apply Hok; eexists; reflexivity).
    rewrite Hno. repeat split; auto; try discriminate.
    intros _. exists m. split; reflexivity.
  - assert (Hyes : rejects_within 6 w = true).
    { destruct (rejects_within 6 w); [reflexivity|].
      destruct (proj2 Hok eq_refl) as [m Hm']. discriminate. }
    rewrite Hyes. repeat split; auto; try discriminate.
Qed.

(* ===================================================================== *)
(** ** Progress reports *)
(* ===================================================================== *)

(** The quotient is rounded to a double before it is multiplied: at step
    23 of 40 the exact percentage is 57.5, the double product lies just
    below it, and the code reports 57. *)
Example percent_rounds_the_double :
  percent 22 40 = 57
  /\ math_round (inject_Z (Z.of_nat 22 + 1) / inject_Z 40 * 100) = 58
  /\ map (fun i => percent i 5) (upto 5) = [20; 40; 60; 80; 100].
Proof. vm_compute. repeat split. Qed.

(** X14.  The progress a handler reports at step [i] of [total] steps
    (counting from 0), computed in doubles as the code computes it,
    [Math.round(((i + 1) / total) * 100)], is a whole percentage between 0
    and 100, so the range check of the [progress] column never rejects
    it; it does not decrease from one step to the next; and at the last
    step it is 100. *)
Theorem percent_is_monotone_progress (total : Z) (i : nat) :
  0 < total -> Z.of_nat i < total ->
  0 <= percent i total <= 100
  /\ progress_allowed (progress_patch (percent i total)) = true
  /\ (forall j, (i <= j)%nat -> percent i total <= percent j total)
  /\ (Z.of_nat i = total - 1 -> percent i total = 100).
Proof.
  intros Ht Hi. pose proof (percent_range total i Ht Hi) as Hr.
  refine (conj Hr (conj _ (conj _ _))).
  - unfold progress_allowed, progress_patch, between. simpl.
    apply andb_true_intro. split; apply Z.leb_le; lia.
  - intros j Hij. apply percent_mono; assumption.
  - intro Hlast. apply percent_last; assumption.
Qed.

Lemma percent_is_monotone_progress_witness :
  0 <= percent 2 3 <= 100
  /\ progress_allowed (progress_patch (percent 2 3)) = true
  /\ (forall j, (2 <= j)%nat -> percent 2 3 <= percent j 3)
  /\ (Z.of_nat 2 = 3 - 1 -> percent 2 3 = 100).
Proof. apply (percent_is_monotone_progress 3 2); reflexivity. Defined.

(* ===================================================================== *)
(** ** Per-status statistics *)
(* ===================================================================== *)

Lemma count_status_total (rows : list TaskRow) :
  count_status waiting rows + count_status active rows
  + count_status completed rows + count_status failed rows
  + count_status delayed rows + count_status paused rows
  = Z.of_nat (List.length rows).
Proof.
  unfold count_status. induction rows as [|r l IH]; [reflexivity|].
  cbn -[Z.of_nat Z.add] in *. destruct (status r); cbn -[Z.of_nat Z.add];
    rewrite ?Nat2Z.inj_succ; lia.
Qed.

(** X15.  When the store answers, [getTaskStats] leaves the world alone
    and returns, for each of the six statuses, the number of rows with
    that status, zero for a status no row has; the six numbers add up to
    the number of rows. *)
Theorem getTaskStats_counts (w : World) :
  faults w = [] ->
  exists stats,
    getTaskStats w = (Ok stats, w)
    /\ n_waiting stats = count_status waiting (tasks w)
    /\ n_active stats = count_status active (tasks w)
    /\ n_completed stats = count_status completed (tasks w)
    /\ n_failed stats = count_status failed (tasks w)
    /\ n_delayed stats = count_status delayed (tasks w)
    /\ n_paused stats = count_status paused (tasks w)
    /\ n_waiting stats + n_active stats + n_completed stats
       + n_failed stats + n_delayed stats + n_paused stats
       = Z.of_nat (List.length (tasks w)).
Proof.
  intro Hf. eexists. split.
  - unfold getTaskStats, bind. rewrite (select_ok _ w Hf). reflexivity.
  - assert (Hfields :
      forall s, match s with
                | waiting => n_waiting | active => n_active
                | completed => n_completed | failed => n_failed
                | delayed => n_delayed | paused => n_paused
                end
                  (fold_left (fun stats row => set_count stats (fst row) (snd row))
                     (group_by_status (tasks w)) no_counts)
                = count_status s (tasks w)).
    { intro s. unfold group_by_status, all_statuses, count_status, count_where.
      cbn [flat_map].
      repeat match goal with
             | |- context [Z.eqb ?n 0] => destruct (Z.eqb_spec n 0)
             end;
        destruct s; cbn; congruence. }
    pose proof (Hfields waiting) as H1. pose proof (Hfields active) as H2.
    pose proof (Hfields completed) as H3. pose proof (Hfields failed) as H4.
    pose proof (Hfields delayed) as H5. pose proof (Hfields paused) as H6.
    cbv beta iota in H1, H2, H3, H4, H5, H6.
    repeat (split; [assumption|]).
    rewrite H1, H2, H3, H4, H5, H6. apply count_status_total.
Qed.

Lemma getTaskStats_counts_witness :
  exists stats,
    getTaskStats sample_history = (Ok stats, sample_history)
    /\ n_waiting stats = 1
    /\ n_active stats = 0
    /\ n_completed stats = 2
    /\ n_failed stats = 1
    /\ n_delayed stats = 0
    /\ n_paused stats = 0
    /\ n_waiting stats + n_active stats + n_completed stats
       + n_failed stats + n_delayed stats + n_paused stats
       = 4.
Proof. apply (getTaskStats_counts sample_history). reflexivity. Defined.

(* ===================================================================== *)
(** ** Retrying failed jobs *)
(* ===================================================================== *)

Lemma queues_set_twice (t : TaskType) (a b : Queue) (qs : list (TaskType * Queue)) :
  queues_set t b (queues_set t a qs) = queues_set t b qs.
Proof.
  induction qs as [|kv qs IH]; simpl; [reflexivity|].
  destruct (for_type t kv) eqn:E; simpl.
  - unfold for_type in *. simpl. rewrite E. reflexivity.
  - rewrite E, IH. reflexivity.
Qed.

Lemma queues_set_keys (t : TaskType) (q' : Queue) (qs : list (TaskType * Queue)) :
  map fst (queues_set t q' qs) = map fst qs.
Proof.
  induction qs as [|kv qs IH]; simpl; [reflexivity|].
  destruct (for_type t kv); simpl; [reflexivity | rewrite IH; reflexivity].
Qed.

Lemma queues_get_set_other (t t' : TaskType) (q' : Queue) (w : World) :
  t' <> t ->
  queues_get t' (set_queues (queues_set t q' (queues w)) w) = queues_get t' w.
Proof.
  intro Hne. unfold queues_get. simpl.
  induction (queues w) as [|kv qs IH]; simpl; [reflexivity|].
  destruct (for_type t kv) eqn:E; simpl.
  - assert (E' : for_type t' kv = false).
    { unfold for_type in *. apply TaskType_eqb_eq in E.
      destruct (TaskType_eqb (fst kv) t') eqn:E2; [|reflexivity].
      apply TaskType_eqb_eq in E2. congruence. }
    unfold for_type at 1. simpl. fold (for_type t' kv). rewrite E'. reflexivity.
  - destruct (for_type t' kv); [reflexivity | exact IH].
Qed.

Lemma same_job_refl (j : Job) : same_job j j = true.
Proof. unfold same_job. apply String.eqb_refl. Qed.

Lemma retry_jobs_all (t : TaskType) (l : list Job) :
  forall (n : Z) (w : World) (q : Queue),
    queues_get t w = Some q -> q_online q = true -> q_failed q = l ->
    retry_jobs t l n w
    = (n + count l,
       match l with
       | [] => w
       | _ => set_queues (queues_set t (drained q) (queues w)) w
       end).
Proof.
  induction l as [|j rest IH]; intros n w q Hq Hon Hl.
  - simpl. unfold count. simpl. rewrite Z.add_0_r. reflexivity.
  - cbn [retry_jobs]. unfold retry_job. rewrite Hq, Hon, Hl.
    cbn [existsb]. rewrite same_job_refl. cbn [orb].
    set (q1 := retried j q).
    set (w1 := set_queues (queues_set t q1 (queues w)) w).
    assert (Hq1 : queues_get t w1 = Some q1) by (apply (queues_get_set t q1 w q Hq)).
    assert (Hl1 : q_failed q1 = rest).
    { unfold q1, retried. simpl. rewrite Hl. simpl. rewrite same_job_refl.
      reflexivity. }
    rewrite (IH (n + 1) w1 q1 Hq1 Hon Hl1).
    f_equal.
    + unfold count. simpl List.length. rewrite Nat2Z.inj_succ. lia.
    + assert (Hd : drained q1 = drained q).
      { unfold drained, q1, retried. simpl. rewrite Hl. simpl.
        rewrite same_job_refl. rewrite <- app_assoc. reflexivity. }
      destruct rest as [|j2 rest'].
      * unfold w1. f_equal. f_equal.
        unfold drained, q1, retried. simpl. rewrite Hl. simpl.
        rewrite same_job_refl. reflexivity.
      * unfold w1. simpl queues. rewrite queues_set_twice, Hd. reflexivity.
Qed.

Lemma set_queues_same (w : World) : set_queues (queues w) w = w.
Proof. destruct w. reflexivity. Qed.

Lemma queues_set_same (t : TaskType) (q : Queue) (qs : list (TaskType * Queue)) :
  (match find (for_type t) qs with Some kv => Some (snd kv) | None => None end)
  = Some q ->
  queues_set t q qs = qs.
Proof.
  induction qs as [|kv l IH]; simpl; [discriminate|].
  destruct (for_type t kv) eqn:E.
  - intro H. inversion H. destruct kv. reflexivity.
  - intro H. rewrite (IH H). reflexivity.
Qed.

Lemma drained_nothing (q : Queue) : q_failed q = [] -> drained q = q.
Proof.
  intro H. unfold drained. rewrite H, app_nil_r. destruct q. simpl in *.
  subst. reflexivity.
Qed.

(** One round of the loop: the counter grows by the number of failed
    jobs that can be reached, and the queue is drained. *)
Lemma retry_queue_step (t : TaskType) (n : Z) (w : World) :
  retry_queue t n w = (n + count (retryable t w), drain t w).
Proof.
  unfold retry_queue, retryable, drain, read_queue.
  destruct (queues_get t w) as [q|] eqn:Hq;
    [|unfold count; simpl; rewrite Z.add_0_r; reflexivity].
  destruct (q_online q) eqn:Hon;
    [|unfold count; simpl; rewrite Z.add_0_r; reflexivity].
  rewrite (retry_jobs_all t (q_failed q) n w q Hq Hon eq_refl).
  f_equal. destruct (q_failed q) eqn:Hl; [|reflexivity].
  rewrite (drained_nothing q Hl).
  unfold queues_get in Hq. rewrite (queues_set_same t q (queues w) Hq).
  symmetry. apply set_queues_same.
Qed.

Lemma retryable_drain_same (t : TaskType) (w : World) :
  retryable t (drain t w) = [].
Proof.
  unfold retryable, drain.
  destruct (queues_get t w) as [q|] eqn:Hq; [|rewrite Hq; reflexivity].
  destruct (q_online q) eqn:Hon; [|rewrite Hq, Hon; reflexivity].
  rewrite (queues_get_set t (drained q) w q Hq). simpl. rewrite Hon. reflexivity.
Qed.

Lemma queues_get_drain_other (t t' : TaskType) (w : World) :
  t' <> t -> queues_get t' (drain t w) = queues_get t' w.
Proof.
  intro Hne. unfold drain.
  destruct (queues_get t w) as [q|]; [|reflexivity].
  destruct (q_online q); [|reflexivity].
  apply queues_get_set_other. exact Hne.
Qed.

Lemma retryable_drain_other (t t' : TaskType) (w : World) :
  t' <> t -> retryable t' (drain t w) = retryable t' w.
Proof.
  intro Hne. unfold retryable. rewrite (queues_get_drain_other t t' w Hne).
  reflexivity.
Qed.

Lemma drain_nothing (t : TaskType) (w : World) :
  retryable t w = [] -> drain t w = w.
Proof.
  unfold retryable, drain.
  destruct (queues_get t w) as [q|] eqn:Hq; [|reflexivity].
  destruct (q_online q); [|reflexivity].
  intro Hl. rewrite (drained_nothing q Hl).
  unfold queues_get in Hq. rewrite (queues_set_same t q (queues w) Hq).
  apply set_queues_same.
Qed.

Lemma drain_keeps (t : TaskType) (w : World) :
  tasks (drain t w) = tasks w
  /\ task_results (drain t w) = task_results w
  /\ faults (drain t w) = faults w
  /\ clock (drain t w) = clock w
  /\ map fst (queues (drain t w)) = map fst (queues w).
Proof.
  unfold drain. destruct (queues_get t w) as [q|]; [|repeat split].
  destruct (q_online q); [|repeat split].
  simpl. repeat split. apply queues_set_keys.
Qed.

(** X16.  [retryFailedJobs] for one task type never throws.  It returns
    the number of failed jobs of that queue that can be reached (none
    when the queue is missing or the broker does not answer) and moves
    them, in order, behind the waiting jobs; afterwards the queue has no
    failed job, so a second call retries 0 jobs and changes nothing.  The
    other queues and the tables are untouched. *)
Theorem retryFailedJobs_of_type (t : TaskType) (w : World) :
  retryFailedJobs (Some t) w = (Ok (count (retryable t w)), drain t w)
  /\ retryable t (drain t w) = []
  /\ retryFailedJobs (Some t) (drain t w) = (Ok 0, drain t w)
  /\ (forall q, queues_get t w = Some q -> q_online q = true ->
        option_map q_waiting (queues_get t (drain t w))
          = Some (q_waiting q ++ q_failed q)%list
        /\ option_map q_failed (queues_get t (drain t w)) = Some []
        /\ option_map q_active (queues_get t (drain t w)) = Some (q_active q)
        /\ option_map q_delayed (queues_get t (drain t w)) = Some (q_delayed q))
  /\ (forall t', t' <> t -> queues_get t' (drain t w) = queues_get t' w)
  /\ tasks (drain t w) = tasks w
  /\ task_results (drain t w) = task_results w.
Proof.
  assert (Hcall : forall w0,
            retryFailedJobs (Some t) w0 = (Ok (count (retryable t w0)), drain t w0)).
  { intro w0. unfold retryFailedJobs. cbn [retry_queues].
    rewrite retry_queue_step. rewrite Z.add_0_l. reflexivity. }
  refine (conj (Hcall w) (conj (retryable_drain_same t w) (conj _ (conj _ (conj _ _))))).
  - rewrite Hcall, (retryable_drain_same t w).
    rewrite (drain_nothing t (drain t w) (retryable_drain_same t w)).
    reflexivity.
  - intros q Hq Hon. unfold drain. rewrite Hq, Hon.
    rewrite (queues_get_set t (drained q) w q Hq). simpl. auto.
  - intros t' Hne. apply queues_get_drain_other. exact Hne.
  - destruct (drain_keeps t w) as (HT & HR & _). split; assumption.
Qed.

Lemma retry_queues_sum (ts : list TaskType) :
  forall (n : Z) (w : World),
    NoDup ts ->
    retry_queues ts n w
    = (n + sum_Z (map (fun t => count (retryable t w)) ts), drain_all ts w).
Proof.
  induction ts as [|t rest IH]; intros n w Hnd.
  - simpl. rewrite Z.add_0_r. reflexivity.
  - inversion Hnd as [|? ? Hnotin Hrest]; subst.
    cbn [retry_queues]. rewrite retry_queue_step.
    rewrite (IH _ (drain t w) Hrest). cbn [map sum_Z fold_right drain_all fold_left].
    f_equal.
    assert (Hsame : map (fun t0 => count (retryable t0 (drain t w))) rest
                    = map (fun t0 => count (retryable t0 w)) rest).
    { apply map_ext_in. intros t' Hin.
      rewrite (retryable_drain_other t t' w); [reflexivity|].
      intro Heq. subst t'. exact (Hnotin Hin). }
    rewrite Hsame. unfold sum_Z. lia.
Qed.

Lemma drain_all_keeps (ts : list TaskType) :
  forall w,
    tasks (drain_all ts w) = tasks w
    /\ task_results (drain_all ts w) = task_results w
    /\ map fst (queues (drain_all ts w)) = map fst (queues w).
Proof.
  induction ts as [|t rest IH]; intro w; [repeat split|].
  cbn [drain_all fold_left]. fold (drain_all rest (drain t w)).
  destruct (IH (drain t w)) as (HT & HR & HK).
  destruct (drain_keeps t w) as (HT' & HR' & _ & _ & HK').
  repeat split; congruence.
Qed.

Lemma drain_all_retryable (ts : list TaskType) :
  forall w t,
    retryable t (drain_all ts w) = if existsb (TaskType_eqb t) ts then [] else retryable t w.
Proof.
  induction ts as [|t0 rest IH]; intros w t; [reflexivity|].
  cbn [drain_all fold_left existsb]. fold (drain_all rest (drain t0 w)).
  rewrite IH. destruct (existsb (TaskType_eqb t) rest) eqn:Ex.
  - rewrite orb_true_r. reflexivity.
  - rewrite orb_false_r. destruct (TaskType_eqb t t0) eqn:E.
    + apply TaskType_eqb_eq in E. subst t0. apply retryable_drain_same.
    + apply retryable_drain_other. intro Heq. subst t0.
      assert (TaskType_eqb t t = true) by (apply TaskType_eqb_eq; reflexivity).
      congruence.
Qed.

Lemma retry_queues_nothing (ts : list TaskType) :
  forall (n : Z) (w : World),
    (forall t, In t ts -> retryable t w = []) ->
    retry_queues ts n w = (n, w).
Proof.
  induction ts as [|t rest IH]; intros n w Hnone; [reflexivity|].
  cbn [retry_queues]. rewrite retry_queue_step.
  rewrite (Hnone t (or_introl eq_refl)).
  rewrite (drain_nothing t w (Hnone t (or_introl eq_refl))).
  unfold count. simpl. rewrite Z.add_0_r.
  apply IH. intros t' Hin. apply Hnone. right. exact Hin.
Qed.

(** X17.  [retryFailedJobs] without a type goes through all queues and
    never throws.  With the queue keys distinct, as the keys of a map are,
    it returns the total number of failed jobs in the queues that answer;
    afterwards no queue that can be read has a failed job, and a second
    call retries 0 jobs and changes nothing.  The set of queues and the
    tables are untouched. *)
Theorem retryFailedJobs_all_queues (w : World) :
  NoDup (map fst (queues w)) ->
  exists w',
    retryFailedJobs None w
    = (Ok (sum_Z (map (fun t => count (retryable t w)) (map fst (queues w)))), w')
    /\ (forall t, In t (map fst (queues w)) -> retryable t w' = [])
    /\ (forall t, ~ In t (map fst (queues w)) -> retryable t w' = retryable t w)
    /\ retryFailedJobs None w' = (Ok 0, w')
    /\ map fst (queues w') = map fst (queues w)
    /\ tasks w' = tasks w
    /\ task_results w' = task_results w.
Proof.
  intro Hnd. exists (drain_all (map fst (queues w)) w).
  destruct (drain_all_keeps (map fst (queues w)) w) as (HT & HR & HK).
  assert (Hin : forall t ts, In t ts <-> existsb (TaskType_eqb t) ts = true).
  { intros t ts. rewrite existsb_exists. split.
    - intro H. exists t. split; [exact H | apply TaskType_eqb_eq; reflexivity].
    - intros (x & Hx & Heq). apply TaskType_eqb_eq in Heq. subst x. exact Hx. }
  assert (Hdone : forall t, In t (map fst (queues w)) ->
                            retryable t (drain_all (map fst (queues w)) w) = []).
  { intros t Ht. rewrite drain_all_retryable.
    apply Hin in Ht. rewrite Ht. reflexivity. }
  refine (conj _ (conj Hdone (conj _ (conj _ (conj HK (conj HT HR)))))).
  - unfold retryFailedJobs. rewrite (retry_queues_sum _ 0 w Hnd).
    rewrite Z.add_0_l. reflexivity.
  - intros t Hnot. rewrite drain_all_retryable.
    destruct (existsb (TaskType_eqb t) (map fst (queues w))) eqn:Ex;
      [|reflexivity].
    exfalso. apply Hnot. apply Hin. exact Ex.
  - unfold retryFailedJobs. rewrite HK.
    rewrite (retry_queues_nothing _ 0 _ Hdone). reflexivity.
Qed.

Lemma retryFailedJobs_all_queues_witness :
  exists w',
    retryFailedJobs None sample_failures = (Ok 2, w')
    /\ (forall t, In t (map fst (queues sample_failures)) -> retryable t w' = [])
    /\ (forall t, ~ In t (map fst (queues sample_failures)) ->
          retryable t w' = retryable t sample_failures)
    /\ retryFailedJobs None w' = (Ok 0, w')
    /\ map fst (queues w') = map fst (queues sample_failures)
    /\ tasks w' = tasks sample_failures
    /\ task_results w' = task_results sample_failures.
Proof.
  apply (retryFailedJobs_all_queues sample_failures).
  simpl. repeat (constructor; [simpl; intuition discriminate|]). constructor.
Defined.

(* ===================================================================== *)
(** ** The admin routes *)
(* ===================================================================== *)

Lemma retryFailedJobs_total (o : option TaskType) (w : World) :
  exists n, retryFailedJobs o w = (Ok n, snd (retryFailedJobs o w)).
Proof.
  unfold retryFailedJobs.
  destruct (retry_queues _ 0 w) as [n w']. exists n. reflexivity.
Qed.

(** X18.  [POST /admin/retry-failed] never answers 500: whatever the
    state of the broker the answer is 200 with the number of retried jobs,
    or 400; it is 400 exactly when the body names a type, not empty, that
    is not one of the six task types, and then nothing has changed. *)
Theorem post_retry_failed_outcomes (taskType : option string) (w : World) :
  let out := post_retry_failed taskType w in
  let unknown :=
    match taskType with
    | Some s => negb (String.eqb s "")
                && match parse_type s with Some _ => false | None => true end
    | None => false
    end in
  (ar_status (fst out) = 200 \/ ar_status (fst out) = 400)
  /\ (ar_status (fst out) = 400 <-> unknown = true)
  /\ (ar_status (fst out) = 400 -> snd out = w)
  /\ (ar_status (fst out) = 200 ->
        exists n, ar_body (fst out)
                  = AdminRetried (show n ++ " failed jobs retried successfully") n
                  /\ 0 <= n).
Proof.
  cbv zeta. unfold post_retry_failed, admin_handler, bind.
  assert (Hnonneg : forall o w0 n w1, retryFailedJobs o w0 = (Ok n, w1) -> 0 <= n).
  { intros o w0 n w1. unfold retryFailedJobs.
    assert (Hq : forall ts m w2, 0 <= m -> 0 <= fst (retry_queues ts m w2)).
    { induction ts as [|t rest IH]; intros m w2 Hm; [exact Hm|].
      cbn [retry_queues]. rewrite retry_queue_step. apply IH.
      unfold count. lia. }
    pose proof (Hq (match o with Some t => [t] | None => map fst (queues w0) end)
                  0 w0 (Z.le_refl 0)) as H0.
    destruct (retry_queues _ 0 w0) as [m w2]. intro H. inversion H; subst.
    exact H0. }
  destruct taskType as [s|].
  - destruct (String.eqb s "") eqn:Es; cbn [negb andb].
    + destruct (retryFailedJobs_total None w) as [n Hn].
      pose proof (Hnonneg _ _ _ _ Hn) as H0.
      rewrite Hn. cbn. repeat split; auto; try discriminate.
      intros _. exists n. split; [reflexivity | exact H0].
    + destruct (parse_type s) as [t|].
      * destruct (retryFailedJobs_total (Some t) w) as [n Hn].
        pose proof (Hnonneg _ _ _ _ Hn) as H0.
        rewrite Hn. cbn. repeat split; auto; try discriminate.
        intros _. exists n. split; [reflexivity | exact H0].
      * cbn. repeat split; auto; discriminate.
  - destruct (retryFailedJobs_total None w) as [n Hn].
    pose proof (Hnonneg _ _ _ _ Hn) as H0.
    rewrite Hn. cbn. repeat split; auto; try discriminate.
    intros _. exists n. split; [reflexivity | exact H0].
Qed.

Lemma pauseQueue_online (t : TaskType) (w : World) (q : Queue) :
  queues_get t w = Some q -> q_online q = true ->
  pauseQueue t w = (Ok tt, set_queues (queues_set t (with_paused true q) (queues w)) w)
  /\ resumeQueue t w
     = (Ok tt, set_queues (queues_set t (with_paused false q) (queues w)) w).
Proof.
  intros Hq Hon. unfold pauseQueue, resumeQueue, on_queue.
  rewrite Hq, Hon. split; reflexivity.
Qed.

Lemma with_paused_same (q : Queue) : with_paused (q_paused q) q = q.
Proof. destruct q. reflexivity. Qed.

(** X19.  Pausing and resuming through the admin routes.  An unknown
    type is answered 400 by both routes and nothing changes.  For a known
    type whose queue the broker serves, both answer 200; pausing sets the
    paused flag of that queue and nothing else (same jobs, other queues
    and tables untouched); pausing again changes nothing more; and
    resuming after a pause gives back the world as it was before the
    pause, when the queue was not paused then. *)
Theorem pause_and_resume_routes (name : string) (w : World) :
  (parse_type name = None ->
     post_pause name w = (invalid_type, w)
     /\ post_resume name w = (invalid_type, w))
  /\ (forall t q,
        parse_type name = Some t ->
        queues_get t w = Some q -> q_online q = true ->
        let paused_world := snd (post_pause name w) in
        ar_status (fst (post_pause name w)) = 200
        /\ queues_get t paused_world = Some (with_paused true q)
        /\ (forall t', t' <> t -> queues_get t' paused_world = queues_get t' w)
        /\ tasks paused_world = tasks w
        /\ task_results paused_world = task_results w
        /\ snd (post_pause name paused_world) = paused_world
        /\ ar_status (fst (post_resume name paused_world)) = 200
        /\ (q_paused q = false -> snd (post_resume name paused_world) = w)).
Proof.
  split.
  - intro Hnone. unfold post_pause, post_resume, admin_handler.
    rewrite Hnone. split; reflexivity.
  - intros t q Hty Hq Hon. cbv zeta.
    destruct (pauseQueue_online t w q Hq Hon) as [Hp _].
    assert (Hpause : post_pause name w
                     = (admin_ok (AdminMessage ("Queue " ++ name ++ " paused successfully")),
                        set_queues (queues_set t (with_paused true q) (queues w)) w)).
    { unfold post_pause, admin_handler, bind. rewrite Hty, Hp. reflexivity. }
    rewrite Hpause. cbn [fst snd].
    set (w1 := set_queues (queues_set t (with_paused true q) (queues w)) w).
    assert (Hq1 : queues_get t w1 = Some (with_paused true q))
      by (apply (queues_get_set t _ w q Hq)).
    destruct (pauseQueue_online t w1 (with_paused true q) Hq1 Hon)
      as [Hp1 Hr1].
    refine (conj eq_refl (conj Hq1 (conj _ (conj eq_refl (conj eq_refl _))))).
    + intros t' Hne. apply queues_get_set_other. exact Hne.
    + refine (conj _ (conj _ _)).
      * unfold post_pause, admin_handler, bind. rewrite Hty, Hp1. cbn [snd ret].
        unfold w1 at 2. simpl queues. rewrite queues_set_twice. reflexivity.
      * unfold post_resume, admin_handler, bind. rewrite Hty, Hr1. reflexivity.
      * intro Hflag. unfold post_resume, admin_handler, bind.
        rewrite Hty, Hr1. cbn [snd ret]. unfold w1. simpl queues.
        rewrite queues_set_twice.
        replace (with_paused false (with_paused true q)) with q
          by (rewrite <- (with_paused_same q) at 1; rewrite Hflag;
              destruct q; reflexivity).
        unfold queues_get in Hq. rewrite (queues_set_same t q (queues w) Hq).
        destruct w. reflexivity.
Qed.

(* ===================================================================== *)
(** ** The set of queues *)
(* ===================================================================== *)

Lemma on_queue_types {A} (t : TaskType) (f : Queue -> A * Queue) (w : World) :
  queue_types (snd (on_queue t f w)) = queue_types w.
Proof.
  unfold on_queue, queue_types, not_found, throw.
  destruct (queues_get t w) as [q|]; [|reflexivity].
  destruct (q_online q); [|reflexivity].
  destruct (f q) as [a q']. simpl. apply queues_set_keys.
Qed.

Lemma retry_queues_types (ts : list TaskType) :
  forall n w, queue_types (snd (retry_queues ts n w)) = queue_types w.
Proof.
  induction ts as [|t rest IH]; intros n w; [reflexivity|].
  cbn [retry_queues]. rewrite retry_queue_step. rewrite IH.
  destruct (drain_keeps t w) as (_ & _ & _ & _ & HK). exact HK.
Qed.

Lemma queues_get_In (t : TaskType) (w : World) :
  queues_get t w <> None <-> In t (queue_types w).
Proof.
  unfold queues_get, queue_types.
  induction (queues w) as [|kv qs IH]; simpl.
  - split; [intro H; exact (H eq_refl) | intros []].
  - unfold for_type at 1. destruct (TaskType_eqb (fst kv) t) eqn:E.
    + apply TaskType_eqb_eq in E. split; [intros _; left; exact E | discriminate].
    + rewrite IH. split; [intro H; right; exact H|].
      intros [Heq | Hin]; [|exact Hin].
      apply TaskType_eqb_eq in Heq. congruence.
Qed.

(** X20.  The set of queues is fixed at start-up.  [initializeQueues]
    creates, for any configuration and whatever the broker holds, one
    queue object per task type, in the order of the configuration table,
    each named after its type and attached to what the broker keeps under
    that name: its jobs and its pause flag are those the broker has, left
    by earlier runs, and it is empty only over a broker that holds
    nothing.  [addTask], [pauseQueue], [resumeQueue], [retryFailedJobs]
    and the processors never add, drop or reorder a queue.  So a task type
    that has a queue keeps it, and after start-up no call fails for a
    missing queue. *)
Theorem queue_set_is_fixed (w : World) :
  (forall broker env, queue_types (started broker env w) = all_task_types)
  /\ (forall broker env t,
        queues_get t (started broker env w)
        = Some (attached broker (type_name t))
        /\ q_name (attached broker (type_name t)) = type_name t
        /\ q_waiting (attached broker (type_name t))
           = q_waiting (broker (type_name t))
        /\ q_failed (attached broker (type_name t))
           = q_failed (broker (type_name t))
        /\ q_paused (attached broker (type_name t))
           = q_paused (broker (type_name t)))
  /\ (forall env t,
        queues_get t (started empty_broker env w)
        = Some {| q_name := type_name t; q_waiting := []; q_active := [];
                  q_completed := []; q_failed := []; q_delayed := [];
                  q_paused := false; q_online := true |})
  /\ (forall env uuid task, queue_types (snd (addTask env uuid task w)) = queue_types w)
  /\ (forall t, queue_types (snd (pauseQueue t w)) = queue_types w)
  /\ (forall t, queue_types (snd (resumeQueue t w)) = queue_types w)
  /\ (forall o, queue_types (snd (retryFailedJobs o w)) = queue_types w)
  /\ (forall taskType job c, queue_types (snd (process taskType job c w)) = queue_types w)
  /\ (forall t w', queue_types w' = queue_types w ->
        queues_get t w <> None -> queues_get t w' <> None).
Proof.
  refine (conj _ (conj _ (conj _ (conj _ (conj _ (conj _ (conj _ (conj _ _)))))))).
  - intros broker env. reflexivity.
  - intros broker env t. destruct t; repeat split; reflexivity.
  - intros env t. destruct t; reflexivity.
  - intros env uuid task. unfold addTask, bind at 1.
    pose proof (createTask_keeps_queues
                  (with_id (or_string (t_id task) uuid) task) w) as [HQ _].
    destruct (createTask _ w) as [[i|e] w1]; simpl in HQ;
      [|unfold queue_types; simpl; rewrite HQ; reflexivity].
    cbn [snd fst].
    assert (Hk : queue_types w1 = queue_types w)
      by (unfold queue_types; rewrite HQ; reflexivity).
    destruct (queues_get (t_type task) w1); [|simpl; exact Hk].
    unfold bind, queue_add.
    pose proof (on_queue_types (t_type task)
                  (fun q => ({| job_data := with_id (or_string (t_id task) uuid) task;
                                job_opts := jobOptions env task;
                                attemptsMade := 0 |},
                             with_waiting
                               (q_waiting q
                                ++ [{| job_data := with_id (or_string (t_id task) uuid) task;
                                       job_opts := jobOptions env task;
                                       attemptsMade := 0 |}]) q)) w1) as Hon.
    destruct (on_queue _ _ w1) as [[j|e] w2]; simpl in *; congruence.
  - intro t. unfold pauseQueue.
    destruct (queues_get t w); [apply on_queue_types | reflexivity].
  - intro t. unfold resumeQueue.
    destruct (queues_get t w); [apply on_queue_types | reflexivity].
  - intro o. unfold retryFailedJobs.
    pose proof (retry_queues_types
                  (match o with Some t => [t] | None => map fst (queues w) end) 0 w)
      as H.
    destruct (retry_queues _ 0 w) as [n w']. exact H.
  - intros taskType job c. unfold queue_types.
    destruct (process_touches_only_its_row_core taskType job c w) as (_ & _ & HQ).
    rewrite HQ. reflexivity.
  - intros t w' Hk Hq. apply queues_get_In. rewrite Hk.
    apply queues_get_In. exact Hq.
Qed.

(* ===================================================================== *)
(** ** The health report *)
(* ===================================================================== *)

Lemma Qlt_bool_spec (a b : Q) : BoolSpec (a < b)%Q (b <= a)%Q (Qlt_bool a b).
Proof.
  unfold Qlt_bool. destruct (Qle_bool b a) eqn:E; simpl; constructor.
  - apply Qle_bool_iff. exact E.
  - apply Qnot_le_lt. intro H. apply Qle_bool_iff in H. congruence.
Qed.

(** X21.  The health report of the monitor: the overall status is
    [healthy] exactly when no issue is listed, which is exactly when
    memory is at most 80%, the success rate at least 95, at most 50 jobs
    have failed and at most 1000 are waiting; it is [critical] exactly
    when memory is above 90%, the success rate below 90 or more than 100
    jobs have failed, whatever comes before or after, so a warning never
    replaces a critical status and a backlog alone only warns; and at
    most four issues are listed. *)
Theorem calculateHealthStatus_report
    (metrics : MonitorMetrics) (queueStats : list (TaskType * QueueStats)) :
  let h := calculateHealthStatus metrics queueStats in
  let memory := mu_percentage (mm_memoryUsage metrics) in
  let rate := successRate (mm_database metrics) in
  let totalFailed := total_of qs_failed queueStats in
  let totalWaiting := total_of qs_waiting queueStats in
  (overall h = healthy <-> issues h = [])
  /\ (overall h = healthy <->
        memory <= 80 /\ (95 <= rate)%Q /\ totalFailed <= 50 /\ totalWaiting <= 1000)
  /\ (overall h = critical <->
        90 < memory \/ (rate < 90)%Q \/ 100 < totalFailed)
  /\ (List.length (issues h) <= 4)%nat.
Proof.
  cbv zeta. unfold calculateHealthStatus.
  set (memory := mu_percentage (mm_memoryUsage metrics)).
  set (rate := successRate (mm_database metrics)).
  set (totalFailed := total_of qs_failed queueStats).
  set (totalWaiting := total_of qs_waiting queueStats).
  destruct (Z.ltb_spec 90 memory); [|destruct (Z.ltb_spec 80 memory)];
    (destruct (Qlt_bool_spec rate 90); [|destruct (Qlt_bool_spec rate 95)]);
    (destruct (Z.ltb_spec 100 totalFailed); [|destruct (Z.ltb_spec 50 totalFailed)]);
    destruct (Z.ltb_spec 1000 totalWaiting);
    cbn [critical_issue warning_issue overall issues app List.length];
    (split; [split; intro; first [reflexivity | discriminate]|]);
    (split;
     [split;
      [intro; first [discriminate | repeat split; first [lia | lra]]
      |intros (? & ? & ? & ?); first [reflexivity | lia | lra]]|]);
    (split;
     [split;
      [intro; first [discriminate | left; lia | right; left; lra | right; right; lia]
      |intros [? | [? | ?]]; first [reflexivity | lia | lra]]|]);
    lia.
Qed.

(* ===================================================================== *)
(** ** The uptime shown by the monitor *)
(* ===================================================================== *)

Lemma Qfloor_div_Z (x : Q) (m : Z) :
  0 < m -> Qfloor (x / inject_Z m) = Qfloor x / m.
Proof.
  intros Hm. destruct x as [n d]. destruct m as [|p|p]; try lia.
  unfold Qdiv, Qinv, Qmult, inject_Z, Qfloor. cbn [Qnum Qden].
  rewrite Z.mul_1_r, Pos2Z.inj_mul, Z.div_div by lia. reflexivity.
Qed.

Lemma Qfloor_sub_Z (x : Q) (k : Z) :
  Qfloor (x - inject_Z k) = Qfloor x - k.
Proof.
  destruct x as [n d].
  unfold Qminus, Qplus, Qopp, inject_Z, Qfloor. cbn [Qnum Qden].
  rewrite Pos.mul_1_r, Z.mul_1_r.
  replace (n + - k * Z.pos d) with (n + (- k) * Z.pos d) by lia.
  rewrite Z.div_add by lia. lia.
Qed.

Lemma Qtrunc_nonneg (x : Q) : (0 <= x)%Q -> Qtrunc x = Qfloor x.
Proof.
  intros H. unfold Qtrunc. destruct (Qlt_bool_spec x 0); [lra | reflexivity].
Qed.

Lemma js_rem_floor (x : Q) (m : Z) :
  (0 <= x)%Q -> 0 < m ->
  (js_rem x (inject_Z m) == x - inject_Z (m * (Qfloor x / m)))%Q.
Proof.
  intros Hx Hm. unfold js_rem.
  assert (0 <= x / inject_Z m)%Q as Hdiv.
  { apply Qle_shift_div_l.
    - change 0%Q with (inject_Z 0). rewrite <- Zlt_Qlt. exact Hm.
    - lra. }
  rewrite (Qtrunc_nonneg _ Hdiv), Qfloor_div_Z by exact Hm.
  rewrite inject_Z_mult. reflexivity.
Qed.

Lemma Qfloor_js_rem (x : Q) (m : Z) :
  (0 <= x)%Q -> 0 < m -> Qfloor (js_rem x (inject_Z m)) = Qfloor x mod m.
Proof.
  intros Hx Hm.
  rewrite (Qfloor_comp _ _ (js_rem_floor x m Hx Hm)), Qfloor_sub_Z.
  rewrite Z.mod_eq by lia. reflexivity.
Qed.

Lemma uptime_figures (seconds : Q) :
  (0 <= seconds)%Q ->
  uptime_days seconds = Qfloor seconds / 86400
  /\ uptime_hours seconds = (Qfloor seconds mod 86400) / 3600
  /\ uptime_minutes seconds = (Qfloor seconds mod 3600) / 60
  /\ uptime_secs seconds = Qfloor seconds mod 60.
Proof.
  intros H. unfold uptime_days, uptime_hours, uptime_minutes, uptime_secs.
  change 86400%Q with (inject_Z 86400). change 3600%Q with (inject_Z 3600).
  change 60%Q with (inject_Z 60).
  rewrite !Qfloor_div_Z, !Qfloor_js_rem by (exact H || lia).
  repeat split; reflexivity.
Qed.

(** X22.  The uptime shown by the monitor, for an uptime that is not
    negative: the days, hours, minutes and seconds add up to the whole
    seconds of the uptime, with the hours below 24 and the minutes and
    seconds below 60; the fraction of a second is never shown. *)
Theorem formatUptime_figures (seconds : Q) :
  (0 <= seconds)%Q ->
  let n := Qfloor seconds in
  86400 * uptime_days seconds + 3600 * uptime_hours seconds
    + 60 * uptime_minutes seconds + uptime_secs seconds = n
  /\ 0 <= uptime_days seconds
  /\ 0 <= uptime_hours seconds < 24
  /\ 0 <= uptime_minutes seconds < 60
  /\ 0 <= uptime_secs seconds < 60
  /\ formatUptime seconds = formatUptime (inject_Z n).
Proof.
  intros H n.
  assert (0 <= n) as Hn.
  { unfold n. change 0 with (Qfloor 0). apply Qfloor_resp_le. exact H. }
  assert (0 <= inject_Z n)%Q as Hq.
  { change 0%Q with (inject_Z 0). rewrite <- Zle_Qle. exact Hn. }
  destruct (uptime_figures seconds H) as (Hd & Hh & Hm & Hs).
  destruct (uptime_figures (inject_Z n) Hq) as (Hd' & Hh' & Hm' & Hs').
  rewrite Qfloor_Z in Hd', Hh', Hm', Hs'. fold n in Hd, Hh, Hm, Hs.
  refine (conj _ (conj _ (conj _ (conj _ (conj _ _))))).
  - rewrite Hd, Hh, Hm, Hs. clear - Hn. Z.div_mod_to_equations. lia.
  - rewrite Hd. clear - Hn. Z.div_mod_to_equations. lia.
  - rewrite Hh. clear - Hn. Z.div_mod_to_equations. lia.
  - rewrite Hm. clear - Hn. Z.div_mod_to_equations. lia.
  - rewrite Hs. clear - Hn. Z.div_mod_to_equations. lia.
  - unfold formatUptime. rewrite Hd, Hh, Hm, Hs, Hd', Hh', Hm', Hs'. reflexivity.
Qed.

Lemma formatUptime_figures_witness :
  formatUptime (183845 # 2) = "1d 1h 32m"
  /\ 86400 * uptime_days (183845 # 2) + 3600 * uptime_hours (183845 # 2)
       + 60 * uptime_minutes (183845 # 2) + uptime_secs (183845 # 2) = 91922.
Proof.
  split; [reflexivity|].
  apply (formatUptime_figures (183845 # 2)). unfold Qle. simpl. lia.
Defined.

(* ===================================================================== *)
(** ** The progress column *)
(* ===================================================================== *)

Lemma shows_sleep (i : string) (p d : Z) : preserves (shows_progress i p) (sleep d).
Proof. intros w H. exact H. Qed.

Lemma shows_marked_active (i : string) (job : Job) (w : World) (r : TaskRow) :
  faults w = [] -> lookup i w = Some r ->
  shows_progress i (progress r) (marked_active i job w).
Proof.
  intros Hf Hr. split; [exact Hf|].
  unfold marked_active. rewrite lookup_updated, Hr. simpl.
  unfold lookup in Hr. apply find_some in Hr. destruct Hr as [_ Hid].
  rewrite Hid. eexists. split; reflexivity.
Qed.

Lemma shows_report (i : string) (p pct d : Z) (w : World) :
  shows_progress i p w ->
  progress_allowed (progress_patch pct) = true ->
  exists w',
    (updateTaskStatus i active (progress_patch pct) ;; sleep d) w = (Ok tt, w')
    /\ shows_progress i pct w'.
Proof.
  intros [Hf (r & Hr & Hp)] Hok.
  unfold bind. rewrite (updateTaskStatus_ok i active _ w Hf Hok).
  unfold sleep. eexists. split; [reflexivity|].
  split; [exact Hf|].
  pose proof (lookup_updated i i (clock w) active (progress_patch pct) w) as Hl.
  rewrite Hr in Hl. simpl in Hl.
  unfold lookup in Hr. apply find_some in Hr. destruct Hr as [_ Hid].
  rewrite Hid in Hl. eexists. split; [exact Hl | reflexivity].
Qed.

Lemma last_any_default {A} (l : list A) (a d d' : A) :
  last (a :: l) d = last (a :: l) d'.
Proof.
  revert a. induction l as [|b l IH]; intro a; [reflexivity|].
  change (last (b :: l) d = last (b :: l) d'). apply IH.
Qed.

Lemma progress_loop (i : string) (total : Z) (c : Chance) (xs : list nat) :
  (forall k, In k xs -> progress_allowed (progress_patch (percent k total)) = true) ->
  forall (p : Z) (w : World),
  shows_progress i p w ->
  exists w',
    for_each xs (fun k =>
      updateTaskStatus i active (progress_patch (percent k total)) ;;
      sleep (delay k c)) w = (Ok tt, w')
    /\ shows_progress i (last (map (fun k => percent k total) xs) p) w'.
Proof.
  induction xs as [|x rest IH]; intros Hall p w Hs.
  - exists w. split; [reflexivity | exact Hs].
  - destruct (shows_report i p (percent x total) (delay x c) w Hs
                (Hall x (or_introl eq_refl))) as (w1 & Heq & Hs1).
    destruct (IH (fun k Hk => Hall k (or_intror Hk)) (percent x total) w1 Hs1)
      as (w2 & Heq2 & Hs2).
    exists w2. split.
    + cbn [for_each]. unfold bind at 1. rewrite Heq. exact Heq2.
    + cbn [map]. destruct rest as [|y rest']; [exact Hs2|].
      cbn [map] in Hs2.
      rewrite (last_any_default _ (percent y total) (percent x total) p) in Hs2.
      exact Hs2.
Qed.

Lemma upto_allowed (total : Z) (k : nat) :
  In k (upto total) -> progress_allowed (progress_patch (percent k total)) = true.
Proof.
  unfold upto. intro H. apply in_seq in H.
  assert (0 < total /\ Z.of_nat k < total) as [Ht Hk] by lia.
  pose proof (percent_range total k Ht Hk).
  unfold progress_allowed, progress_patch, between. simpl.
  apply andb_true_intro. split; apply Z.leb_le; lia.
Qed.

Lemma last_report (total p : Z) :
  0 < total -> last (map (fun k => percent k total) (upto total)) p = 100.
Proof.
  intro Ht. unfold upto.
  destruct (Z.to_nat total) as [|m] eqn:E; [lia|].
  rewrite seq_S, map_app. cbn [map]. rewrite last_last.
  rewrite Nat.add_0_l. apply percent_last; lia.
Qed.

Lemma attempt_final_progress (job : Job) (work : M Json) (w : World)
    (i : string) (p : Z) :
  faults w = [] ->
  t_id (job_data job) = Some i ->
  shows_progress i p (snd (work (marked_active i job w))) ->
  exists r',
    lookup i (snd (attempt job work w)) = Some r' /\ progress r' = p.
Proof.
  intros Hf Hid.
  destruct (work (marked_active i job w)) as [[d|e] w2] eqn:Ework;
    intros [Hf2 (r2 & Hr2 & Hp2)]; cbn [snd] in *;
    pose proof (lookup_some_existsb i w2 r2 Hr2) as Hex;
    [rewrite (attempt_ok_world job work w w2 i d Hf Hid Ework Hf2 Hex)
    |rewrite (attempt_throw_path job work w w2 i e Hf Hid Ework Hf2 Hex)];
    cbn [snd];
    match goal with
    | |- context [updated_rows i ?t ?st ?pa (tasks w2)] =>
        pose proof (lookup_updated i i t st pa w2) as Hl
    end;
    rewrite Hr2 in Hl; simpl in Hl;
    unfold lookup in Hr2; apply find_some in Hr2; destruct Hr2 as [_ Hid2];
    rewrite Hid2 in Hl; eexists; (split; [exact Hl | exact Hp2]).
Qed.

Lemma quiet_work_preserves (P : World -> Prop) (taskType : TaskType)
    (job : Job) (c : Chance) :
  taskType <> image_processing -> taskType <> data_export ->
  (forall d, preserves P (sleep d)) ->
  exists work,
    process taskType job c = attempt job work /\ preserves P work.
Proof.
  intros Hi He Hsleep.
  destruct taskType; try congruence; eexists; (split; [reflexivity|]);
    cbv zeta;
    unfold simulateEmailSending, simulateFileProcessing, simulateApiCall,
      simulateCleanupTask;
    preserves_steps.
  destruct (fails c); preserves_steps.
Qed.

Lemma export_reports (job : Job) (c : Chance) (w1 : World) (i : string) (p : Z) :
  t_id (job_data job) = Some i ->
  t_data (job_data job) <> JNull ->
  shows_progress i p w1 ->
  exists work,
    process data_export job c = attempt job work
    /\ shows_progress i 100 (snd (work w1)).
Proof.
  intros Hid Hd Hs. eexists. split; [reflexivity|].
  destruct (progress_loop i 5 c (upto 5) (upto_allowed 5) p w1 Hs)
    as (w2 & Heq & Hs2).
  rewrite last_report in Hs2 by lia.
  unfold simulateDataExport, task_id, payload. rewrite Hid. cbn [or_else].
  cbv zeta. set (loop := for_each _ _) in *.
  destruct (t_data (job_data job)) eqn:Ed; try congruence;
    unfold bind, prop, ret, maybe_fail; cbv beta iota; rewrite Heq;
    destruct (fails c); exact Hs2.
Qed.

Lemma bind_ret {A B} (x : A) (k : A -> M B) : bind (ret x) k = k x.
Proof. reflexivity. Qed.

Lemma image_reports (job : Job) (c : Chance) (w1 : World) (i : string)
    (p : Z) (ops : list Json) :
  t_id (job_data job) = Some i ->
  field "operations" (t_data (job_data job)) = Some (JArr ops) ->
  shows_progress i p w1 ->
  exists work,
    process image_processing job c = attempt job work
    /\ shows_progress i (match ops with [] => p | _ => 100 end) (snd (work w1)).
Proof.
  intros Hid Hfield Hs. eexists. split; [reflexivity|].
  set (total := Z.of_nat (List.length ops)).
  destruct (progress_loop i total c (upto total) (upto_allowed total) p w1 Hs)
    as (w2 & Heq & Hs2).
  assert (Hlast : shows_progress i (match ops with [] => p | _ => 100 end) w2).
  { destruct ops as [|o ops']; [exact Hs2|].
    rewrite last_report in Hs2 by (unfold total; simpl; lia). exact Hs2. }
  clear Hs2.
  destruct (t_data (job_data job)) as [| | | | |fs] eqn:Ed;
    try (cbn in Hfield; discriminate).
  unfold simulateImageProcessing, payload, task_id. rewrite Hid, Ed.
  cbn [or_else prop]. rewrite Hfield.
  repeat (first [rewrite bind_ret | progress cbn [length_of or_else]];
          cbv beta zeta).
  fold total. set (loop := for_each _ _) in *.
  unfold bind, ret, maybe_fail. rewrite Heq.
  destruct (fails c); exact Hlast.
Qed.

Lemma attempt_row_exists (taskType : TaskType) (job : Job) (c : Chance)
    (w : World) (i : string) (r : TaskRow) :
  faults w = [] -> t_id (job_data job) = Some i -> lookup i w = Some r ->
  exists r', lookup i (snd (process taskType job c w)) = Some r'.
Proof.
  intros Hf Hid Hr.
  destruct (process_is_attempt i (attemptsMade job + 1) (max_retries r)
              taskType job c) as (work & Heq & Hwork).
  rewrite Heq.
  destruct (attempt_result job work w i r Hf Hid Hr Hwork) as (r' & Hr' & _).
  exists r'. exact Hr'.
Qed.

Lemma quiet_attempt_progress (taskType : TaskType) (job : Job) (c : Chance)
    (w : World) (i : string) (r : TaskRow) :
  taskType <> image_processing -> taskType <> data_export ->
  faults w = [] -> t_id (job_data job) = Some i -> lookup i w = Some r ->
  exists r',
    lookup i (snd (process taskType job c w)) = Some r'
    /\ progress r' = progress r.
Proof.
  intros Hi He Hf Hid Hr.
  destruct (quiet_work_preserves (shows_progress i (progress r)) taskType job c
              Hi He (shows_sleep i (progress r))) as (work & Heq & Hwork).
  rewrite Heq. apply attempt_final_progress; try assumption.
  apply Hwork. apply shows_marked_active; assumption.
Qed.

(** X23.  The progress column after an attempt, on a store that answers
    and for a job whose row exists.  The handlers for e-mail, files, API
    calls and cleanup never report progress: the row keeps the progress it
    had, also when the attempt completes the job.  A data export whose
    payload is not null leaves the progress at 100, whether the attempt
    returned or failed, since the simulated failure comes after the five
    reports.  An image job whose [operations] is an array leaves it at 100
    when the array is not empty, and as it was when the array is empty. *)
Theorem progress_after_attempt
    (taskType : TaskType) (job : Job) (c : Chance) (w : World)
    (i : string) (r : TaskRow) :
  faults w = [] ->
  t_id (job_data job) = Some i ->
  lookup i w = Some r ->
  exists r',
    lookup i (snd (process taskType job c w)) = Some r'
    /\ match taskType with
       | data_export =>
           t_data (job_data job) <> JNull -> progress r' = 100
       | image_processing =>
           forall ops,
             field "operations" (t_data (job_data job)) = Some (JArr ops) ->
             progress r' = match ops with [] => progress r | _ => 100 end
       | _ => progress r' = progress r
       end.
Proof.
  intros Hf Hid Hr.
  pose proof (shows_marked_active i job w r Hf Hr) as Hs.
  destruct taskType;
    try (apply quiet_attempt_progress; solve [assumption | discriminate]).
  - destruct (field "operations" (t_data (job_data job)))
      as [[| | | |ops|]|] eqn:Hfield;
      try (destruct (attempt_row_exists image_processing job c w i r Hf Hid Hr)
             as (r' & Hr'); exists r'; split; [exact Hr' | discriminate]).
    destruct (image_reports job c _ i _ ops Hid Hfield Hs) as (work & Heq & Hw).
    rewrite Heq.
    destruct (attempt_final_progress job work w i _ Hf Hid Hw) as (r' & Hr' & Hp).
    exists r'. split; [exact Hr'|].
    intros ops' Hops. inversion Hops; subst ops'. exact Hp.
  - destruct (t_data (job_data job)) eqn:Ed;
      try (assert (Hd : t_data (job_data job) <> JNull) by (rewrite Ed; discriminate);
           destruct (export_reports job c _ i _ Hid Hd Hs) as (work & Heq & Hw);
           rewrite Heq;
           destruct (attempt_final_progress job work w i _ Hf Hid Hw)
             as (r' & Hr' & Hp);
           exists r'; split; [exact Hr' | intros _; exact Hp]).
    destruct (attempt_row_exists data_export job c w i r Hf Hid Hr) as (r' & Hr').
    exists r'. split; [exact Hr' | intro H; contradiction].
Qed.

Lemma progress_after_attempt_witness :
  exists r',
    lookup "e-1"
      (snd (process data_export
              (queued_job default_env "e-1" sample_export_task) unlucky
              (snd (addTask default_env "u" sample_export_task fresh_world))))
    = Some r'
    /\ (t_data (job_data (queued_job default_env "e-1" sample_export_task))
        <> JNull -> progress r' = 100).
Proof.
  apply (progress_after_attempt data_export
           (queued_job default_env "e-1" sample_export_task) unlucky
           (snd (addTask default_env "u" sample_export_task fresh_world))
           "e-1" (inserted_row 0 "e-1" sample_export_task));
    reflexivity.
Defined.

(* ===================================================================== *)
(** ** The health of a system that has finished nothing *)
(* ===================================================================== *)

Lemma none_finished (rows : list TaskRow) :
  (forall r, In r rows -> status r <> completed /\ status r <> failed) ->
  filter (status_in [completed; failed]) rows = [].
Proof.
  induction rows as [|r l IH]; intro H; [reflexivity|].
  simpl. destruct (H r (or_introl eq_refl)) as [Hc Hf].
  unfold status_in at 1. simpl.
  destruct (status r); try congruence; simpl; apply IH;
    intros r' Hr'; apply H; right; exact Hr'.
Qed.

(** X24.  A system that has finished nothing is reported critical.  When
    the store answers and no row is completed or failed (a freshly started
    system, for one), the success rate that [getMetrics] returns is 0, so
    the health status the monitor computes from the collected metrics is
    [critical] and lists a low success rate of 0.0%, whatever the memory
    reading and the state of the queues. *)
Theorem idle_system_is_reported_critical
    (uptime : Q) (memory : MemoryUsage) (cpu : Z) (w : World) :
  faults w = [] ->
  (forall r, In r (tasks w) -> status r <> completed /\ status r <> failed) ->
  exists h,
    monitor_health uptime memory cpu w = (Ok h, w)
    /\ overall h = critical
    /\ In "Low success rate (0.0%)" (issues h).
Proof.
  intros Hf Hnone.
  unfold monitor_health, collectMetrics, bind, both, getMetrics, bind, both.
  repeat (rewrite (select_ok _ w Hf); cbn beta iota).
  unfold ret. cbv beta iota.
  unfold getAllQueueStats. rewrite collect_stats_total. cbv beta iota.
  eexists. split; [reflexivity|].
  unfold calculateHealthStatus, monitor_metrics.
  cbn [mm_database dbMetrics successRate mm_memoryUsage queueStats].
  unfold successRate_query. rewrite (none_finished _ Hnone).
  cbn [List.length Z.of_nat Z.eqb].
  change (Qlt_bool 0 90) with true. cbv iota.
  change (toFixed1 0) with "0.0".
  split.
  - repeat match goal with
           | |- context [Z.ltb ?a ?b] => destruct (Z.ltb a b)
           end; reflexivity.
  - repeat match goal with
           | |- context [Z.ltb ?a ?b] => destruct (Z.ltb a b)
           end; cbn [critical_issue warning_issue issues app];
      repeat (rewrite in_app_iff); simpl; tauto.
Qed.

Lemma idle_system_is_reported_critical_witness :
  exists h,
    monitor_health 60 {| mu_used := 1; mu_total := 4; mu_percentage := 25 |} 0
      fresh_world = (Ok h, fresh_world)
    /\ overall h = critical
    /\ In "Low success rate (0.0%)" (issues h).
Proof.
  apply (idle_system_is_reported_critical 60
           {| mu_used := 1; mu_total := 4; mu_percentage := 25 |} 0 fresh_world).
  - reflexivity.
  - intros r H. destruct H.
Defined.
